(** * AutoGrowthTradingSystem: the price-history ingestion pipeline

    A shallow embedding of the storage layer
    ([trading_bot/data/database.py]), of the paginating fetchers and the gap
    top-up ([trading_bot/scripts/collect_historical_data.py]) and of the
    checkpoint store ([trading_bot/scripts/progress_tracker.py]), with the
    properties stated about them.

    Conventions.
    - Times are integer milliseconds since the epoch ([Z]); a reading of
      [datetime.now()] is an argument of the function that takes it.
    - The OHLCV values are IEEE doubles ([float]); the storage code only
      carries them.
    - A function that mutates the database or the checkpoint file takes the
      old store and returns the new one.
    - The remote API is an oracle [nat -> request -> response]: the answer to
      the n-th call of a run. *)

From Stdlib Require Import ZArith List String Ascii Bool Lia Floats.
Import ListNotations.

Open Scope Z_scope.

(* ================================================================== *)
(** * SQLite, as far as the storage code relies on it *)
(* ================================================================== *)

Module Sqlite.

(** SQLite matches table names without regard to ASCII case:
    [INSERT INTO ETHUSDT_1M] addresses the table created as [ETHUSDT_1m].
    Values are compared with the BINARY collation, that is exactly. *)
Definition ascii_lower (c : ascii) : ascii :=
  let n := N_of_ascii c in
  if (N.leb 65 n && N.leb n 90)%bool then ascii_of_N (n + 32) else c.

Fixpoint lower (s : string) : string :=
  match s with
  | EmptyString => EmptyString
  | String c s' => String (ascii_lower c) (lower s')
  end.

Definition name_eqb (a b : string) : bool := String.eqb (lower a) (lower b).

(** The store writes the name of the table into the text of its statement
    ([f"INSERT OR REPLACE INTO {table_name} ..."]), and the tables below are
    looked up under the name as it is handed over. That is how SQLite reads
    a name that is one bare identifier: a letter or an underscore, then
    letters, digits and underscores. Any other text is read as SQL: blanks
    around it are dropped, quotes are taken off, [main.t] addresses [t], and
    more words make another statement of it. A reserved word standing alone
    ([select], [table]) is refused by the parser, so the call raises; the
    three keywords that hold an underscore ([CURRENT_DATE], [CURRENT_TIME],
    [CURRENT_TIMESTAMP]) are accepted as names of tables. *)
Definition identifier_start (c : ascii) : bool :=
  let n := N_of_ascii c in
  (N.leb 65 n && N.leb n 90) || (N.leb 97 n && N.leb n 122) || N.eqb n 95.

Definition identifier_part (c : ascii) : bool :=
  let n := N_of_ascii c in
  identifier_start c || (N.leb 48 n && N.leb n 57).

Fixpoint identifier_rest (s : string) : bool :=
  match s with
  | EmptyString => true
  | String c s' => identifier_part c && identifier_rest s'
  end.

Definition identifier (name : string) : bool :=
  match name with
  | EmptyString => false
  | String c s' => identifier_start c && identifier_rest s'
  end.

(** One row of a per-coin table:
    [id INTEGER PRIMARY KEY AUTOINCREMENT, timestamp INTEGER NOT NULL,
     open_price .. volume REAL NOT NULL,
     created_at TIMESTAMP DEFAULT CURRENT_TIMESTAMP, UNIQUE(timestamp)]. *)
Record price_row : Type := {
  id : Z;
  timestamp : Z;
  open_price : float;
  high_price : float;
  low_price : float;
  close_price : float;
  volume : float;
  created_at : Z
}.

(** A table keeps its rows in rowid order; [seq] is its entry in
    [sqlite_sequence], the largest rowid AUTOINCREMENT has handed out. The
    store never sets a rowid itself, so no row carries a larger one. *)
Record price_table : Type := {
  table_name : string;
  rows : list price_row;
  seq : Z
}.

(** One row of [data_collection_status]:
    [id .. AUTOINCREMENT, symbol TEXT NOT NULL, interval TEXT NOT NULL,
     last_collected_timestamp INTEGER, last_updated TIMESTAMP,
     UNIQUE(symbol, interval)]. *)
Record status_row : Type := {
  status_id : Z;
  symbol : string;
  interval : string;
  last_collected_timestamp : option Z;
  last_updated : Z
}.

(** The database file: its per-coin tables, in the order of their creation,
    and [data_collection_status]. The tables the store never addresses
    ([price_data], [sentiment_data], [realtime_data], [trades]) are left
    out. *)
Record database : Type := {
  coin_tables : list price_table;
  status_rows : list status_row;
  status_seq : Z
}.

Definition empty_database : database :=
  {| coin_tables := []; status_rows := []; status_seq := 0 |}.

Inductive error : Type :=
| NoSuchTable (name : string)
| NotNullConstraint (column : string).

Fixpoint find_table (name : string) (ts : list price_table) : option price_table :=
  match ts with
  | [] => None
  | t :: ts' => if name_eqb (table_name t) name then Some t else find_table name ts'
  end.

Fixpoint replace_table (name : string) (t' : price_table) (ts : list price_table)
  : list price_table :=
  match ts with
  | [] => []
  | t :: ts' =>
      if name_eqb (table_name t) name then t' :: ts'
      else t :: replace_table name t' ts'
  end.

(** [CREATE TABLE IF NOT EXISTS name (...)]. *)
Definition create_table_if_not_exists (name : string) (db : database) : database :=
  match find_table name (coin_tables db) with
  | Some _ => db
  | None =>
      {| coin_tables := coin_tables db ++ [{| table_name := name; rows := []; seq := 0 |}];
         status_rows := status_rows db;
         status_seq := status_seq db |}
  end.

(** A bound double that is NaN is stored as NULL. *)
Definition bind_real (x : float) : option float :=
  if PrimFloat.is_nan x then None else Some x.

(** A REAL column gives back the double that was bound, bit for bit, with
    one exception: the negative zero comes back as [0.0], a double without
    fraction being kept as an integer. The rows below hold the values as
    they were bound, so they are the rows a query returns for the values
    that read back. *)
Definition reads_back (x : float) : bool :=
  match PrimFloat.classify x with
  | NZero => false
  | _ => true
  end.

(** [INSERT OR REPLACE] into a per-coin table: the row that holds the same
    [timestamp] is deleted, the new row is appended under a fresh rowid. A
    NULL in a NOT NULL column without default aborts the statement. *)
Definition insert_or_replace_row (clock : Z) (t : price_table)
    (ts : Z) (o h l c v : float) : error + price_table :=
  match bind_real o, bind_real h, bind_real l, bind_real c, bind_real v with
  | Some o', Some h', Some l', Some c', Some v' =>
      inr {| table_name := table_name t;
             rows := filter (fun r => negb (timestamp r =? ts)) (rows t)
                     ++ [{| id := seq t + 1; timestamp := ts;
                            open_price := o'; high_price := h'; low_price := l';
                            close_price := c'; volume := v';
                            created_at := clock |}];
             seq := seq t + 1 |}
  | None, _, _, _, _ => inl (NotNullConstraint "open_price")
  | _, None, _, _, _ => inl (NotNullConstraint "high_price")
  | _, _, None, _, _ => inl (NotNullConstraint "low_price")
  | _, _, _, None, _ => inl (NotNullConstraint "close_price")
  | _, _, _, _, None => inl (NotNullConstraint "volume")
  end.

Definition insert_or_replace (clock : Z) (name : string)
    (ts : Z) (o h l c v : float) (db : database) : error + database :=
  match find_table name (coin_tables db) with
  | None => inl (NoSuchTable name)
  | Some t =>
      match insert_or_replace_row clock t ts o h l c v with
      | inl e => inl e
      | inr t' =>
          inr {| coin_tables := replace_table name t' (coin_tables db);
                 status_rows := status_rows db;
                 status_seq := status_seq db |}
      end
  end.

Definition same_unit (sym itv : string) (r : status_row) : bool :=
  (String.eqb (symbol r) sym && String.eqb (interval r) itv)%bool.

(** [INSERT OR REPLACE INTO data_collection_status
     (symbol, interval, last_collected_timestamp, last_updated)]. *)
Definition insert_or_replace_status (clock : Z) (sym itv : string) (last : Z)
    (db : database) : database :=
  {| coin_tables := coin_tables db;
     status_rows :=
       filter (fun r => negb (same_unit sym itv r)) (status_rows db)
       ++ [{| status_id := status_seq db + 1; symbol := sym; interval := itv;
              last_collected_timestamp := Some last; last_updated := clock |}];
     status_seq := status_seq db + 1 |}.

(** [SELECT last_collected_timestamp FROM data_collection_status
     WHERE symbol = ? AND interval = ?], then [fetchone()]. *)
Definition select_status (sym itv : string) (db : database) : option status_row :=
  find (same_unit sym itv) (status_rows db).

(** [with sqlite3.connect(path) as conn: body; conn.commit()]: the body works
    on the connection's view of the database; leaving the block normally
    commits it, leaving it by an exception rolls it back. *)
Definition transaction (body : database -> error + database) (db : database)
  : database * option error :=
  match body db with
  | inr db' => (db', None)
  | inl e => (db, Some e)
  end.

End Sqlite.

(* ================================================================== *)
(** * [Database]: trading_bot/data/database.py *)
(* ================================================================== *)

Module Database.

Local Open Scope string_scope.
Local Open Scope Z_scope.

(** One element of the [data] list handed to the store:
    [{'timestamp', 'open', 'high', 'low', 'close', 'volume'}]. *)
Record candle : Type := {
  timestamp : Z;
  open : float;
  high : float;
  low : float;
  close : float;
  volume : float
}.

Definition coins : list string :=
  [ "ETHUSDT"; "BTCUSDT"; "SUIUSDT"; "SOLUSDT"; "XRPUSDT"; "ERAUSDT"; "ENAUSDT";
    "PENGUUSDT"; "DOGEUSDT"; "HBARUSDT"; "PEPEUSDT"; "ADAUSDT"; "CRVUSDT";
    "TRXUSDT"; "BONKUSDT"; "AVAXUSDT"; "UNIUSDT"; "OMUSDT"; "LINKUSDT";
    "CFXUSDT"; "BCHUSDT"; "WIFUSDT"; "XLMUSDT"; "CUSDT"; "SPKUSDT";
    "SEIUSDT"; "KERNELUSDT"; "IDEXUSDT"; "LTCUSDT"; "CAKEUSDT";
    "SYRUPUSDT"; "REIUSDT"; "WLDUSDT"; "FISUSDT"; "TRUMPUSDT";
    "ASRUSDT"; "FLOKIUSDT"; "ENSUSDT"; "ETHFIUSDT"; "AAVEUSDT";
    "NEARUSDT"; "SAHARAUSDT"; "INJUSDT"; "ONDOUSDT"; "NEIROUSDT";
    "TAOUSDT"; "CVXUSDT"; "TONUSDT"; "BIGTIMEUSDT"; "SLPUSDT" ].

(** The intervals [init_database] creates tables for. *)
Definition intervals : list string :=
  [ "1m"; "3m"; "5m"; "15m"; "30m";
    "1h"; "2h"; "4h"; "6h"; "8h"; "12h";
    "1d"; "3d"; "1w"; "1month" ].

(** [f"{symbol}_{interval}"]. *)
Definition coin_table_name (symbol interval : string) : string :=
  (symbol ++ "_" ++ interval)%string.

(** [init_database]: the per-coin tables, coin by coin and interval by
    interval; [data_collection_status] is part of every [database]. *)
Definition init_database (db : Sqlite.database) : Sqlite.database :=
  fold_left
    (fun db coin =>
       fold_left
         (fun db interval =>
            Sqlite.create_table_if_not_exists (coin_table_name coin interval) db)
         intervals db)
    coins db.

(** The [for item in data: cursor.execute(INSERT OR REPLACE ...)] loop. *)
Fixpoint insert_items (clock : Z) (table_name : string) (data : list candle)
    (db : Sqlite.database) : Sqlite.error + Sqlite.database :=
  match data with
  | [] => inr db
  | item :: data' =>
      match Sqlite.insert_or_replace clock table_name
              (timestamp item) (open item) (high item) (low item)
              (close item) (volume item) db with
      | inl e => inl e
      | inr db' => insert_items clock table_name data' db'
      end
  end.

(** [data[-1]['timestamp']] of a non-empty list. *)
Definition last_timestamp (item : candle) (data' : list candle) : Z :=
  timestamp (List.last data' item).

(** The body of the [with] block of [save_price_data_to_coin_table]. *)
Definition save_body (clock : Z) (symbol interval : string) (data : list candle)
    (db : Sqlite.database) : Sqlite.error + Sqlite.database :=
  match insert_items clock (coin_table_name symbol interval) data db with
  | inl e => inl e
  | inr db' =>
      match data with
      | [] => inr db'
      | item :: data' =>
          inr (Sqlite.insert_or_replace_status clock symbol interval
                 (last_timestamp item data') db')
      end
  end.

(** [save_price_data_to_coin_table]: the database after the call, and the
    exception it re-raises, if any. [clock] is the reading CURRENT_TIMESTAMP
    gives during the call. *)
Definition save_price_data_to_coin_table (clock : Z) (db : Sqlite.database)
    (symbol interval : string) (data : list candle)
  : Sqlite.database * option Sqlite.error :=
  Sqlite.transaction (save_body clock symbol interval data) db.

(** [get_last_collected_timestamp]: [result[0] if result else None]. *)
Definition get_last_collected_timestamp (db : Sqlite.database)
    (symbol interval : string) : option Z :=
  match Sqlite.select_status symbol interval db with
  | Some r => Sqlite.last_collected_timestamp r
  | None => None
  end.

(** Python's truth value of an [Optional[int]]: [None] and [0] are false. *)
Definition truthy (x : option Z) : bool :=
  match x with
  | Some t => negb (t =? 0)
  | None => false
  end.

Record period : Type := { start_time : Z; end_time : Z }.

Definition days_ms (days : Z) : Z := days * 86400000.

(** [get_missing_data_period]. [current_time] is the reading of
    [datetime.now()] that becomes ['end_time']; [now_again] is the second
    reading, taken in the first-collection branch. *)
Definition get_missing_data_period (db : Sqlite.database)
    (symbol interval : string) (current_time now_again : Z) : option period :=
  let last_timestamp := get_last_collected_timestamp db symbol interval in
  if truthy last_timestamp then
    match last_timestamp with
    | Some t => Some {| start_time := t + 1; end_time := current_time |}
    | None => None
    end
  else
    Some {| start_time := now_again - days_ms 1095; end_time := current_time |}.

(** ** Views of the stored state *)

(** The candle a row holds: its six data columns. *)
Definition candle_of_row (r : Sqlite.price_row) : candle :=
  {| timestamp := Sqlite.timestamp r;
     open := Sqlite.open_price r; high := Sqlite.high_price r;
     low := Sqlite.low_price r; close := Sqlite.close_price r;
     volume := Sqlite.volume r |}.

(** The candles of the table a name addresses, in rowid order. *)
Definition table_candles (name : string) (db : Sqlite.database)
  : option (list candle) :=
  option_map (fun t => map candle_of_row (Sqlite.rows t))
             (Sqlite.find_table name (Sqlite.coin_tables db)).

(** How many rows of the addressed table hold timestamp [ts]. *)
Definition rows_at (name : string) (ts : Z) (db : Sqlite.database) : nat :=
  match Sqlite.find_table name (Sqlite.coin_tables db) with
  | Some t =>
      List.length (filter (fun r => Sqlite.timestamp r =? ts) (Sqlite.rows t))
  | None => 0%nat
  end.

(** The status rows without their rowid and [last_updated]. *)
Definition status_view (db : Sqlite.database)
  : list (string * string * option Z) :=
  map (fun r => (Sqlite.symbol r, Sqlite.interval r,
                 Sqlite.last_collected_timestamp r))
      (Sqlite.status_rows db).


(** ** The store, seen on one table and on its candles *)

(** The [INSERT OR REPLACE] statements of one batch, on the table itself. *)
Fixpoint store_table (clock : Z) (t : Sqlite.price_table) (data : list candle)
  : Sqlite.error + Sqlite.price_table :=
  match data with
  | [] => inr t
  | item :: data' =>
      match Sqlite.insert_or_replace_row clock t
              (timestamp item) (open item) (high item) (low item)
              (close item) (volume item) with
      | inl e => inl e
      | inr t' => store_table clock t' data'
      end
  end.

(** Upsert by timestamp on a list of candles. *)
Definition upsert (c : candle) (l : list candle) : list candle :=
  (filter (fun d => negb (timestamp d =? timestamp c)) l ++ [c])%list.

Definition upserts (data l : list candle) : list candle :=
  fold_left (fun l c => upsert c l) data l.

Definition has_timestamp (ts : Z) (data : list candle) : bool :=
  existsb (fun c => timestamp c =? ts) data.

Definition count_at (ts : Z) (l : list candle) : nat :=
  List.length (filter (fun d => timestamp d =? ts) l).

(** The number of rows of the table a name addresses. *)
Definition row_count (name : string) (db : Sqlite.database) : option nat :=
  option_map (fun t => List.length (Sqlite.rows t))
             (Sqlite.find_table name (Sqlite.coin_tables db)).

(** The largest timestamp of a non-empty batch. *)
Definition max_timestamp (item : candle) (data' : list candle) : Z :=
  fold_left (fun m c => Z.max m (timestamp c)) data' (timestamp item).

(** Ascending by timestamp: each record is at or after the one before. *)
Fixpoint ascending (item : candle) (data' : list candle) : bool :=
  match data' with
  | [] => true
  | c :: rest => (timestamp item <=? timestamp c) && ascending c rest
  end.

(** A candle whose timestamp the batch does not write. *)
Definition outside (data : list candle) (d : candle) : bool :=
  negb (has_timestamp (timestamp d) data).

(** The candles of a table, in rowid order. *)
Definition candles_of (t : Sqlite.price_table) : list candle :=
  map candle_of_row (Sqlite.rows t).

(** The database with its per-coin tables replaced. *)
Definition with_tables (db : Sqlite.database) (ts : list Sqlite.price_table)
  : Sqlite.database :=
  {| Sqlite.coin_tables := ts; Sqlite.status_rows := Sqlite.status_rows db;
     Sqlite.status_seq := Sqlite.status_seq db |}.

(** Whether a table was created under exactly this spelling. *)
Definition created_as (name : string) (db : Sqlite.database) : bool :=
  existsb (fun t => String.eqb (Sqlite.table_name t) name) (Sqlite.coin_tables db).

(** ** More views of the store *)

(** The names [init_database] goes through, in its order. *)
Definition table_names : list string :=
  flat_map (fun coin => map (coin_table_name coin) intervals) coins.

(** The names of the per-coin tables of a database, as they were created. *)
Definition tables_of (db : Sqlite.database) : list string :=
  map Sqlite.table_name (Sqlite.coin_tables db).

(** A candle none of whose five values is NaN. *)
Definition storable (c : candle) : bool :=
  negb (PrimFloat.is_nan (open c)) && negb (PrimFloat.is_nan (high c))
  && negb (PrimFloat.is_nan (low c)) && negb (PrimFloat.is_nan (close c))
  && negb (PrimFloat.is_nan (volume c)).

(** A candle whose timestamp SQLite's INTEGER holds. The store is modelled
    with timestamps of any size; [sqlite3] refuses to bind a Python int that
    does not fit 64 bits, so the model speaks for the batches whose
    timestamps do. *)
Definition fits_integer (c : candle) : bool :=
  (- 2 ^ 63 <=? timestamp c) && (timestamp c <? 2 ^ 63).

(** A candle whose five values a REAL column gives back as they were
    bound: none of them is the negative zero. *)
Definition exact_values (c : candle) : bool :=
  Sqlite.reads_back (open c) && Sqlite.reads_back (high c)
  && Sqlite.reads_back (low c) && Sqlite.reads_back (close c)
  && Sqlite.reads_back (volume c).

(** The first candle of a list at a timestamp. *)
Definition candle_at (ts : Z) (l : list candle) : option candle :=
  find (fun d => timestamp d =? ts) l.

(** [SELECT ... FROM <name> WHERE timestamp = ts], on the data columns. *)
Definition stored_candle (name : string) (ts : Z) (db : Sqlite.database)
  : option candle :=
  match table_candles name db with
  | Some l => candle_at ts l
  | None => None
  end.

(** [CREATE TABLE IF NOT EXISTS] for a list of names, in order. *)
Definition create_all (names : list string) (db : Sqlite.database)
  : Sqlite.database :=
  fold_left (fun db name => Sqlite.create_table_if_not_exists name db) names db.

(** ** [save_price_data_to_table] and [get_database_info] *)

(** [save_price_data_to_table]: the loop of the store on a table given by
    name, without the status row; [symbol] goes to the log only. A name of
    one of the tables left out of [database] raises as a missing one does,
    the columns not being theirs. *)
Definition save_price_data_to_table (clock : Z) (db : Sqlite.database)
    (symbol : string) (data : list candle) (table_name : string)
  : Sqlite.database * option Sqlite.error :=
  Sqlite.transaction (insert_items clock table_name data) db.

(** [SELECT COUNT( * ) FROM name] inside [try: ... except: 0]. *)
Definition count_or_zero (name : string) (db : Sqlite.database) : Z :=
  match row_count name db with
  | Some n => Z.of_nat n
  | None => 0
  end.

Definition basic_tables : list string :=
  [ "price_data"; "sentiment_data"; "realtime_data"; "trades" ].

(** [get_database_info]. The four basic tables are not part of [database]:
    [basic] holds their row counts, in the order of [basic_tables], or
    [None] where one of them is missing; the query on it then raises and
    the method returns [{}]. The dict is given as the list of its items. *)
Definition get_database_info (basic : option (Z * Z * Z * Z))
    (db : Sqlite.database) : list (string * Z) :=
  match basic with
  | None => []
  | Some (price_data, sentiment_data, realtime_data, trades) =>
      combine basic_tables [price_data; sentiment_data; realtime_data; trades]
      ++ map (fun interval =>
                let table_name := ("price_data_" ++ interval)%string in
                (table_name, count_or_zero table_name db))
             intervals
  end.

End Database.

(* ================================================================== *)
(** * [Database]: the table [price_data] *)
(* ================================================================== *)

Module PriceData.

Local Open Scope string_scope.
Local Open Scope Z_scope.

(** One row of [price_data]:
    [id INTEGER PRIMARY KEY AUTOINCREMENT, symbol TEXT NOT NULL,
     timestamp INTEGER NOT NULL, open_price .. volume REAL NOT NULL,
     created_at TIMESTAMP DEFAULT CURRENT_TIMESTAMP,
     UNIQUE(symbol, timestamp)]. *)
Record row : Type := {
  id : Z;
  symbol : string;
  timestamp : Z;
  open_price : float;
  high_price : float;
  low_price : float;
  close_price : float;
  volume : float;
  created_at : Z
}.

(** The table: its rows in rowid order and its entry in [sqlite_sequence]. *)
Record table : Type := {
  rows : list row;
  seq : Z
}.

Definition same_key (sym : string) (ts : Z) (r : row) : bool :=
  String.eqb (symbol r) sym && (timestamp r =? ts).

(** The [INSERT OR REPLACE INTO price_data] of [save_price_data]: [None]
    where the statement raises, for a timestamp [sqlite3] cannot bind or a
    NaN, which is bound as NULL. The values are those of [data]. *)
Definition insert_or_replace (clock : Z) (sym : string) (data : Database.candle)
    (t : table) : option table :=
  if Database.fits_integer data && Database.storable data then
    Some {| rows :=
              filter (fun r => negb (same_key sym (Database.timestamp data) r))
                     (rows t)
              ++ [{| id := seq t + 1; symbol := sym;
                     timestamp := Database.timestamp data;
                     open_price := Database.open data;
                     high_price := Database.high data;
                     low_price := Database.low data;
                     close_price := Database.close data;
                     volume := Database.volume data;
                     created_at := clock |}];
            seq := seq t + 1 |}
  else None.

(** [save_price_data]: the [except] clause logs the exception and the method
    returns. *)
Definition save_price_data (clock : Z) (t : table) (sym : string)
    (data : Database.candle) : table :=
  match insert_or_replace clock sym data t with
  | Some t' => t'
  | None => t
  end.

(** A parameter [sqlite3] can bind as INTEGER. *)
Definition binds (x : Z) : bool := (- 2 ^ 63 <=? x) && (x <? 2 ^ 63).

(** [WHERE symbol = ?]. *)
Definition of_symbol (sym : string) (t : table) : list row :=
  filter (fun r => String.eqb (symbol r) sym) (rows t).

(** [timestamp BETWEEN ? AND ?]. *)
Definition between (start_time end_time : Z) (r : row) : bool :=
  (start_time <=? timestamp r) && (timestamp r <=? end_time).

Fixpoint insert_row (r : row) (l : list row) : list row :=
  match l with
  | [] => [r]
  | r' :: l' =>
      if timestamp r <? timestamp r' then r :: r' :: l'
      else r' :: insert_row r l'
  end.

(** [ORDER BY timestamp ASC]; among the rows of one symbol no timestamp comes
    twice, so the order is determined. *)
Definition order_by_timestamp (l : list row) : list row :=
  fold_right insert_row [] l.

(** [ORDER BY timestamp DESC]. *)
Definition order_by_timestamp_desc (l : list row) : list row :=
  rev (order_by_timestamp l).

(** [LIMIT n]: a negative [n] is no limit. *)
Definition limit_rows (n : Z) (l : list row) : list row :=
  if n <? 0 then l else firstn (Z.to_nat n) l.

(** [get_price_data]: the rows of the frame, in its order. The three
    branches are chosen by the truth values of the arguments; an exception,
    as for a parameter that cannot be bound, gives an empty frame. *)
Definition get_price_data (t : table) (sym : string)
    (start_time end_time limit : option Z) : list row :=
  if Database.truthy start_time && Database.truthy end_time then
    match start_time, end_time with
    | Some s, Some e =>
        if binds s && binds e
        then order_by_timestamp (filter (between s e) (of_symbol sym t))
        else []
    | _, _ => []
    end
  else if Database.truthy limit then
    match limit with
    | Some n =>
        if binds n
        then limit_rows n (order_by_timestamp_desc (of_symbol sym t))
        else []
    | None => []
    end
  else limit_rows 100 (order_by_timestamp_desc (of_symbol sym t)).

(** ** Reading a frame *)

(** The six data columns of a row. *)
Definition candle_of (r : row) : Database.candle :=
  {| Database.timestamp := timestamp r;
     Database.open := open_price r; Database.high := high_price r;
     Database.low := low_price r; Database.close := close_price r;
     Database.volume := volume r |}.

Fixpoint ascending_rows (l : list row) : bool :=
  match l with
  | [] => true
  | r :: l' =>
      forallb (fun r' => timestamp r <=? timestamp r') l' && ascending_rows l'
  end.

Fixpoint descending_rows (l : list row) : bool :=
  match l with
  | [] => true
  | r :: l' =>
      forallb (fun r' => timestamp r' <=? timestamp r) l' && descending_rows l'
  end.

(** The most rows the branch without a range returns: [None] is no bound. *)
Definition row_limit (limit : option Z) : option nat :=
  if Database.truthy limit then
    match limit with
    | Some n => if n <? 0 then None else Some (Z.to_nat n)
    | None => None
    end
  else Some 100%nat.

End PriceData.

(* ================================================================== *)
(** * The collectors: trading_bot/scripts/collect_historical_data.py *)
(* ================================================================== *)

Module Collector.

Import Database.

Local Open Scope string_scope.
Local Open Scope Z_scope.

(** One element of a klines answer; of its twelve fields the code reads the
    open time ([k[0]]), the five OHLCV values ([k[1..5]], as
    [pd.to_numeric(errors='coerce')] reads them) and the close time
    ([k[6]]). *)
Record kline : Type := {
  open_time : Z;
  k_open : float;
  k_high : float;
  k_low : float;
  k_close : float;
  k_volume : float;
  close_time : Z
}.

(** The [params] of a [/klines] request. *)
Record request : Type := {
  req_symbol : string;
  req_interval : string;
  startTime : Z;
  endTime : Z;
  limit : Z
}.

(** What a request comes back with: a 200 answer with its JSON list, another
    HTTP status, or an exception of the transport (timeout, reset). *)
Inductive response : Type :=
| Ok200 (data : list kline)
| HttpError (status : Z)
| NetworkError.

(** What a fetch does that can be observed from outside. *)
Inductive event : Type :=
| Request (req : request) (resp : response)
| Sleep (ms : Z)
| RateLimit.

Definition api_oracle : Type := nat -> request -> response.

(** [self.intervals], the same list in both collector classes. *)
Definition intervals : list string :=
  [ "1m"; "3m"; "5m"; "15m"; "30m";
    "1h"; "2h"; "4h"; "6h"; "8h"; "12h";
    "1d"; "3d"; "1w"; "1M" ].

(** How a loop ended: it left the [while], an exception left it, or the
    fuel of the model ran out before either. *)
Inductive ending : Type :=
| Left (all_data : list kline)
| Raised
| OutOfFuel.

(** The DataFrame built from klines: the six columns that are kept. *)
Definition frame_row (k : kline) : candle :=
  {| timestamp := open_time k;
     open := k_open k; high := k_high k; low := k_low k;
     close := k_close k; volume := k_volume k |}.

Definition to_frame (all_data : list kline) : list candle := map frame_row all_data.

(** ** [HistoricalDataCollector.get_historical_data] *)

Section Fetch.

Variable api : api_oracle.
Variables symbol interval : string.
Variable end_time : Z.

Definition klines_request (current_start current_end : Z) : request :=
  {| req_symbol := symbol; req_interval := interval;
     startTime := current_start; endTime := current_end; limit := 1000 |}.

(** The [while current_start < end_time] loop; [n] counts the calls made. *)
Fixpoint sequential_loop (fuel : nat) (n : nat) (current_start : Z)
    (all_data : list kline) : ending * list event :=
  if current_start <? end_time then
    match fuel with
    | O => (OutOfFuel, [])
    | S fuel' =>
        let req := klines_request current_start end_time in
        match api n req with
        | Ok200 [] => (Left all_data, [Request req (Ok200 [])])
        | Ok200 (k :: ks) =>
            let next := close_time (List.last ks k) + 1 in
            let (e, tr) :=
              sequential_loop fuel' (S n) next (all_data ++ k :: ks)%list in
            (e, Request req (Ok200 (k :: ks)) :: Sleep 100 :: tr)
        | resp => (Raised, [Request req resp])
        end
    end
  else (Left all_data, []).

(** ** [FastHistoricalDataCollector] *)

(** [_calculate_batch_size]: the width of one request window, in ms. *)
Definition _calculate_batch_size (interval : string) : Z :=
  if String.eqb interval "1m" then 1000 * 60 * 1000
  else if String.eqb interval "3m" then 1000 * 3 * 60 * 1000
  else if String.eqb interval "5m" then 1000 * 5 * 60 * 1000
  else if String.eqb interval "15m" then 1000 * 15 * 60 * 1000
  else if String.eqb interval "30m" then 1000 * 30 * 60 * 1000
  else if String.eqb interval "1h" then 1000 * 60 * 60 * 1000
  else if String.eqb interval "2h" then 1000 * 2 * 60 * 60 * 1000
  else if String.eqb interval "4h" then 1000 * 4 * 60 * 60 * 1000
  else if String.eqb interval "6h" then 1000 * 6 * 60 * 60 * 1000
  else if String.eqb interval "8h" then 1000 * 8 * 60 * 60 * 1000
  else if String.eqb interval "12h" then 1000 * 12 * 60 * 60 * 1000
  else if String.eqb interval "1d" then 1000 * 24 * 60 * 60 * 1000
  else if String.eqb interval "3d" then 1000 * 3 * 24 * 60 * 60 * 1000
  else if String.eqb interval "1w" then 1000 * 7 * 24 * 60 * 60 * 1000
  else if String.eqb interval "1M" then 1000 * 30 * 24 * 60 * 60 * 1000
  else 1000 * 60 * 1000.

(** The [while] loop of [get_historical_data_batch]; [all_data] collects
    the frames of the non-empty answers. *)
Fixpoint batch_loop (fuel : nat) (n : nat) (current_start : Z)
    (all_data : list (list candle)) : option (list (list candle)) * list event :=
  if current_start <? end_time then
    match fuel with
    | O => (None, [])
    | S fuel' =>
        let batch_size := _calculate_batch_size interval in
        let current_end := Z.min (current_start + batch_size) end_time in
        let req := klines_request current_start current_end in
        match api n req with
        | Ok200 [] =>
            let (r, tr) := batch_loop fuel' (S n) current_end all_data in
            (r, Request req (Ok200 []) :: Sleep 50 :: tr)
        | Ok200 (k :: ks) =>
            let next := open_time (List.last ks k) + 1 in
            let (r, tr) :=
              batch_loop fuel' (S n) next (all_data ++ [to_frame (k :: ks)])%list in
            (r, Request req (Ok200 (k :: ks)) :: Sleep 50 :: tr)
        | resp =>
            let (r, tr) := batch_loop fuel' (S n) current_end all_data in
            (r, Request req resp :: tr)
        end
    end
  else (Some all_data, []).

(** [drop_duplicates(subset=['timestamp'])]: the first row of each
    timestamp stays. *)
Fixpoint drop_duplicates (df : list candle) : list candle :=
  match df with
  | [] => []
  | c :: df' =>
      c :: filter (fun d => negb (timestamp d =? timestamp c)) (drop_duplicates df')
  end.

Fixpoint insert_sorted (c : candle) (df : list candle) : list candle :=
  match df with
  | [] => [c]
  | d :: df' =>
      if timestamp c <? timestamp d then c :: d :: df'
      else d :: insert_sorted c df'
  end.

(** [sort_values('timestamp')], on rows whose timestamps are distinct. *)
Definition sort_values (df : list candle) : list candle :=
  fold_right insert_sorted [] df.

(** [_rate_limit]: the counter after the call and what the call does. *)
Definition max_requests_per_second : Z := 10.

Definition _rate_limit (request_count : Z) : Z * list event :=
  let request_count := request_count + 1 in
  if max_requests_per_second <=? request_count
  then (0, [RateLimit; Sleep 1000])
  else (request_count, [RateLimit; Sleep 100]).

(** The loop of [get_historical_data_async], run by one coroutine. *)
Fixpoint async_loop (fuel : nat) (n : nat) (request_count : Z)
    (current_start : Z) (all_data : list kline) : ending * list event :=
  if current_start <? end_time then
    match fuel with
    | O => (OutOfFuel, [])
    | S fuel' =>
        let (request_count', limited) := _rate_limit request_count in
        let req := klines_request current_start end_time in
        match api n req with
        | Ok200 [] => (Left all_data, limited ++ [Request req (Ok200 [])])%list
        | Ok200 (k :: ks) =>
            let next := close_time (List.last ks k) + 1 in
            let (e, tr) :=
              async_loop fuel' (S n) request_count' next (all_data ++ k :: ks)%list in
            (e, limited ++ Request req (Ok200 (k :: ks)) :: tr)%list
        | HttpError s => (Left all_data, limited ++ [Request req (HttpError s)])%list
        | NetworkError => (Raised, limited ++ [Request req NetworkError])%list
        end
    end
  else (Left all_data, []).

End Fetch.

(** [HistoricalDataCollector.get_historical_data]: the frame it returns
    ([None]: no return within the fuel) and what it did. The [except] clause
    turns every exception into an empty frame. *)
Definition get_historical_data (api : api_oracle) (fuel : nat)
    (symbol interval : string) (start_time end_time : Z)
  : option (list candle) * list event :=
  match sequential_loop api symbol interval end_time fuel 0 start_time [] with
  | (Left all_data, tr) => (Some (to_frame all_data), tr)
  | (Raised, tr) => (Some [], tr)
  | (OutOfFuel, tr) => (None, tr)
  end.

(** [FastHistoricalDataCollector.get_historical_data_batch]. *)
Definition get_historical_data_batch (api : api_oracle) (fuel : nat)
    (symbol interval : string) (start_time end_time : Z)
  : option (list candle) * list event :=
  match batch_loop api symbol interval end_time fuel 0 start_time [] with
  | (Some all_data, tr) =>
      (Some (sort_values (drop_duplicates (List.concat all_data))), tr)
  | (None, tr) => (None, tr)
  end.

(** [FastHistoricalDataCollector.get_historical_data_async], run by one
    coroutine that starts with the counter at [request_count]. *)
Definition get_historical_data_async (api : api_oracle) (fuel : nat)
    (request_count : Z) (symbol interval : string) (start_time end_time : Z)
  : option (list candle) * list event :=
  match async_loop api symbol interval end_time fuel 0 request_count start_time [] with
  | (Left all_data, tr) => (Some (to_frame all_data), tr)
  | (Raised, tr) => (Some [], tr)
  | (OutOfFuel, tr) => (None, tr)
  end.

(** ** The two classes.

    The file defines two classes, neither a subclass of the other; these are
    the methods each defines ([class FastHistoricalDataCollector:] up to
    [_collect_single_coin_async], [class HistoricalDataCollector:] from
    there on). The attributes their constructors set ([config],
    [coins_config], [database], [logger], [base_url], [api_key],
    [secret_key], [intervals], [progress_tracker] and the limits) are no
    methods. A call [self.m(...)] on an object whose class does not define
    [m] raises [AttributeError]. *)
Definition FastHistoricalDataCollector : list string :=
  [ "__init__"; "get_historical_data_async"; "_rate_limit";
    "get_historical_data_batch"; "_calculate_batch_size";
    "collect_all_data_for_symbol_parallel"; "collect_all_coins_all_data_async";
    "_collect_single_coin_async" ].

Definition HistoricalDataCollector : list string :=
  [ "__init__"; "get_historical_data"; "collect_all_data_for_symbol";
    "collect_all_coins_all_data"; "collect_all_data_for_symbol_with_progress";
    "collect_single_coin_single_interval"; "collect_missing_data";
    "collect_all_missing_data" ].

Definition defines (class : list string) (method : string) : bool :=
  existsb (String.eqb method) class.


(** ** [collect_missing_data], the gap top-up of one unit.

    The method is defined in [HistoricalDataCollector]; [self] is the class
    of the object it runs on. [current_time] and [now_again] are the readings
    [get_missing_data_period] takes, [clock] the one of the store. The result
    is the database afterwards, the frame returned and what the fetch did.
    The [except] clause of the method turns every exception, the
    [AttributeError] of a method that is not there among them, into an empty
    frame. *)

(** [end_time - start_time < 60000]: the range that is not worth a fetch. *)
Definition too_short (missing_period : period) : bool :=
  Database.end_time missing_period - Database.start_time missing_period <? 60000.

Definition collect_missing_data (self : list string)
    (api : api_oracle) (fuel : nat) (current_time now_again clock : Z)
    (db : Sqlite.database) (symbol interval : string)
  : Sqlite.database * option (list candle) * list event :=
  match get_missing_data_period db symbol interval current_time now_again with
  | None => (db, Some [], [])
  | Some missing_period =>
      let start_time := Database.start_time missing_period in
      let end_time := Database.end_time missing_period in
      if too_short missing_period then (db, Some [], [])
      else if defines self "get_historical_data_batch" then
        match get_historical_data_batch api fuel symbol interval
                start_time end_time with
        | (None, tr) => (db, None, tr)
        | (Some [], tr) => (db, Some [], tr)
        | (Some df, tr) =>
            match save_price_data_to_coin_table clock db symbol interval df with
            | (db', None) => (db', Some df, tr)
            | (db', Some _) => (db', Some [], tr)
            end
        end
      else (db, Some [], [])
  end.

(** The readings of the clock a top-up of one unit takes:
    [(current_time, now_again, clock)]. *)
Definition readings : Type := string -> string -> Z * Z * Z.

(** One turn of the loops over the intervals below: the top-up of one unit,
    called on an object of class [target]. Both callers wrap the call in
    [try ... except Exception], which also catches the [AttributeError] of a
    [target] without the method. *)
Definition top_up_unit (target : list string) (api : api_oracle) (fuel : nat)
    (at_ : readings) (symbol : string)
    (state : Sqlite.database * list event) (interval : string)
  : Sqlite.database * list event :=
  let (db, tr) := state in
  if defines target "collect_missing_data" then
    let '(current_time, now_again, clock) := at_ symbol interval in
    let '(db', _, tr') :=
      collect_missing_data target api fuel current_time now_again clock
        db symbol interval in
    (db', (tr ++ tr')%list)
  else (db, tr).

(** [collect_all_missing_data], a method of [HistoricalDataCollector]:
    every coin, every interval. *)
Definition collect_all_missing_data (self : list string) (api : api_oracle)
    (fuel : nat) (at_ : readings) (coins : list string) (db : Sqlite.database)
  : Sqlite.database * list event :=
  fold_left
    (fun state symbol =>
       fold_left (top_up_unit self api fuel at_ symbol) intervals state)
    coins (db, []).

(** [collect_missing_data_for_single_coin], the function behind
    [--missing --symbol]: it builds a [FastHistoricalDataCollector] and calls
    [collector.collect_missing_data] for each interval. *)
Definition collect_missing_data_for_single_coin (api : api_oracle) (fuel : nat)
    (at_ : readings) (db : Sqlite.database) (symbol : string)
  : Sqlite.database * list event :=
  fold_left (top_up_unit FastHistoricalDataCollector api fuel at_ symbol)
    intervals (db, []).

(** [collect_missing_data_for_all_coins], the function behind [--missing]:
    it builds a [FastHistoricalDataCollector] and calls
    [collector.collect_all_missing_data()]; the last component tells
    whether it raises. *)
Definition collect_missing_data_for_all_coins (api : api_oracle) (fuel : nat)
    (at_ : readings) (coins : list string) (db : Sqlite.database)
  : Sqlite.database * list event * bool :=
  if defines FastHistoricalDataCollector "collect_all_missing_data" then
    (collect_all_missing_data FastHistoricalDataCollector api fuel at_ coins db,
     false)
  else (db, [], true).

(** The requests among the events of a run, with their answers. *)
Fixpoint exchanges (tr : list event) : list (request * response) :=
  match tr with
  | [] => []
  | Request req resp :: tr' => (req, resp) :: exchanges tr'
  | _ :: tr' => exchanges tr'
  end.

(** ** Reading a run *)

Definition is_failure (resp : response) : bool :=
  match resp with
  | Ok200 _ => false
  | _ => true
  end.

Definition request_eqb (a b : request) : bool :=
  String.eqb (req_symbol a) (req_symbol b)
  && String.eqb (req_interval a) (req_interval b)
  && (startTime a =? startTime b) && (endTime a =? endTime b)
  && (limit a =? limit b).

(** How often a request was made in a run. *)
Definition attempts (req : request) (tr : list event) : nat :=
  List.length (filter (fun x => request_eqb (fst x) req) (exchanges tr)).

(** How often a run went through [_rate_limit]. *)
Fixpoint limiter_calls (tr : list event) : nat :=
  match tr with
  | [] => 0%nat
  | RateLimit :: tr' => S (limiter_calls tr')
  | _ :: tr' => limiter_calls tr'
  end.

(** The time a run spends asleep between its requests, in ms. *)
Fixpoint pacing_ms (tr : list event) : Z :=
  match tr with
  | [] => 0
  | Sleep ms :: tr' => ms + pacing_ms tr'
  | _ :: tr' => pacing_ms tr'
  end.

(** The span of one candle of an interval: a request window of
    [_calculate_batch_size] holds a thousand of them. *)
Definition bucket_ms (interval : string) : Z :=
  _calculate_batch_size interval / 1000.

(** Whether a loop came to its end within the fuel. *)
Definition ended (e : ending) : bool :=
  match e with
  | OutOfFuel => false
  | _ => true
  end.

Definition returned {A} (r : option A) : bool :=
  match r with
  | Some _ => true
  | None => false
  end.

Definition no_more (xs : list (request * response)) : bool :=
  match xs with
  | [] => true
  | _ :: _ => false
  end.

(** ** Three descriptions of a paginated run.

    Each reads the exchanges of a run from the cursor [cursor] on;
    [complete] tells whether the run came to its end. *)

Section Pagination.

Variables symbol interval : string.
Variable end_time : Z.
Variable complete : bool.

(** As the fetcher is described: each call asks from the cursor on for at
    most 1000 records; an answer with candles moves the cursor to the close
    time of the last one plus 1; the run is over exactly when an answer is
    empty or the cursor has reached the end. On a failed request the
    description is silent. *)
Fixpoint described_pagination (cursor : Z) (xs : list (request * response))
  : bool :=
  match xs with
  | [] => if complete then end_time <=? cursor else true
  | (req, resp) :: rest =>
      (cursor <? end_time) && (startTime req =? cursor) && (limit req <=? 1000)
      && match resp with
         | Ok200 [] => no_more rest
         | Ok200 (k :: ks) =>
             described_pagination (close_time (List.last ks k) + 1) rest
         | _ => true
         end
  end.

(** The sequential loop: the window is always [[cursor, end_time]], and a
    failed request ends the run as an empty answer does. *)
Fixpoint sequential_pagination (cursor : Z) (xs : list (request * response))
  : bool :=
  match xs with
  | [] => if complete then end_time <=? cursor else true
  | (req, resp) :: rest =>
      (cursor <? end_time)
      && request_eqb req (klines_request symbol interval cursor end_time)
      && match resp with
         | Ok200 (k :: ks) =>
             sequential_pagination (close_time (List.last ks k) + 1) rest
         | _ => no_more rest
         end
  end.

(** The batch loop: the window is one batch wide at most; an answer with
    candles moves the cursor to the open time of the last one plus 1; an
    empty answer and a failed request move it to the end of the window; the
    run is over only when the cursor has reached the end. *)
Fixpoint batch_pagination (cursor : Z) (xs : list (request * response))
  : bool :=
  match xs with
  | [] => if complete then end_time <=? cursor else true
  | (req, resp) :: rest =>
      let current_end :=
        Z.min (cursor + _calculate_batch_size interval) end_time in
      (cursor <? end_time)
      && request_eqb req (klines_request symbol interval cursor current_end)
      && match resp with
         | Ok200 (k :: ks) =>
             batch_pagination (open_time (List.last ks k) + 1) rest
         | _ => batch_pagination current_end rest
         end
  end.

End Pagination.

(** ** More ways of reading a run and a frame *)

(** The klines of the 200 answers of a run, in the order of arrival. *)
Definition answered (xs : list (request * response)) : list kline :=
  flat_map (fun x => match snd x with
                     | Ok200 data => data
                     | _ => []
                     end) xs.

(** A frame whose every row is before all the rows after it. *)
Definition before_all (c : candle) (df : list candle) : bool :=
  forallb (fun d => timestamp c <? timestamp d) df.

Fixpoint strictly_ascending (df : list candle) : bool :=
  match df with
  | [] => true
  | c :: df' => before_all c df' && strictly_ascending df'
  end.

(** A frame in which no timestamp comes twice. *)
Fixpoint distinct_timestamps (df : list candle) : bool :=
  match df with
  | [] => true
  | c :: df' => negb (has_timestamp (timestamp c) df') && distinct_timestamps df'
  end.

(** A request of the batch fetcher for a unit, up to [end_time]: a window
    that is not empty, no wider than the batch size of the interval, closed
    at [end_time] at the latest, asking for 1000 records. *)
Definition batch_window (symbol interval : string) (end_time : Z)
    (req : request) : bool :=
  String.eqb (req_symbol req) symbol && String.eqb (req_interval req) interval
  && (startTime req <? endTime req) && (endTime req <=? end_time)
  && (endTime req - startTime req <=? _calculate_batch_size interval)
  && (limit req =? 1000).

(** The long sleeps of a run: those of one second. *)
Fixpoint long_sleeps (tr : list event) : Z :=
  match tr with
  | [] => 0
  | Sleep ms :: tr' => (if ms =? 1000 then 1 else 0) + long_sleeps tr'
  | _ :: tr' => long_sleeps tr'
  end.

Definition has_network_error (xs : list (request * response)) : bool :=
  existsb (fun x => match snd x with
                    | NetworkError => true
                    | _ => false
                    end) xs.

(** An open time [pd.to_datetime(unit='ms')] takes: the fetchers are modelled
    with open times of any size, and the conversion raises on one outside
    the range of a nanosecond timestamp, so the model speaks for the runs
    whose answers stay inside it. *)
Definition datetime_range (k : kline) : bool :=
  (- 9223372036854 <=? open_time k) && (open_time k <=? 9223372036854).

(** An open time on a whole second, as those of the exchange are:
    [int(row['timestamp'].timestamp() * 1000)] gives back its milliseconds
    exactly. *)
Definition whole_second (k : kline) : bool :=
  open_time k mod 1000 =? 0.

(** The requests of a run that came back with a 200 answer. *)
Definition answers_200 (xs : list (request * response)) : nat :=
  List.length (filter (fun x => negb (is_failure (snd x))) xs).

End Collector.

(* ================================================================== *)
(** * [ProgressTracker]: trading_bot/scripts/progress_tracker.py *)
(* ================================================================== *)

Module ProgressTracker.

Local Open Scope string_scope.
Local Open Scope Z_scope.

(** A [dict] from symbols to lists of intervals, in insertion order. *)
Definition dict : Type := list (string * list string).

Fixpoint dict_get (d : dict) (key : string) : option (list string) :=
  match d with
  | [] => None
  | (k, v) :: d' => if String.eqb k key then Some v else dict_get d' key
  end.

(** ['current_coin_progress']: [{}] or the dict [start_coin_collection]
    builds; a key that is missing reads as [None]. *)
Record coin_progress : Type := {
  cp_start_time : option Z;
  cp_completed_intervals : option (list string);
  cp_failed_intervals : option (list string);
  current_interval : option string
}.

Definition empty_coin_progress : coin_progress :=
  {| cp_start_time := None; cp_completed_intervals := None;
     cp_failed_intervals := None; current_interval := None |}.

(** The checkpoint document. *)
Record progress : Type := {
  start_time : Z;
  total_coins : Z;
  total_intervals : Z;
  completed_coins : list string;
  current_coin : option string;
  current_coin_progress : coin_progress;
  completed_intervals : dict;
  failed_coins : list string;
  failed_intervals : dict;
  last_successful_time : option Z;
  total_completed : Z;
  total_failed : Z
}.

(** [_create_default_progress], [now] being [datetime.now()]. *)
Definition _create_default_progress (now : Z) : progress :=
  {| start_time := now;
     total_coins := 50;
     total_intervals := 16;
     completed_coins := [];
     current_coin := None;
     current_coin_progress := empty_coin_progress;
     completed_intervals := [];
     failed_coins := [];
     failed_intervals := [];
     last_successful_time := None;
     total_completed := 0;
     total_failed := 0 |}.

(** What is at the path of the checkpoint: nothing, a JSON document, or
    bytes [json.load] rejects. *)
Inductive checkpoint_file : Type :=
| Document (p : progress)
| Unreadable.

Definition file_system : Type := option checkpoint_file.

(** [save_progress]: a failed write is logged and swallowed. *)
Definition save_progress (writable : bool) (p : progress) (fs : file_system)
  : file_system :=
  if writable then Some (Document p) else fs.

(** [load_progress]: the document in memory and the file afterwards. *)
Definition load_progress (writable : bool) (now : Z) (fs : file_system)
  : progress * file_system :=
  match fs with
  | Some (Document p) => (p, fs)
  | Some Unreadable => (_create_default_progress now, fs)
  | None =>
      let progress := _create_default_progress now in
      (progress, save_progress writable progress fs)
  end.

(** Python's truth value of an optional string. *)
Definition truthy (x : option string) : bool :=
  match x with
  | Some s => negb (String.eqb s "")
  | None => false
  end.

(** [x in xs], for a list or for the set built from it. *)
Definition mem (x : string) (xs : list string) : bool :=
  existsb (String.eqb x) xs.

Definition pending (completed failed : list string) (all : list string)
  : list string :=
  filter (fun u => negb (mem u completed) && negb (mem u failed))%bool all.

(** [get_remaining_coins]. *)
Definition get_remaining_coins (p : progress) (all_coins : list string)
  : list string :=
  let remaining := pending (completed_coins p) (failed_coins p) all_coins in
  match current_coin p with
  | Some c =>
      if (truthy (current_coin p) && negb (mem c remaining))%bool
      then c :: remaining else remaining
  | None => remaining
  end.

Definition get_or_empty (d : dict) (key : string) : list string :=
  match dict_get d key with
  | Some v => v
  | None => []
  end.

(** [get_remaining_intervals]. *)
Definition get_remaining_intervals (p : progress) (symbol : string)
    (all_intervals : list string) : list string :=
  let completed := get_or_empty (completed_intervals p) symbol in
  let failed := get_or_empty (failed_intervals p) symbol in
  let remaining := pending completed failed all_intervals in
  match current_interval (current_coin_progress p) with
  | Some i =>
      if (truthy (current_interval (current_coin_progress p))
          && negb (mem i remaining))%bool
      then i :: remaining else remaining
  | None => remaining
  end.

(** [a / b * 100] on Python numbers, for counts that fit a double. *)
Definition percent (a b : Z) : float :=
  (PrimFloat.of_uint63 (Uint63.of_Z a) / PrimFloat.of_uint63 (Uint63.of_Z b)
   * 100)%float.

Record summary : Type := {
  coin_progress_pct : float;
  interval_progress_pct : float;
  s_completed_coins : Z;
  s_failed_coins : Z;
  total_completed_intervals : Z;
  total_failed_intervals : Z;
  s_current_coin : option string;
  s_current_interval : option string;
  s_start_time : Z;
  s_last_successful_time : option Z
}.

Definition total_len (d : dict) : Z :=
  fold_right (fun kv acc => Z.of_nat (List.length (snd kv)) + acc) 0 d.

(** [get_progress_summary]. *)
Definition get_progress_summary (p : progress) : summary :=
  let completed := Z.of_nat (List.length (completed_coins p)) in
  let failed := Z.of_nat (List.length (failed_coins p)) in
  let done := total_len (completed_intervals p) in
  {| coin_progress_pct :=
       if 0 <? total_coins p then percent completed (total_coins p) else 0%float;
     interval_progress_pct :=
       if 0 <? total_coins p * total_intervals p
       then percent done (total_coins p * total_intervals p) else 0%float;
     s_completed_coins := completed;
     s_failed_coins := failed;
     total_completed_intervals := done;
     total_failed_intervals := total_len (failed_intervals p);
     s_current_coin := current_coin p;
     s_current_interval := current_interval (current_coin_progress p);
     s_start_time := start_time p;
     s_last_successful_time := last_successful_time p |}.

(** The tracker object: its document in memory and the file behind it. *)
Record tracker : Type := {
  in_memory : progress;
  on_disk : file_system
}.

(** [ProgressTracker()]: the constructor loads the progress. *)
Definition new_tracker (writable : bool) (now : Z) (fs : file_system) : tracker :=
  let (p, fs') := load_progress writable now fs in
  {| in_memory := p; on_disk := fs' |}.

(** [print_progress_summary]: what is printed, and the tracker after. *)
Definition print_progress_summary (t : tracker) : summary * tracker :=
  (get_progress_summary (in_memory t), t).

(** The [--status] branch of [main]: build the collector, whose constructor
    builds the tracker, and print the summary. The result is the checkpoint
    file afterwards and what was printed. *)
Definition status_operation (writable : bool) (now : Z) (fs : file_system)
  : file_system * summary :=
  let t := new_tracker writable now fs in
  let (s, t') := print_progress_summary t in
  (on_disk t', s).

(** ** The transitions of a coin. Each ends with [save_progress()]. *)

Definition saved (writable : bool) (t : tracker) (p : progress) : tracker :=
  {| in_memory := p; on_disk := save_progress writable p (on_disk t) |}.

(** [xs.append(x)] unless [x in xs]. *)
Definition add_once (x : string) (xs : list string) : list string :=
  if mem x xs then xs else (xs ++ [x])%list.

(** [xs.remove(x)] if [x in xs]: the first occurrence goes. *)
Fixpoint remove_first (x : string) (xs : list string) : list string :=
  match xs with
  | [] => []
  | y :: xs' => if String.eqb y x then xs' else y :: remove_first x xs'
  end.

(** [start_coin_collection]. *)
Definition start_coin_collection (writable : bool) (now : Z) (symbol : string)
    (t : tracker) : tracker :=
  let p := in_memory t in
  saved writable t
    {| start_time := start_time p;
       total_coins := total_coins p;
       total_intervals := total_intervals p;
       completed_coins := completed_coins p;
       current_coin := Some symbol;
       current_coin_progress :=
         {| cp_start_time := Some now;
            cp_completed_intervals := Some [];
            cp_failed_intervals := Some [];
            current_interval := None |};
       completed_intervals := completed_intervals p;
       failed_coins := failed_coins p;
       failed_intervals := failed_intervals p;
       last_successful_time := last_successful_time p;
       total_completed := total_completed p;
       total_failed := total_failed p |}.

(** [complete_coin_collection]. *)
Definition complete_coin_collection (writable : bool) (now : Z) (symbol : string)
    (t : tracker) : tracker :=
  let p := in_memory t in
  saved writable t
    {| start_time := start_time p;
       total_coins := total_coins p;
       total_intervals := total_intervals p;
       completed_coins := add_once symbol (completed_coins p);
       current_coin := None;
       current_coin_progress := empty_coin_progress;
       completed_intervals := completed_intervals p;
       failed_coins := remove_first symbol (failed_coins p);
       failed_intervals := failed_intervals p;
       last_successful_time := Some now;
       total_completed := total_completed p + 1;
       total_failed := total_failed p |}.

(** [fail_coin_collection]. *)
Definition fail_coin_collection (writable : bool) (symbol : string)
    (t : tracker) : tracker :=
  let p := in_memory t in
  saved writable t
    {| start_time := start_time p;
       total_coins := total_coins p;
       total_intervals := total_intervals p;
       completed_coins := completed_coins p;
       current_coin := None;
       current_coin_progress := empty_coin_progress;
       completed_intervals := completed_intervals p;
       failed_coins := add_once symbol (failed_coins p);
       failed_intervals := failed_intervals p;
       last_successful_time := last_successful_time p;
       total_completed := total_completed p;
       total_failed := total_failed p + 1 |}.

(** [reset_progress]. *)
Definition reset_progress (writable : bool) (now : Z) (t : tracker) : tracker :=
  saved writable t (_create_default_progress now).

(** ** [HistoricalDataCollector.collect_all_coins_all_data], seen from the
       tracker *)

Section Run.

(** [collect_all_data_for_symbol_with_progress(symbol, days)]: the tracker
    it leaves, and whether the dict it returns is non-empty ([None]: it
    raises). *)
Variable collect_symbol : string -> tracker -> tracker * option bool.
Variable writable : bool.
(** The readings of the clock during the run, taken as one. *)
Variable now : Z.

(** The [for symbol in remaining_coins] loop: the tracker afterwards and the
    symbols [start_coin_collection] was called with, in order. *)
Fixpoint collect_coins (remaining_coins : list string) (t : tracker)
  : tracker * list string :=
  match remaining_coins with
  | [] => (t, [])
  | symbol :: rest =>
      let t1 := start_coin_collection writable now symbol t in
      let (t2, symbol_data) := collect_symbol symbol t1 in
      let t3 :=
        match symbol_data with
        | Some true => complete_coin_collection writable now symbol t2
        | _ => fail_coin_collection writable symbol t2
        end in
      let (t4, started) := collect_coins rest t3 in
      (t4, symbol :: started)
  end.

Definition collect_all_coins_all_data (coins : list string) (t : tracker)
  : tracker * list string :=
  let (_, t0) := print_progress_summary t in
  collect_coins (get_remaining_coins (in_memory t0) coins) t0.

End Run.

(** ** scripts/setup_progress.py *)

(** [d[key] = v]. *)
Fixpoint dict_set (d : dict) (key : string) (v : list string) : dict :=
  match d with
  | [] => [(key, v)]
  | (k, w) :: d' =>
      if String.eqb k key then (k, v) :: d' else (k, w) :: dict_set d' key v
  end.

Definition setup_completed : list string :=
  [ "ETHUSDT"; "BTCUSDT"; "SUIUSDT"; "SOLUSDT"; "XRPUSDT";
    "DOGEUSDT"; "HBARUSDT"; "PEPEUSDT"; "ADAUSDT"; "CRVUSDT";
    "TRXUSDT"; "BONKUSDT"; "AVAXUSDT"; "UNIUSDT"; "OMUSDT";
    "LINKUSDT"; "CFXUSDT"; "ERAUSDT"; "ENAUSDT"; "PENGUUSDT" ].

Definition setup_intervals : list string :=
  [ "1m"; "3m"; "5m"; "15m"; "30m";
    "1h"; "2h"; "4h"; "6h"; "8h"; "12h";
    "1d"; "3d"; "1w"; "1M" ].

(** [setup_completed_progress] on a checkpoint document that is there: the
    twenty coins become completed, with all their intervals; nothing else of
    the document is touched. *)
Definition setup_completed_progress (p : progress) : progress :=
  fold_left
    (fun p coin =>
       {| start_time := start_time p;
          total_coins := total_coins p;
          total_intervals := total_intervals p;
          completed_coins := add_once coin (completed_coins p);
          current_coin := current_coin p;
          current_coin_progress := current_coin_progress p;
          completed_intervals :=
            dict_set (completed_intervals p) coin setup_intervals;
          failed_coins := failed_coins p;
          failed_intervals := failed_intervals p;
          last_successful_time := last_successful_time p;
          total_completed := total_completed p;
          total_failed := total_failed p |})
    setup_completed p.

(** ** The transitions of an interval *)

(** [if symbol not in d: d[symbol] = []]. *)
Definition with_key (d : dict) (symbol : string) : dict :=
  match dict_get d symbol with
  | Some _ => d
  | None => dict_set d symbol []
  end.

(** The document with its two dicts of intervals and the progress of the
    coin in flight replaced. *)
Definition with_intervals (p : progress) (completed failed : dict)
    (cp : coin_progress) : progress :=
  {| start_time := start_time p;
     total_coins := total_coins p;
     total_intervals := total_intervals p;
     completed_coins := completed_coins p;
     current_coin := current_coin p;
     current_coin_progress := cp;
     completed_intervals := completed;
     failed_coins := failed_coins p;
     failed_intervals := failed;
     last_successful_time := last_successful_time p;
     total_completed := total_completed p;
     total_failed := total_failed p |}.

(** [start_interval_collection]: the assignment to
    [current_coin_progress['current_interval']] adds the key where it is
    missing. *)
Definition start_interval_collection (writable : bool) (symbol interval : string)
    (t : tracker) : tracker :=
  let p := in_memory t in
  let cp := current_coin_progress p in
  saved writable t
    (with_intervals p (with_key (completed_intervals p) symbol) (failed_intervals p)
       {| cp_start_time := cp_start_time cp;
          cp_completed_intervals := cp_completed_intervals cp;
          cp_failed_intervals := cp_failed_intervals cp;
          current_interval := Some interval |}).

(** [complete_interval_collection]: the tracker afterwards and whether the
    call raises. [current_coin_progress['completed_intervals']] raises
    [KeyError] where the key is missing; by then the two dicts have been
    changed in memory, and nothing has been saved. *)
Definition complete_interval_collection (writable : bool)
    (symbol interval : string) (t : tracker) : tracker * bool :=
  let p := in_memory t in
  let cp := current_coin_progress p in
  let completed := with_key (completed_intervals p) symbol in
  let completed :=
    dict_set completed symbol (add_once interval (get_or_empty completed symbol)) in
  let failed :=
    match dict_get (failed_intervals p) symbol with
    | Some l =>
        if mem interval l
        then dict_set (failed_intervals p) symbol (remove_first interval l)
        else failed_intervals p
    | None => failed_intervals p
    end in
  match cp_completed_intervals cp with
  | None =>
      ({| in_memory := with_intervals p completed failed cp;
          on_disk := on_disk t |}, true)
  | Some l =>
      (saved writable t
         (with_intervals p completed failed
            {| cp_start_time := cp_start_time cp;
               cp_completed_intervals := Some (l ++ [interval])%list;
               cp_failed_intervals := cp_failed_intervals cp;
               current_interval := None |}), false)
  end.

(** [fail_interval_collection], likewise. *)
Definition fail_interval_collection (writable : bool)
    (symbol interval : string) (t : tracker) : tracker * bool :=
  let p := in_memory t in
  let cp := current_coin_progress p in
  let failed := with_key (failed_intervals p) symbol in
  let failed :=
    dict_set failed symbol (add_once interval (get_or_empty failed symbol)) in
  match cp_failed_intervals cp with
  | None =>
      ({| in_memory := with_intervals p (completed_intervals p) failed cp;
          on_disk := on_disk t |}, true)
  | Some l =>
      (saved writable t
         (with_intervals p (completed_intervals p) failed
            {| cp_start_time := cp_start_time cp;
               cp_completed_intervals := cp_completed_intervals cp;
               cp_failed_intervals := Some (l ++ [interval])%list;
               current_interval := None |}), false)
  end.

(** Whether the progress of the coin in flight has its two lists, as
    [start_coin_collection] leaves it. *)
Definition keyed (p : progress) : bool :=
  match cp_completed_intervals (current_coin_progress p),
        cp_failed_intervals (current_coin_progress p) with
  | Some _, Some _ => true
  | _, _ => false
  end.

(** Whether a unit is recorded as completed or as failed. *)
Definition settled (completed failed : list string) (u : string) : bool :=
  mem u completed || mem u failed.

Definition interval_settled (p : progress) (symbol interval : string) : bool :=
  settled (get_or_empty (completed_intervals p) symbol)
    (get_or_empty (failed_intervals p) symbol) interval.

Definition coin_settled (p : progress) (symbol : string) : bool :=
  settled (completed_coins p) (failed_coins p) symbol.

End ProgressTracker.

(* ================================================================== *)
(** * scripts/collect_historical_data.py: the resumable run *)
(* ================================================================== *)

Module Resume.

Import ProgressTracker.

Local Open Scope string_scope.
Local Open Scope Z_scope.

(** What the fetch and the store of one unit come to in
    [collect_all_data_for_symbol_with_progress]: [get_historical_data]
    returns a frame with rows and the store goes through, or the store
    raises, or the frame is empty. *)
Inductive unit_outcome : Type :=
| Stored
| StoreRaised
| NoData.


Section Driver.

(** The outcome of each unit in this run; a run attempts a unit once. *)
Variable fetch_and_store : string -> string -> unit_outcome.
Variable writable : bool.

(** The [except] clause of the loop over the intervals: it calls
    [fail_interval_collection] and goes on; an exception raised there
    leaves the loop and the method. *)
Definition handled (symbol interval : string) (t : tracker)
  : tracker * bool :=
  fail_interval_collection writable symbol interval t.

(** The [for interval in remaining_intervals] loop. [all_data] holds the keys
    of the dict of that name; the result is the tracker afterwards and the
    keys ([None]: an exception left the loop). *)
Fixpoint intervals_loop (symbol : string) (remaining_intervals : list string)
    (t : tracker) (all_data : list string) : tracker * option (list string) :=
  match remaining_intervals with
  | [] => (t, Some all_data)
  | interval :: rest =>
      let t1 := start_interval_collection writable symbol interval t in
      match fetch_and_store symbol interval with
      | Stored =>
          let all_data := add_once interval all_data in
          match complete_interval_collection writable symbol interval t1 with
          | (t2, false) => intervals_loop symbol rest t2 all_data
          | (t2, true) =>
              match handled symbol interval t2 with
              | (t3, false) => intervals_loop symbol rest t3 all_data
              | (t3, true) => (t3, None)
              end
          end
      | StoreRaised =>
          let all_data := add_once interval all_data in
          match handled symbol interval t1 with
          | (t2, false) => intervals_loop symbol rest t2 all_data
          | (t2, true) => (t2, None)
          end
      | NoData =>
          match fail_interval_collection writable symbol interval t1 with
          | (t2, false) => intervals_loop symbol rest t2 all_data
          | (t2, true) =>
              match handled symbol interval t2 with
              | (t3, false) => intervals_loop symbol rest t3 all_data
              | (t3, true) => (t3, None)
              end
          end
      end
  end.

(** [collect_all_data_for_symbol_with_progress]: the tracker it leaves and
    whether the dict it returns is non-empty ([None]: it raises). *)
Definition collect_all_data_for_symbol_with_progress (symbol : string)
    (t : tracker) : tracker * option bool :=
  let remaining_intervals :=
    get_remaining_intervals (in_memory t) symbol Collector.intervals in
  match intervals_loop symbol remaining_intervals t [] with
  | (t', Some all_data) =>
      (t', Some (match all_data with [] => false | _ :: _ => true end))
  | (t', None) => (t', None)
  end.

(** [collect_all_coins_all_data] with that method in its place. *)
Definition resumable_run (now : Z) (coins : list string) (t : tracker)
  : tracker * list string :=
  collect_all_coins_all_data collect_all_data_for_symbol_with_progress
    writable now coins t.

End Driver.

End Resume.

(* ================================================================== *)
(** * scripts/collect_historical_data.py: the functions of the module *)
(* ================================================================== *)

Module Script.

Import Database Collector.

Local Open Scope string_scope.
Local Open Scope Z_scope.

(** How a function of the module ends: it returns a frame, it re-raises an
    exception, or the fuel of the model runs out before either. *)
Inductive outcome : Type :=
| Frame (df : list candle)
| Exception (e : Sqlite.error)
| NoReturn.

(** [collect_historical_data_for_single_coin_single_interval], the function
    behind [--symbol S --interval I] and behind a call without options.
    [Database()] goes over the schema, and the constructor of the collector
    builds a [ProgressTracker], which writes the checkpoint file where there
    is none. [now] and [now_again] are the two readings of the clock that
    give [end_time] and [start_time], [clock] is the one of the store and
    [tracker_now] the one of the tracker. The rows of the frame are handed
    to the store with the milliseconds of their timestamps. *)
Definition collect_historical_data_for_single_coin_single_interval
    (api : api_oracle) (fuel : nat) (now now_again clock : Z)
    (writable : bool) (tracker_now : Z)
    (db : Sqlite.database) (fs : ProgressTracker.file_system)
    (symbol interval : string) (days : Z)
  : Sqlite.database * ProgressTracker.file_system * outcome * list event :=
  let db := init_database db in
  let fs :=
    ProgressTracker.on_disk (ProgressTracker.new_tracker writable tracker_now fs) in
  let end_time := now in
  let start_time := now_again - days_ms days in
  match get_historical_data_batch api fuel symbol interval start_time end_time with
  | (None, tr) => (db, fs, NoReturn, tr)
  | (Some [], tr) => (db, fs, Frame [], tr)
  | (Some df, tr) =>
      match save_price_data_to_coin_table clock db symbol interval df with
      | (db', None) => (db', fs, Frame df, tr)
      | (db', Some e) => (db', fs, Exception e, tr)
      end
  end.

(** [HistoricalDataCollector.collect_single_coin_single_interval]: the
    sequential fetch and the store, on the database the collector was built
    with; nothing catches an exception of the store. *)
Definition collect_single_coin_single_interval
    (api : api_oracle) (fuel : nat) (now now_again clock : Z)
    (db : Sqlite.database) (symbol interval : string) (days : Z)
  : Sqlite.database * outcome * list event :=
  let end_time := now in
  let start_time := now_again - days_ms days in
  match get_historical_data api fuel symbol interval start_time end_time with
  | (None, tr) => (db, NoReturn, tr)
  | (Some [], tr) => (db, Frame [], tr)
  | (Some df, tr) =>
      match save_price_data_to_coin_table clock db symbol interval df with
      | (db', None) => (db', Frame df, tr)
      | (db', Some e) => (db', Exception e, tr)
      end
  end.

End Script.

(* ================================================================== *)
(** * Scenarios: concrete stores, batches and answers *)
(* ================================================================== *)

Module Scenario.

Import Sqlite Database.

Local Open Scope string_scope.
Local Open Scope Z_scope.

(** A database with the one table of BTCUSDT at one minute. *)
Definition btc_1m : database :=
  create_table_if_not_exists "BTCUSDT_1m" empty_database.

(** A candle at one price. *)
Definition flat (ts : Z) (price : float) : candle :=
  {| timestamp := ts; open := price; high := price; low := price;
     close := price; volume := 1%float |}.

(** The database as [Database()] leaves a new file. *)
Definition fresh : database := init_database empty_database.

(** ** Answers of the remote API *)

Import Collector.

(** The [n]-th call gets the [n]-th answer of a script, then empty ones. *)
Definition scripted (answers : list response) : api_oracle :=
  fun n _ => nth n answers (Ok200 []).

Definition quiet : api_oracle := scripted [].

Definition always_down : api_oracle := fun _ _ => NetworkError.

(** A one-minute kline that opens at [t]. *)
Definition minute (t : Z) : kline :=
  {| open_time := t; k_open := 7%float; k_high := 7%float; k_low := 7%float;
     k_close := 7%float; k_volume := 1%float; close_time := t + 59999 |}.

(** Two one-minute candles for the first call, nothing after. *)
Definition two_minutes : api_oracle :=
  scripted [Ok200 [minute 0; minute 60000]].

(** A failure for the first call, one candle for the second. *)
Definition down_once : api_oracle :=
  scripted [NetworkError; Ok200 [minute 60000000]].

(** BTCUSDT at one hour, last collected two minutes before [gap_now]. *)
Definition gap_now : Z := 1700000000000.

Definition btc_1h : database :=
  fst (save_price_data_to_coin_table 1
         (create_table_if_not_exists "BTCUSDT_1h" empty_database)
         "BTCUSDT" "1h" [flat (gap_now - 120001) 7%float]).

(** One candle per call, opening where the request starts. *)
Definition one_per_call : api_oracle :=
  fun _ req => Ok200 [minute (startTime req)].

(** ** Checkpoints *)

Import ProgressTracker.

(** A run was interrupted while ETHUSDT was in flight; then
    [setup_progress.py] marked its twenty coins as completed. *)
Definition interrupted_then_set_up : progress :=
  setup_completed_progress
    (in_memory
       (start_coin_collection true 2 "ETHUSDT" (new_tracker true 1 None))).

End Scenario.

(* ================================================================== *)
(** * Facts about the SQLite model *)
(* ================================================================== *)

Module SqliteFacts.

Import Sqlite.

Lemma name_eqb_refl (a : string) : name_eqb a a = true.
Proof. unfold name_eqb. apply String.eqb_refl. Qed.

Lemma name_eqb_sym (a b : string) : name_eqb a b = name_eqb b a.
Proof. unfold name_eqb. apply String.eqb_sym. Qed.

Lemma name_eqb_trans (a b c : string) :
  name_eqb a b = true -> name_eqb b c = true -> name_eqb a c = true.
Proof.
  unfold name_eqb. rewrite !String.eqb_eq. congruence.
Qed.

(** Two names that match address the same table. *)
Lemma name_eqb_left (a b c : string) :
  name_eqb a b = true -> name_eqb c a = name_eqb c b.
Proof.
  unfold name_eqb. rewrite String.eqb_eq. intros ->. reflexivity.
Qed.

Lemma lower_length (s : string) : String.length (lower s) = String.length s.
Proof. induction s as [|c s IH]; simpl; congruence. Qed.

Lemma name_eqb_length (a b : string) :
  name_eqb a b = true -> String.length a = String.length b.
Proof.
  unfold name_eqb. rewrite String.eqb_eq. intros H.
  rewrite <- (lower_length a), <- (lower_length b). congruence.
Qed.

Lemma find_table_name (name : string) (ts : list price_table) (t : price_table) :
  find_table name ts = Some t -> name_eqb (table_name t) name = true.
Proof.
  induction ts as [|u ts IH]; simpl; [discriminate|].
  destruct (name_eqb (table_name u) name) eqn:E; [|exact IH].
  intros [= <-]. exact E.
Qed.

Lemma find_table_eqv (n1 n2 : string) (ts : list price_table) :
  name_eqb n1 n2 = true -> find_table n2 ts = find_table n1 ts.
Proof.
  intros H. induction ts as [|u ts IH]; simpl; [reflexivity|].
  rewrite (name_eqb_left n1 n2 (table_name u) H), IH. reflexivity.
Qed.

Lemma find_table_replace_same (name : string) (t t' : price_table)
    (ts : list price_table) :
  find_table name ts = Some t ->
  name_eqb (table_name t') name = true ->
  find_table name (replace_table name t' ts) = Some t'.
Proof.
  intros Hf Hn. induction ts as [|u ts IH]; simpl in *; [discriminate|].
  destruct (name_eqb (table_name u) name) eqn:E; simpl.
  - rewrite Hn. reflexivity.
  - rewrite E. apply IH, Hf.
Qed.

Lemma find_table_replace_other (n1 n2 : string) (t' : price_table)
    (ts : list price_table) :
  name_eqb n1 n2 = false ->
  name_eqb (table_name t') n1 = true ->
  find_table n2 (replace_table n1 t' ts) = find_table n2 ts.
Proof.
  intros Hne Hn. induction ts as [|u ts IH]; simpl; [reflexivity|].
  destruct (name_eqb (table_name u) n1) eqn:E; simpl.
  - assert (H1 : name_eqb (table_name t') n2 = false).
    { destruct (name_eqb (table_name t') n2) eqn:E2; [|reflexivity].
      rewrite <- Hne. symmetry. rewrite name_eqb_sym in Hn.
      apply (name_eqb_trans _ _ _ Hn E2). }
    assert (H2 : name_eqb (table_name u) n2 = false).
    { destruct (name_eqb (table_name u) n2) eqn:E2; [|reflexivity].
      rewrite <- Hne. symmetry. rewrite name_eqb_sym in E.
      apply (name_eqb_trans _ _ _ E E2). }
    rewrite H1, H2. reflexivity.
  - rewrite IH. reflexivity.
Qed.

Lemma replace_table_twice (name : string) (t1 t2 : price_table)
    (ts : list price_table) :
  name_eqb (table_name t1) name = true ->
  replace_table name t2 (replace_table name t1 ts) = replace_table name t2 ts.
Proof.
  intros Hn. induction ts as [|u ts IH]; simpl; [reflexivity|].
  destruct (name_eqb (table_name u) name) eqn:E; simpl.
  - rewrite Hn. reflexivity.
  - rewrite E, IH. reflexivity.
Qed.

Lemma replace_table_found (name : string) (t : price_table)
    (ts : list price_table) :
  find_table name ts = Some t -> replace_table name t ts = ts.
Proof.
  induction ts as [|u ts IH]; simpl; [reflexivity|].
  destruct (name_eqb (table_name u) name) eqn:E.
  - intros [= ->]. reflexivity.
  - intros H. rewrite (IH H). reflexivity.
Qed.

Lemma bind_real_some (x y : float) : bind_real x = Some y -> y = x.
Proof. unfold bind_real. destruct (PrimFloat.is_nan x); congruence. Qed.

End SqliteFacts.

(* ================================================================== *)
(** * The store: idempotence, the status row, the transaction *)
(* ================================================================== *)

Module DatabaseFacts.

Import Sqlite Database SqliteFacts Scenario.

Local Open Scope string_scope.

Local Open Scope Z_scope.

(** ** Upserts on lists of candles *)

Lemma filter_app_nil {A} (p : A -> bool) (l : list A) :
  (forall x, In x l -> p x = false) -> filter p l = [].
Proof.
  induction l as [|x l IH]; simpl; intros H; [reflexivity|].
  rewrite (H x (or_introl eq_refl)). apply IH. intros y Hy.
  apply H. right. exact Hy.
Qed.

Lemma filter_filter {A} (p q : A -> bool) (l : list A) :
  filter p (filter q l) = filter (fun x => q x && p x)%bool l.
Proof.
  induction l as [|x l IH]; simpl; [reflexivity|].
  destruct (q x); simpl; [destruct (p x)|]; rewrite IH; reflexivity.
Qed.

Lemma upserts_split (data l : list candle) :
  upserts data l = (filter (outside data) l ++ upserts data [])%list.
Proof.
  revert l. induction data as [|c data IH]; intros l.
  - simpl. rewrite app_nil_r. clear. induction l as [|x l IH]; simpl; congruence.
  - unfold upserts in *. simpl. rewrite IH. rewrite (IH (upsert c [])).
    unfold upsert at 1. rewrite filter_app, filter_filter.
    unfold upsert. simpl. rewrite <- app_assoc. f_equal.
    apply filter_ext. intros d. unfold outside. simpl.
    rewrite negb_orb, (Z.eqb_sym (timestamp c)). reflexivity.
Qed.

Lemma upserts_in (data l : list candle) (d : candle) :
  In d (upserts data l) -> In d l \/ has_timestamp (timestamp d) data = true.
Proof.
  revert l. induction data as [|c data IH]; intros l; simpl.
  - intros H. left. exact H.
  - intros H. apply IH in H. destruct H as [H|H].
    + unfold upsert in H. apply in_app_or in H. destruct H as [H|[<-|[]]].
      * apply filter_In in H. left. apply H.
      * right. rewrite Z.eqb_refl. reflexivity.
    + right. rewrite H. apply orb_true_r.
Qed.

Lemma upserts_outside (data : list candle) :
  filter (outside data) (upserts data []) = [].
Proof.
  apply filter_app_nil. intros d Hd. apply upserts_in in Hd.
  destruct Hd as [[]|Hd]. unfold outside. rewrite Hd. reflexivity.
Qed.

Lemma upserts_idempotent (data l : list candle) :
  upserts data (upserts data l) = upserts data l.
Proof.
  rewrite (upserts_split data (upserts data l)).
  rewrite (upserts_split data l) at 1.
  rewrite filter_app, upserts_outside, app_nil_r, filter_filter.
  rewrite (upserts_split data l). f_equal.
  apply filter_ext. intros d. destruct (outside data d); reflexivity.
Qed.

Lemma count_at_app (ts : Z) (l1 l2 : list candle) :
  count_at ts (l1 ++ l2) = (count_at ts l1 + count_at ts l2)%nat.
Proof. unfold count_at. rewrite filter_app, length_app. reflexivity. Qed.

Lemma count_at_upsert (ts : Z) (c : candle) (l : list candle) :
  count_at ts (upsert c l) =
  if timestamp c =? ts then 1%nat else count_at ts l.
Proof.
  unfold upsert. rewrite count_at_app. unfold count_at at 2. simpl.
  destruct (timestamp c =? ts) eqn:E; simpl.
  - apply Z.eqb_eq in E. subst ts.
    unfold count_at. rewrite filter_filter, filter_app_nil; [reflexivity|].
    intros d _. destruct (timestamp d =? timestamp c); reflexivity.
  - rewrite Nat.add_0_r. unfold count_at. rewrite filter_filter. f_equal.
    apply filter_ext. intros d.
    destruct (timestamp d =? ts) eqn:E1; [|apply andb_false_r].
    apply Z.eqb_eq in E1. rewrite E1, Z.eqb_sym, E. reflexivity.
Qed.

Lemma count_at_upserts (ts : Z) (data l : list candle) :
  count_at ts (upserts data l) =
  if has_timestamp ts data then 1%nat else count_at ts l.
Proof.
  revert l. induction data as [|c data IH]; intros l; [reflexivity|].
  unfold upserts in *. simpl. rewrite IH, count_at_upsert.
  unfold has_timestamp.
  destruct (timestamp c =? ts); simpl;
    destruct (existsb (fun c0 => timestamp c0 =? ts) data); reflexivity.
Qed.

Lemma has_timestamp_in (c : candle) (data : list candle) :
  In c data -> has_timestamp (timestamp c) data = true.
Proof.
  intros H. unfold has_timestamp. apply existsb_exists. exists c.
  split; [exact H|apply Z.eqb_refl].
Qed.

(** ** One table *)

Lemma insert_or_replace_row_candles clock t ts o h l c v t' :
  insert_or_replace_row clock t ts o h l c v = inr t' ->
  table_name t' = table_name t /\
  candles_of t' =
    upsert {| timestamp := ts; open := o; high := h; low := l;
              close := c; volume := v |} (candles_of t).
Proof.
  unfold insert_or_replace_row.
  destruct (bind_real o) as [o'|] eqn:Eo; [|destruct (bind_real h), (bind_real l),
      (bind_real c), (bind_real v); discriminate].
  destruct (bind_real h) as [h'|] eqn:Eh; [|destruct (bind_real l),
      (bind_real c), (bind_real v); discriminate].
  destruct (bind_real l) as [l'|] eqn:El; [|destruct (bind_real c), (bind_real v);
      discriminate].
  destruct (bind_real c) as [c'|] eqn:Ec; [|destruct (bind_real v); discriminate].
  destruct (bind_real v) as [v'|] eqn:Ev; [|discriminate].
  intros [= <-]. split; [reflexivity|].
  apply bind_real_some in Eo, Eh, El, Ec, Ev. subst.
  unfold candles_of, upsert. simpl. rewrite map_app. simpl. f_equal.
  generalize (rows t) as rs. induction rs as [|r rs IH]; simpl; [reflexivity|].
  destruct (Sqlite.timestamp r =? ts); simpl; rewrite IH; reflexivity.
Qed.

(** Whether a statement aborts, and on which column, depends on the bound
    values alone. *)
Lemma insert_or_replace_row_error clock1 clock2 t1 t2 ts o h l c v :
  match insert_or_replace_row clock1 t1 ts o h l c v,
        insert_or_replace_row clock2 t2 ts o h l c v with
  | inl e1, inl e2 => e1 = e2
  | inr _, inr _ => True
  | _, _ => False
  end.
Proof.
  unfold insert_or_replace_row.
  destruct (bind_real o), (bind_real h), (bind_real l), (bind_real c),
    (bind_real v); try reflexivity; exact I.
Qed.

Lemma store_table_error clock1 clock2 t1 t2 data :
  match store_table clock1 t1 data, store_table clock2 t2 data with
  | inl e1, inl e2 => e1 = e2
  | inr _, inr _ => True
  | _, _ => False
  end.
Proof.
  revert t1 t2. induction data as [|item data IH]; intros t1 t2; simpl; [exact I|].
  pose proof (insert_or_replace_row_error clock1 clock2 t1 t2 (timestamp item)
                (open item) (high item) (low item) (close item) (volume item)) as H.
  destruct (insert_or_replace_row clock1 t1 _ _ _ _ _ _) as [e1|t1'],
           (insert_or_replace_row clock2 t2 _ _ _ _ _ _) as [e2|t2'];
    try contradiction; [exact H|apply IH].
Qed.

Lemma store_table_candles clock t data t' :
  store_table clock t data = inr t' ->
  table_name t' = table_name t /\ candles_of t' = upserts data (candles_of t).
Proof.
  revert t. induction data as [|item data IH]; intros t; simpl.
  - intros [= <-]. split; reflexivity.
  - destruct (insert_or_replace_row clock t _ _ _ _ _ _) as [e|t1] eqn:E;
      [discriminate|].
    intros H. apply IH in H. destruct H as [Hn Hc].
    apply insert_or_replace_row_candles in E. destruct E as [En Ec].
    split; [congruence|]. rewrite Hc, Ec. unfold upserts. simpl.
    destruct item; reflexivity.
Qed.

(** ** The loop of statements, on the database *)

Lemma insert_items_store clock name data db t :
  find_table name (coin_tables db) = Some t ->
  insert_items clock name data db =
  match store_table clock t data with
  | inl e => inl e
  | inr t' => inr (with_tables db (replace_table name t' (coin_tables db)))
  end.
Proof.
  revert db t. induction data as [|item data IH]; intros db t Hf; simpl.
  - rewrite (replace_table_found _ _ _ Hf). destruct db; reflexivity.
  - unfold insert_or_replace. rewrite Hf.
    destruct (insert_or_replace_row clock t _ _ _ _ _ _) as [e|t1] eqn:E;
      [reflexivity|].
    assert (Hn : name_eqb (table_name t1) name = true).
    { unfold insert_or_replace_row in E.
      destruct (bind_real (open item)), (bind_real (high item)),
        (bind_real (low item)), (bind_real (close item)),
        (bind_real (volume item)); try discriminate.
      injection E as <-. simpl. apply (find_table_name _ _ _ Hf). }
    rewrite (IH _ t1); simpl.
    + destruct (store_table clock t1 data) as [e|t']; [reflexivity|].
      unfold with_tables. simpl. rewrite replace_table_twice by exact Hn.
      reflexivity.
    + apply (find_table_replace_same _ _ _ _ Hf Hn).
Qed.

Lemma insert_items_missing clock name item data db :
  find_table name (coin_tables db) = None ->
  insert_items clock name (item :: data) db = inl (NoSuchTable name).
Proof.
  intros Hf. simpl. unfold insert_or_replace. rewrite Hf. reflexivity.
Qed.

(** ** The four ways a call of the store can go *)

Lemma save_empty clock db symbol interval :
  save_price_data_to_coin_table clock db symbol interval [] = (db, None).
Proof. reflexivity. Qed.

Lemma save_no_table clock db symbol interval item data :
  find_table (coin_table_name symbol interval) (coin_tables db) = None ->
  save_price_data_to_coin_table clock db symbol interval (item :: data) =
  (db, Some (NoSuchTable (coin_table_name symbol interval))).
Proof.
  intros Hf. unfold save_price_data_to_coin_table, transaction, save_body.
  rewrite (insert_items_missing _ _ _ _ _ Hf). reflexivity.
Qed.

Lemma save_aborted clock db symbol interval item data t e :
  find_table (coin_table_name symbol interval) (coin_tables db) = Some t ->
  store_table clock t (item :: data) = inl e ->
  save_price_data_to_coin_table clock db symbol interval (item :: data) =
  (db, Some e).
Proof.
  intros Hf Hs. unfold save_price_data_to_coin_table, transaction, save_body.
  rewrite (insert_items_store _ _ _ _ _ Hf), Hs. reflexivity.
Qed.

Lemma save_committed clock db symbol interval item data t t' :
  find_table (coin_table_name symbol interval) (coin_tables db) = Some t ->
  store_table clock t (item :: data) = inr t' ->
  save_price_data_to_coin_table clock db symbol interval (item :: data) =
  (insert_or_replace_status clock symbol interval (last_timestamp item data)
     (with_tables db
        (replace_table (coin_table_name symbol interval) t' (coin_tables db))),
   None).
Proof.
  intros Hf Hs. unfold save_price_data_to_coin_table, transaction, save_body.
  rewrite (insert_items_store _ _ _ _ _ Hf), Hs. reflexivity.
Qed.

(** ** Views after a committed store *)

Lemma table_candles_row_count name db1 db2 :
  table_candles name db2 = table_candles name db1 ->
  row_count name db2 = row_count name db1.
Proof.
  unfold table_candles, row_count.
  destruct (find_table name (coin_tables db2)),
           (find_table name (coin_tables db1)); simpl; try discriminate;
    [|reflexivity].
  intros [= H]. f_equal.
  rewrite <- (length_map candle_of_row (rows p)), H. apply length_map.
Qed.

Lemma rows_at_count name ts db t :
  find_table name (coin_tables db) = Some t ->
  rows_at name ts db = count_at ts (candles_of t).
Proof.
  intros Hf. unfold rows_at, count_at, candles_of. rewrite Hf.
  generalize (rows t) as rs. induction rs as [|r rs IH]; simpl; [reflexivity|].
  destruct (Sqlite.timestamp r =? ts); simpl; rewrite IH; reflexivity.
Qed.

Lemma same_unit_self symbol interval i last clock :
  same_unit symbol interval
    {| status_id := i; Sqlite.symbol := symbol; Sqlite.interval := interval;
       last_collected_timestamp := last; last_updated := clock |} = true.
Proof. unfold same_unit. simpl. rewrite !String.eqb_refl. reflexivity. Qed.

Lemma status_view_replace clock1 clock2 symbol interval last db tables :
  status_view
    (insert_or_replace_status clock2 symbol interval last
       (with_tables
          (insert_or_replace_status clock1 symbol interval last db) tables)) =
  status_view (insert_or_replace_status clock1 symbol interval last db).
Proof.
  unfold status_view, insert_or_replace_status. simpl.
  rewrite filter_app, filter_filter. simpl.
  rewrite same_unit_self. simpl.
  rewrite app_nil_r, !map_app. simpl. do 2 f_equal.
  apply filter_ext. intros r. destruct (same_unit symbol interval r); reflexivity.
Qed.

(** The store keeps the table free of duplicates: if no timestamp is held by
    two rows before a call, none is after it. *)
Lemma save_keeps_unique clock db symbol interval data :
  (forall name ts, (rows_at name ts db <= 1)%nat) ->
  forall name ts,
    (rows_at name ts
       (fst (save_price_data_to_coin_table clock db symbol interval data)) <= 1)%nat.
Proof.
  intros Hu name ts. destruct data as [|item data]; [apply Hu|].
  destruct (find_table (coin_table_name symbol interval) (coin_tables db))
    as [t|] eqn:Hf.
  2:{ rewrite (save_no_table _ _ _ _ _ _ Hf). apply Hu. }
  destruct (store_table clock t (item :: data)) as [e|t'] eqn:Hs.
  { rewrite (save_aborted _ _ _ _ _ _ _ _ Hf Hs). apply Hu. }
  rewrite (save_committed _ _ _ _ _ _ _ _ Hf Hs). cbn [fst].
  destruct (store_table_candles _ _ _ _ Hs) as [Hn Hc].
  assert (Hname : name_eqb (table_name t') (coin_table_name symbol interval) = true).
  { rewrite Hn. apply (find_table_name _ _ _ Hf). }
  destruct (name_eqb (coin_table_name symbol interval) name) eqn:En.
  - rewrite (rows_at_count name ts _ t').
    + rewrite Hc, count_at_upserts.
      destruct (has_timestamp ts (item :: data)); [apply le_n|].
      rewrite <- (rows_at_count name ts db t); [apply Hu|].
      rewrite (find_table_eqv _ _ _ En). exact Hf.
    + cbn [coin_tables insert_or_replace_status with_tables].
      rewrite (find_table_eqv _ _ _ En).
      apply (find_table_replace_same _ _ _ _ Hf Hname).
  - unfold rows_at. cbn [coin_tables insert_or_replace_status with_tables].
    rewrite (find_table_replace_other _ _ _ _ En Hname). apply Hu.
Qed.

(** The second store, view by view. *)
Lemma store_twice_views
    (clock1 clock2 : Z) (db : database) (symbol interval : string)
    (data : list candle) :
  let once := save_price_data_to_coin_table clock1 db symbol interval data in
  let twice :=
    save_price_data_to_coin_table clock2 (fst once) symbol interval data in
  snd twice = snd once /\
  (forall name,
      table_candles name (fst twice) = table_candles name (fst once) /\
      row_count name (fst twice) = row_count name (fst once)) /\
  status_view (fst twice) = status_view (fst once) /\
  (snd once = None ->
   forall c, In c data ->
     rows_at (coin_table_name symbol interval) (timestamp c) (fst twice) = 1%nat).
Proof.
  set (name := coin_table_name symbol interval).
  destruct data as [|item data].
  { simpl. repeat split; try reflexivity. intros _ c []. }
  destruct (find_table name (coin_tables db)) as [t|] eqn:Hf.
  2:{ cbv zeta. rewrite (save_no_table clock1 _ _ _ _ _ Hf). simpl.
      rewrite (save_no_table clock2 _ _ _ _ _ Hf). simpl.
      repeat split; try reflexivity. discriminate. }
  pose proof (store_table_error clock1 clock2 t t (item :: data)) as Herr.
  destruct (store_table clock1 t (item :: data)) as [e|t1] eqn:Hs1.
  { destruct (store_table clock2 t (item :: data)) as [e2|?] eqn:Hs2;
      [|contradiction]. subst e2.
    cbv zeta. rewrite (save_aborted clock1 _ _ _ _ _ _ _ Hf Hs1). simpl.
    rewrite (save_aborted clock2 _ _ _ _ _ _ _ Hf Hs2). simpl.
    repeat split; try reflexivity. discriminate. }
  clear Herr.
  cbv zeta. rewrite (save_committed clock1 _ _ _ _ _ _ _ Hf Hs1).
  cbn [fst snd].
  set (db1 := insert_or_replace_status clock1 symbol interval _ _).
  destruct (store_table_candles _ _ _ _ Hs1) as [Hn1 Hc1].
  assert (Hname1 : name_eqb (table_name t1) name = true).
  { rewrite Hn1. apply (find_table_name _ _ _ Hf). }
  assert (Hf1 : find_table name (coin_tables db1) = Some t1).
  { apply (find_table_replace_same _ _ _ _ Hf Hname1). }
  pose proof (store_table_error clock1 clock2 t t1 (item :: data)) as Herr.
  rewrite Hs1 in Herr.
  destruct (store_table clock2 t1 (item :: data)) as [?|t2] eqn:Hs2;
    [contradiction|]. clear Herr.
  rewrite (save_committed clock2 _ _ _ _ _ _ _ Hf1 Hs2). cbn [fst snd].
  destruct (store_table_candles _ _ _ _ Hs2) as [Hn2 Hc2].
  assert (Hname2 : name_eqb (table_name t2) name = true).
  { rewrite Hn2. exact Hname1. }
  assert (Hcand : candles_of t2 = candles_of t1).
  { rewrite Hc2, Hc1. apply upserts_idempotent. }
  assert (Htabs : forall n,
    table_candles n
      (insert_or_replace_status clock2 symbol interval (last_timestamp item data)
         (with_tables db1 (replace_table name t2 (coin_tables db1)))) =
    table_candles n db1).
  { intros n. unfold table_candles. cbn [coin_tables insert_or_replace_status with_tables].
    destruct (name_eqb name n) eqn:En.
    - rewrite !(find_table_eqv name n _ En).
      rewrite (find_table_replace_same _ _ _ _ Hf1 Hname2).
      fold (coin_tables db1). rewrite Hf1. simpl.
      fold (candles_of t2). fold (candles_of t1). rewrite Hcand. reflexivity.
    - rewrite (find_table_replace_other _ _ _ _ En Hname2). reflexivity. }
  split; [reflexivity|]. split.
  { intros n. split; [apply Htabs|].
    apply table_candles_row_count, Htabs. }
  split.
  { unfold db1. apply status_view_replace. }
  intros _ c Hc.
  rewrite (rows_at_count name (timestamp c) _ t2).
  - rewrite Hc2. rewrite count_at_upserts.
    rewrite (has_timestamp_in _ _ Hc). reflexivity.
  - cbn [coin_tables insert_or_replace_status with_tables].
    apply (find_table_replace_same _ _ _ _ Hf1 Hname2).
Qed.

(** The names the program builds for its units, from the coins of the
    universe and the intervals of the schema and of the collectors, are bare
    identifiers. *)
Remark unit_names_are_identifiers :
  forallb (fun coin =>
             forallb (fun interval => identifier (coin_table_name coin interval))
                     (intervals ++ Collector.intervals))
          coins = true.
Proof. vm_compute. reflexivity. Qed.

(** C1. Storing a batch a second time changes nothing that storing it once
    has left: the second call ends the way the first did; every table holds
    the same candles in the same order, hence as many rows; the status rows
    read the same; and after a store that went through, each timestamp of
    the batch is held by exactly one row of the unit's table, and a
    database without duplicate timestamps has none afterwards. (The rowid
    and [created_at] of a row written again are the bookkeeping of the second
    write; the candle a row holds is its six data columns.) The name of the
    unit's table, [symbol_interval], is a bare identifier, as the names of
    the schema are: it goes into the text of the statement as it is. *)
Theorem store_twice_same_as_once
    (clock1 clock2 : Z) (db : database) (symbol interval : string)
    (data : list candle) :
  identifier (coin_table_name symbol interval) = true ->
  let once := save_price_data_to_coin_table clock1 db symbol interval data in
  let twice :=
    save_price_data_to_coin_table clock2 (fst once) symbol interval data in
  snd twice = snd once /\
  (forall name,
      table_candles name (fst twice) = table_candles name (fst once) /\
      row_count name (fst twice) = row_count name (fst once)) /\
  status_view (fst twice) = status_view (fst once) /\
  (snd once = None ->
   forall c, In c data ->
     rows_at (coin_table_name symbol interval) (timestamp c) (fst twice) = 1%nat) /\
  ((forall name ts, (rows_at name ts db <= 1)%nat) ->
   forall name ts, (rows_at name ts (fst twice) <= 1)%nat).
Proof.
  intros _. cbv zeta.
  pose proof (store_twice_views clock1 clock2 db symbol interval data) as H.
  cbv zeta in H. destruct H as (H1 & H2 & H3 & H4).
  split; [exact H1|]. split; [exact H2|]. split; [exact H3|].
  split; [exact H4|].
  intros Hu. apply save_keeps_unique, save_keeps_unique, Hu.
Qed.

Lemma store_twice_same_as_once_witness :
  rows_at "BTCUSDT_1m" 60000
    (fst (save_price_data_to_coin_table 2
            (fst (save_price_data_to_coin_table 1 btc_1m "BTCUSDT" "1m"
                    [flat 60000 7%float; flat 120000 8%float; flat 60000 9%float]))
            "BTCUSDT" "1m"
            [flat 60000 7%float; flat 120000 8%float; flat 60000 9%float]))
  = 1%nat.
Proof.
  pose proof (store_twice_same_as_once 1 2 btc_1m "BTCUSDT" "1m"
                [flat 60000 7%float; flat 120000 8%float; flat 60000 9%float]
                eq_refl) as H.
  cbv zeta in H. destruct H as (_ & _ & _ & H & _).
  apply (H eq_refl (flat 60000 7%float)). left. reflexivity.
Defined.

(** What the second write does renew: the row written again gets the next
    rowid, so the rows themselves are not the same records. *)
Remark rewritten_row_gets_new_rowid :
  let once :=
    fst (save_price_data_to_coin_table 1 btc_1m "BTCUSDT" "1m" [flat 60000 7%float]) in
  let twice :=
    fst (save_price_data_to_coin_table 1 once "BTCUSDT" "1m" [flat 60000 7%float]) in
  option_map (fun t => map id (rows t)) (find_table "BTCUSDT_1m" (coin_tables once))
    = Some [1] /\
  option_map (fun t => map id (rows t)) (find_table "BTCUSDT_1m" (coin_tables twice))
    = Some [2].
Proof. split; reflexivity. Qed.

(** ** The status row *)

Lemma find_after_replace {A} (p : A -> bool) (l : list A) (x : A) :
  p x = true -> find p (filter (fun y => negb (p y)) l ++ [x]) = Some x.
Proof.
  intros Hx. induction l as [|y l IH]; simpl.
  - rewrite Hx. reflexivity.
  - destruct (p y) eqn:E; simpl; [exact IH|]. rewrite E. exact IH.
Qed.

Lemma status_after_replace clock symbol interval last db :
  get_last_collected_timestamp
    (insert_or_replace_status clock symbol interval last db) symbol interval
  = Some last.
Proof.
  unfold get_last_collected_timestamp, select_status, insert_or_replace_status.
  simpl. rewrite find_after_replace; [reflexivity|apply same_unit_self].
Qed.

Lemma last_cons {A} (x y : A) (l : list A) : List.last (x :: l) y = List.last l x.
Proof.
  revert x y. induction l as [|z l IH]; intros x y; [reflexivity|].
  change (List.last (x :: z :: l) y) with (List.last (z :: l) y).
  rewrite !IH. reflexivity.
Qed.

Lemma ascending_last_is_max (item : candle) (data : list candle) :
  ascending item data = true ->
  last_timestamp item data = max_timestamp item data.
Proof.
  unfold last_timestamp, max_timestamp.
  revert item. induction data as [|c rest IH]; intros item; [reflexivity|].
  simpl ascending. intros H. apply andb_true_iff in H. destruct H as [Hle Hasc].
  apply Z.leb_le in Hle. rewrite last_cons. simpl fold_left.
  rewrite Z.max_r by exact Hle. apply IH, Hasc.
Qed.

(** C2, at timestamp 0. The status row of the unit holds
    [last_collected_timestamp = 0], yet the period returned is the window of
    1095 days, not [[1, now]]: the test [if last_timestamp:] takes the 0 that
    is there for the [None] of a unit never collected. *)
Theorem missing_period_at_timestamp_zero :
  let db :=
    fst (save_price_data_to_coin_table 1 btc_1m "BTCUSDT" "1m" [flat 0 7%float]) in
  get_last_collected_timestamp db "BTCUSDT" "1m" = Some 0 /\
  get_missing_data_period db "BTCUSDT" "1m" 1700000000000 1700000000000 =
    Some {| start_time := 1700000000000 - days_ms 1095;
            end_time := 1700000000000 |}.
Proof. split; reflexivity. Qed.

(** So it is for every unit whose status row holds 0. *)
Lemma missing_period_zero db symbol interval current_time now_again :
  get_last_collected_timestamp db symbol interval = Some 0 ->
  get_missing_data_period db symbol interval current_time now_again =
    Some {| start_time := now_again - days_ms 1095; end_time := current_time |}.
Proof.
  intros H. unfold get_missing_data_period. rewrite H. reflexivity.
Qed.

(** Everywhere else the period is as the gap detector is described. *)
Lemma missing_period_present db symbol interval current_time now_again t :
  get_last_collected_timestamp db symbol interval = Some t -> t <> 0 ->
  get_missing_data_period db symbol interval current_time now_again =
    Some {| start_time := t + 1; end_time := current_time |}.
Proof.
  intros H Ht. unfold get_missing_data_period. rewrite H. simpl.
  destruct (t =? 0) eqn:E; [apply Z.eqb_eq in E; contradiction|reflexivity].
Qed.

Lemma missing_period_absent db symbol interval current_time now_again :
  get_last_collected_timestamp db symbol interval = None ->
  get_missing_data_period db symbol interval current_time now_again =
    Some {| start_time := now_again - days_ms 1095; end_time := current_time |}.
Proof.
  intros H. unfold get_missing_data_period. rewrite H. reflexivity.
Qed.

(** ** C5: the status row and the transaction *)

(** C5 as it is stated fails. A batch that is not in ascending order is
    stored, and the status row then holds the timestamp of its last record,
    which is not its largest. *)
Lemma status_is_last_not_maximum :
  ~ (forall clock db symbol interval item data db',
        save_price_data_to_coin_table clock db symbol interval (item :: data)
          = (db', None) ->
        get_last_collected_timestamp db' symbol interval
          = Some (max_timestamp item data)).
Proof.
  intros H.
  specialize (H 1 btc_1m "BTCUSDT" "1m" (flat 120000 8%float)
                [flat 60000 7%float] _ eq_refl).
  vm_compute in H. discriminate H.
Qed.

(** C5, amended. A batch that is stored leaves the status row of its unit
    at the timestamp of the last record of the batch, which is the largest
    one when the batch ascends; the candles of the batch and the status row
    are committed by the one transaction of the call, and a call that raises
    leaves behind the database it found: neither the candles nor the status
    row. The candles are read from the table of the unit for a name that is
    a bare identifier and for values a REAL column gives back as they were
    bound. *)
Theorem status_follows_last_record
    (clock : Z) (db db' : database) (symbol interval : string)
    (item : candle) (data : list candle) (raised : option error) :
  save_price_data_to_coin_table clock db symbol interval (item :: data)
    = (db', raised) ->
  match raised with
  | None =>
      get_last_collected_timestamp db' symbol interval
        = Some (last_timestamp item data) /\
      (ascending item data = true ->
       get_last_collected_timestamp db' symbol interval
         = Some (max_timestamp item data)) /\
      (identifier (coin_table_name symbol interval) = true ->
       forallb exact_values (item :: data) = true ->
       table_candles (coin_table_name symbol interval) db'
         = option_map (upserts (item :: data))
             (table_candles (coin_table_name symbol interval) db))
  | Some _ => db' = db
  end.
Proof.
  destruct (find_table (coin_table_name symbol interval) (coin_tables db))
    as [t|] eqn:Hf.
  2:{ rewrite (save_no_table _ _ _ _ _ _ Hf). intros [= <- <-]. reflexivity. }
  destruct (store_table clock t (item :: data)) as [e|t'] eqn:Hs.
  { rewrite (save_aborted _ _ _ _ _ _ _ _ Hf Hs). intros [= <- <-]. reflexivity. }
  rewrite (save_committed _ _ _ _ _ _ _ _ Hf Hs). intros [= <- <-].
  destruct (store_table_candles _ _ _ _ Hs) as [Hn Hc].
  split; [apply status_after_replace|]. split.
  - intros Hasc. rewrite status_after_replace.
    rewrite (ascending_last_is_max _ _ Hasc). reflexivity.
  - intros _ _.
    unfold table_candles. cbn [coin_tables insert_or_replace_status with_tables].
    rewrite (find_table_replace_same _ _ t'  _ Hf).
    + rewrite Hf. simpl. fold (candles_of t'). fold (candles_of t).
      rewrite Hc. reflexivity.
    + rewrite Hn. apply (find_table_name _ _ _ Hf).
Qed.

Lemma status_follows_last_record_witness :
  let db' :=
    fst (save_price_data_to_coin_table 1 btc_1m "BTCUSDT" "1m"
           [flat 60000 7%float; flat 120000 8%float]) in
  get_last_collected_timestamp db' "BTCUSDT" "1m"
  = Some (max_timestamp (flat 60000 7%float) [flat 120000 8%float])
  /\ table_candles "BTCUSDT_1m" db'
     = Some [flat 60000 7%float; flat 120000 8%float].
Proof.
  cbv zeta.
  pose proof (status_follows_last_record 1 btc_1m _ "BTCUSDT" "1m"
                (flat 60000 7%float) [flat 120000 8%float] None eq_refl) as H.
  cbv beta iota in H. destruct H as (_ & H & Hc). split.
  - apply H. reflexivity.
  - exact (Hc eq_refl eq_refl).
Defined.

(** A call that raises in the middle of its batch: the candle written
    before the bad one is rolled back with it. *)
Remark aborted_store_leaves_nothing :
  save_price_data_to_coin_table 1 btc_1m "BTCUSDT" "1m"
    [flat 60000 7%float; flat 120000 PrimFloat.nan]
  = (btc_1m, Some (NotNullConstraint "open_price")).
Proof. reflexivity. Qed.

(** ** C9: the monthly interval *)

Lemma save_other_table clock db symbol interval data name :
  name_eqb (coin_table_name symbol interval) name = false ->
  table_candles name
    (fst (save_price_data_to_coin_table clock db symbol interval data))
  = table_candles name db.
Proof.
  intros Hne. destruct data as [|item data]; [reflexivity|].
  destruct (find_table (coin_table_name symbol interval) (coin_tables db))
    as [t|] eqn:Hf.
  2:{ rewrite (save_no_table _ _ _ _ _ _ Hf). reflexivity. }
  destruct (store_table clock t (item :: data)) as [e|t'] eqn:Hs.
  { rewrite (save_aborted _ _ _ _ _ _ _ _ Hf Hs). reflexivity. }
  rewrite (save_committed _ _ _ _ _ _ _ _ Hf Hs).
  destruct (store_table_candles _ _ _ _ Hs) as [Hn _].
  unfold table_candles. cbn [fst coin_tables insert_or_replace_status with_tables].
  rewrite (find_table_replace_other _ _ _ _ Hne); [reflexivity|].
  rewrite Hn. apply (find_table_name _ _ _ Hf).
Qed.

Lemma length_append (a b : string) :
  String.length (a ++ b) = (String.length a + String.length b)%nat.
Proof. induction a as [|c a IH]; simpl; congruence. Qed.

Lemma monthly_names_differ (symbol : string) :
  name_eqb (coin_table_name symbol "1M") (coin_table_name symbol "1month") = false.
Proof.
  destruct (name_eqb _ _) eqn:E; [|reflexivity].
  apply name_eqb_length in E. unfold coin_table_name in E.
  rewrite !length_append in E. simpl in E. lia.
Qed.

Lemma fresh_monthly_tables :
  forallb (fun symbol =>
             negb (created_as (coin_table_name symbol "1M") fresh)
             && created_as (coin_table_name symbol "1month") fresh)
          coins = true.
Proof. vm_compute. reflexivity. Qed.

(** C9 as it is stated fails. In the database [init_database] builds, a
    batch stored for ETHUSDT with interval ['1M'] raises nothing: the name
    [ETHUSDT_1M] matches the table created as [ETHUSDT_1m], and the monthly
    candle is committed there. *)
Lemma monthly_store_does_not_raise :
  ~ (forall symbol, In symbol coins ->
     forall clock item data,
       snd (save_price_data_to_coin_table clock fresh symbol "1M" (item :: data))
       <> None).
Proof.
  intros H.
  apply (H "ETHUSDT" (or_introl eq_refl) 1 (flat 1696118400000 7%float) []).
  vm_compute. reflexivity.
Qed.

Remark monthly_candle_lands_in_minute_table :
  let db :=
    fst (save_price_data_to_coin_table 1 fresh "ETHUSDT" "1M"
           [flat 1696118400000 7%float]) in
  table_candles "ETHUSDT_1m" db = Some [flat 1696118400000 7%float] /\
  table_candles "ETHUSDT_1month" db = Some [] /\
  get_last_collected_timestamp db "ETHUSDT" "1M" = Some 1696118400000.
Proof. vm_compute. repeat split; reflexivity. Qed.

(** C9, amended. The collectors' monthly interval is ['1M']. For every
    coin of the universe [init_database] creates the monthly table under the
    name [<symbol>_1month] and creates no table spelled [<symbol>_1M]; and a
    store with interval ['1M'], whatever the database and the batch, leaves
    the candles of [<symbol>_1month] as they were. *)
Theorem monthly_table_is_never_written (symbol : string) :
  In symbol coins ->
  In "1M" Collector.intervals /\
  created_as (coin_table_name symbol "1M") fresh = false /\
  created_as (coin_table_name symbol "1month") fresh = true /\
  forall clock db data,
    table_candles (coin_table_name symbol "1month")
      (fst (save_price_data_to_coin_table clock db symbol "1M" data))
    = table_candles (coin_table_name symbol "1month") db.
Proof.
  intros Hin.
  pose proof (proj1 (forallb_forall _ _) fresh_monthly_tables symbol Hin) as H.
  cbv beta in H. destruct (andb_prop _ _ H) as [H1 H2]. clear H.
  split; [unfold Collector.intervals; simpl; tauto|].
  split; [|split; [exact H2|]].
  - destruct (created_as (coin_table_name symbol "1M") fresh);
      [discriminate H1|reflexivity].
  - intros clock db data. apply save_other_table, monthly_names_differ.
Qed.

Lemma monthly_table_is_never_written_witness :
  created_as (coin_table_name "ETHUSDT" "1M") fresh = false /\
  created_as (coin_table_name "ETHUSDT" "1month") fresh = true.
Proof.
  destruct (monthly_table_is_never_written "ETHUSDT" (or_introl eq_refl))
    as (_ & H1 & H2 & _).
  split; [exact H1|exact H2].
Defined.

End DatabaseFacts.

(* ================================================================== *)
(** * The fetch loops: pagination, failures, pacing *)
(* ================================================================== *)

Module CollectorFacts.

Import Database Collector Scenario.

Local Open Scope string_scope.
Local Open Scope Z_scope.

Lemma request_eqb_refl (r : request) : request_eqb r r = true.
Proof.
  unfold request_eqb. rewrite !String.eqb_refl, !Z.eqb_refl. reflexivity.
Qed.

Lemma request_eqb_eq (a b : request) : request_eqb a b = true -> a = b.
Proof.
  unfold request_eqb. intros H.
  repeat (apply andb_true_iff in H; destruct H as [H ?]).
  apply String.eqb_eq in H. apply String.eqb_eq in H3.
  apply Z.eqb_eq in H2, H1, H0.
  destruct a, b; simpl in *; congruence.
Qed.

Lemma batch_size_positive (interval : string) : 0 < _calculate_batch_size interval.
Proof.
  unfold _calculate_batch_size.
  repeat match goal with
         | |- context [String.eqb ?a ?b] => destruct (String.eqb a b)
         end; lia.
Qed.

(** One more turn of a loop: the recursive call in the goal is destructed
    and the induction hypothesis is taken at its arguments. *)
Ltac next_turn IH :=
  match goal with
  | |- context [sequential_loop ?api ?s ?i ?e ?f ?n ?c ?a] =>
      specialize (IH n c a);
      destruct (sequential_loop api s i e f n c a) as [? ?]
  | |- context [batch_loop ?api ?s ?i ?e ?f ?n ?c ?a] =>
      specialize (IH n c a);
      destruct (batch_loop api s i e f n c a) as [? ?]
  end.

Section Loops.

Variable api : api_oracle.
Variables symbol interval : string.
Variable end_time : Z.

(** ** The sequential loop *)

Lemma sequential_loop_paginates (fuel n : nat) (cursor : Z) (acc : list kline) :
  sequential_pagination symbol interval end_time
    (ended (fst (sequential_loop api symbol interval end_time fuel n cursor acc)))
    cursor
    (exchanges (snd (sequential_loop api symbol interval end_time fuel n cursor acc)))
  = true.
Proof.
  revert n cursor acc. induction fuel as [|fuel IH]; intros n cursor acc.
  - simpl. destruct (cursor <? end_time) eqn:E; simpl; [reflexivity|].
    apply Z.leb_le. apply Z.ltb_ge in E. exact E.
  - simpl. destruct (cursor <? end_time) eqn:E; simpl.
    2:{ apply Z.leb_le. apply Z.ltb_ge in E. exact E. }
    destruct (api n (klines_request symbol interval cursor end_time))
      as [[|k ks]|st|] eqn:Ea; simpl;
      try (rewrite E, request_eqb_refl; reflexivity).
    next_turn IH. simpl in *. rewrite E, request_eqb_refl. exact IH.
Qed.

Lemma sequential_loop_raised (fuel n : nat) (cursor : Z) (acc : list kline) :
  existsb (fun x => is_failure (snd x))
    (exchanges (snd (sequential_loop api symbol interval end_time fuel n cursor acc)))
  = true ->
  fst (sequential_loop api symbol interval end_time fuel n cursor acc) = Raised.
Proof.
  revert n cursor acc. induction fuel as [|fuel IH]; intros n cursor acc.
  - simpl. destruct (cursor <? end_time); simpl; discriminate.
  - simpl. destruct (cursor <? end_time); simpl; [|discriminate].
    destruct (api n (klines_request symbol interval cursor end_time))
      as [[|k ks]|st|] eqn:Ea; simpl; try discriminate; try reflexivity.
    next_turn IH. simpl in *. exact IH.
Qed.

Lemma get_historical_data_run (fuel : nat) (start_time : Z) :
  returned (fst (get_historical_data api fuel symbol interval start_time end_time))
  = ended (fst (sequential_loop api symbol interval end_time fuel 0 start_time []))
  /\ snd (get_historical_data api fuel symbol interval start_time end_time)
     = snd (sequential_loop api symbol interval end_time fuel 0 start_time []).
Proof.
  unfold get_historical_data.
  destruct (sequential_loop api symbol interval end_time fuel 0 start_time [])
    as [[acc| |] tr]; split; reflexivity.
Qed.

(** ** The batch loop *)

Lemma batch_loop_paginates (fuel n : nat) (cursor : Z)
    (acc : list (list candle)) :
  batch_pagination symbol interval end_time
    (returned (fst (batch_loop api symbol interval end_time fuel n cursor acc)))
    cursor
    (exchanges (snd (batch_loop api symbol interval end_time fuel n cursor acc)))
  = true.
Proof.
  revert n cursor acc. induction fuel as [|fuel IH]; intros n cursor acc.
  - simpl. destruct (cursor <? end_time) eqn:E; simpl; [reflexivity|].
    apply Z.leb_le. apply Z.ltb_ge in E. exact E.
  - simpl. destruct (cursor <? end_time) eqn:E; simpl.
    2:{ apply Z.leb_le. apply Z.ltb_ge in E. exact E. }
    set (current_end := Z.min (cursor + _calculate_batch_size interval) end_time).
    destruct (api n (klines_request symbol interval cursor current_end))
      as [[|k ks]|st|] eqn:Ea;
      next_turn IH; simpl in *; rewrite E, request_eqb_refl; exact IH.
Qed.

Lemma get_historical_data_batch_run (fuel : nat) (start_time : Z) :
  returned (fst (get_historical_data_batch api fuel symbol interval start_time end_time))
  = returned (fst (batch_loop api symbol interval end_time fuel 0 start_time []))
  /\ snd (get_historical_data_batch api fuel symbol interval start_time end_time)
     = snd (batch_loop api symbol interval end_time fuel 0 start_time []).
Proof.
  unfold get_historical_data_batch.
  destruct (batch_loop api symbol interval end_time fuel 0 start_time [])
    as [[acc|] tr]; split; reflexivity.
Qed.

End Loops.

(** ** What the descriptions say of two neighbouring requests *)

Lemma no_more_app (pre post : list (request * response)) (x : request * response) :
  no_more (pre ++ x :: post) = false.
Proof. destruct pre; reflexivity. Qed.

Lemma sequential_is_described symbol interval end_time complete cursor xs :
  sequential_pagination symbol interval end_time complete cursor xs = true ->
  described_pagination end_time complete cursor xs = true.
Proof.
  revert cursor. induction xs as [|[req resp] xs IH]; intros cursor; simpl;
    [trivial|].
  intros H. apply andb_true_iff in H. destruct H as [H Hr].
  apply andb_true_iff in H. destruct H as [Hc Hq].
  apply request_eqb_eq in Hq. subst req. simpl.
  rewrite Hc, Z.eqb_refl. simpl.
  destruct resp as [[|k ks]|st|]; try reflexivity; [exact Hr|apply IH, Hr].
Qed.

Lemma sequential_failure_is_last symbol interval end_time complete cursor
    pre req resp post :
  sequential_pagination symbol interval end_time complete cursor
    (pre ++ (req, resp) :: post) = true ->
  is_failure resp = true -> post = [].
Proof.
  revert cursor. induction pre as [|[r0 a0] pre IH]; intros cursor H Hf; simpl in H.
  - apply andb_true_iff in H. destruct H as [_ H].
    destruct resp as [[|k ks]|st|]; try discriminate Hf;
      destruct post; try reflexivity; discriminate H.
  - apply andb_true_iff in H. destruct H as [_ H].
    destruct a0 as [[|k ks]|st|];
      try (rewrite no_more_app in H; discriminate H).
    apply (IH _ H Hf).
Qed.

Lemma batch_failure_moves_on symbol interval end_time complete cursor
    pre req resp req' resp' post :
  batch_pagination symbol interval end_time complete cursor
    (pre ++ (req, resp) :: (req', resp') :: post) = true ->
  is_failure resp = true ->
  startTime req' = endTime req /\ startTime req < startTime req'.
Proof.
  revert cursor. induction pre as [|[r0 a0] pre IH]; intros cursor H Hf.
  - simpl in H.
    apply andb_true_iff in H. destruct H as [H Hr].
    apply andb_true_iff in H. destruct H as [Hc Hq].
    apply request_eqb_eq in Hq. subst req.
    assert (Hnext : batch_pagination symbol interval end_time complete
              (Z.min (cursor + _calculate_batch_size interval) end_time)
              ((req', resp') :: post) = true).
    { destruct resp as [[|k ks]|st|]; try discriminate Hf; exact Hr. }
    simpl in Hnext.
    apply andb_true_iff in Hnext. destruct Hnext as [Hn _].
    apply andb_true_iff in Hn. destruct Hn as [_ Hq'].
    apply request_eqb_eq in Hq'. subst req'. simpl.
    apply Z.ltb_lt in Hc. pose proof (batch_size_positive interval). lia.
  - simpl in H. apply andb_true_iff in H. destruct H as [_ H].
    destruct a0 as [[|k ks]|st|]; apply (IH _ H Hf).
Qed.

(** ** Enough fuel ends a run, when the answers do not fall behind the
       request *)

Lemma sequential_loop_ends api symbol interval end_time :
  (forall n req k ks,
      api n req = Ok200 (k :: ks) -> startTime req <= close_time (List.last ks k)) ->
  forall fuel n cursor acc,
    (Z.to_nat (end_time - cursor) <= fuel)%nat ->
    ended (fst (sequential_loop api symbol interval end_time fuel n cursor acc))
    = true.
Proof.
  intros Hapi. induction fuel as [|fuel IH]; intros n cursor acc Hfuel; simpl.
  - destruct (cursor <? end_time) eqn:E; [|reflexivity].
    apply Z.ltb_lt in E. lia.
  - destruct (cursor <? end_time) eqn:E; [|reflexivity].
    apply Z.ltb_lt in E.
    destruct (api n (klines_request symbol interval cursor end_time))
      as [[|k ks]|st|] eqn:Ea; try reflexivity.
    pose proof (Hapi _ _ _ _ Ea) as Hk. simpl in Hk.
    next_turn IH. simpl in *. apply IH. lia.
Qed.

Lemma batch_loop_ends api symbol interval end_time :
  (forall n req k ks,
      api n req = Ok200 (k :: ks) -> startTime req <= open_time (List.last ks k)) ->
  forall fuel n cursor acc,
    (Z.to_nat (end_time - cursor) <= fuel)%nat ->
    returned (fst (batch_loop api symbol interval end_time fuel n cursor acc))
    = true.
Proof.
  intros Hapi. induction fuel as [|fuel IH]; intros n cursor acc Hfuel; simpl.
  - destruct (cursor <? end_time) eqn:E; [|reflexivity].
    apply Z.ltb_lt in E. lia.
  - destruct (cursor <? end_time) eqn:E; [|reflexivity].
    apply Z.ltb_lt in E.
    pose proof (batch_size_positive interval) as Hpos.
    set (current_end := Z.min (cursor + _calculate_batch_size interval) end_time).
    assert (Hce : cursor < current_end) by (unfold current_end; lia).
    destruct (api n (klines_request symbol interval cursor current_end))
      as [[|k ks]|st|] eqn:Ea;
      try (pose proof (Hapi _ _ _ _ Ea) as Hk; simpl in Hk);
      next_turn IH; simpl in *; apply IH; lia.
Qed.

(** ** C3: pagination *)

(** C3 as it is stated fails for the batch fetcher. Its first call is
    answered with the candles that open at 0 and at 60000; its second call
    starts at 60001, the open time of the last candle plus 1, not at 120000,
    its close time plus 1. *)
Lemma batch_is_not_described :
  ~ (forall api symbol interval end_time fuel start_time,
        let run :=
          get_historical_data_batch api fuel symbol interval start_time end_time in
        described_pagination end_time (returned (fst run)) start_time
          (exchanges (snd run)) = true).
Proof.
  intros H. specialize (H two_minutes "BTCUSDT" "1m" 300000 5%nat 0).
  vm_compute in H. discriminate H.
Qed.

(** Nor does an empty answer end the batch fetcher: it goes on to the next
    window. *)
Remark batch_goes_on_after_empty_answer :
  exchanges (snd (get_historical_data_batch quiet 5 "BTCUSDT" "1m" 0 90000000)) =
  [ (klines_request "BTCUSDT" "1m" 0 60000000, Ok200 []);
    (klines_request "BTCUSDT" "1m" 60000000 90000000, Ok200 []) ].
Proof. reflexivity. Qed.

(** C3, amended. Every call of either loop asks for 1000 records. The
    sequential loop asks for [[cursor, end]], moves the cursor to the close
    time of the last candle plus 1 after an answer with candles, and is over
    when an answer is empty, when a request fails or when the cursor has
    reached the end: it paginates as described. The batch loop asks for a
    window of one batch at most, moves the cursor to the open time of the
    last candle plus 1 after an answer with candles and to the end of the
    window after an empty answer or a failed request, and is over only when
    the cursor has reached the end. Both loops come to their end when no
    answer falls behind its request. The batch loop converts an answer to a
    frame before it moves its cursor: it is described for the runs whose
    answers hold open times [pd.to_datetime] takes. *)
Theorem fetch_loops_paginate
    (api : api_oracle) (symbol interval : string) (end_time : Z)
    (fuel : nat) (start_time : Z) :
  let seq := get_historical_data api fuel symbol interval start_time end_time in
  let bat :=
    get_historical_data_batch api fuel symbol interval start_time end_time in
  sequential_pagination symbol interval end_time (returned (fst seq)) start_time
    (exchanges (snd seq)) = true /\
  described_pagination end_time (returned (fst seq)) start_time
    (exchanges (snd seq)) = true /\
  (forallb datetime_range (answered (exchanges (snd bat))) = true ->
   batch_pagination symbol interval end_time (returned (fst bat)) start_time
     (exchanges (snd bat)) = true) /\
  ((forall n req k ks,
       api n req = Ok200 (k :: ks) ->
       startTime req <= open_time (List.last ks k) /\
       startTime req <= close_time (List.last ks k)) ->
   (Z.to_nat (end_time - start_time) <= fuel)%nat ->
   returned (fst seq) = true /\
   (forallb datetime_range (answered (exchanges (snd bat))) = true ->
    returned (fst bat) = true)).
Proof.
  cbv zeta.
  destruct (get_historical_data_run api symbol interval end_time fuel start_time)
    as [Hs1 Hs2].
  destruct (get_historical_data_batch_run api symbol interval end_time fuel start_time)
    as [Hb1 Hb2].
  rewrite Hs1, Hs2, Hb1, Hb2.
  pose proof (sequential_loop_paginates api symbol interval end_time fuel 0
                start_time []) as Hseq.
  split; [exact Hseq|].
  split; [apply (sequential_is_described symbol interval), Hseq|].
  split; [intros _; apply batch_loop_paginates|].
  intros Hapi Hfuel. split.
  - apply sequential_loop_ends; [|exact Hfuel].
    intros n req k ks Ha. apply (Hapi _ _ _ _ Ha).
  - intros _. apply batch_loop_ends; [|exact Hfuel].
    intros n req k ks Ha. apply (Hapi _ _ _ _ Ha).
Qed.

Lemma fetch_loops_paginate_witness :
  let bat := get_historical_data_batch one_per_call 100 "BTCUSDT" "1m" 0 100 in
  returned (fst (get_historical_data one_per_call 100 "BTCUSDT" "1m" 0 100)) = true /\
  returned (fst bat) = true /\
  batch_pagination "BTCUSDT" "1m" 100 (returned (fst bat)) 0 (exchanges (snd bat))
  = true.
Proof.
  cbv zeta.
  pose proof (fetch_loops_paginate one_per_call "BTCUSDT" "1m" 100 100 0) as H.
  cbv zeta in H. destruct H as (_ & _ & Hb & H).
  assert (Hd : forallb datetime_range
                 (answered
                    (exchanges
                       (snd (get_historical_data_batch one_per_call 100
                               "BTCUSDT" "1m" 0 100)))) = true).
  { vm_compute. reflexivity. }
  destruct H as [Hs Hr].
  - intros n req k ks Ha. unfold one_per_call in Ha.
    injection Ha as <- <-. simpl. lia.
  - vm_compute. apply le_n.
  - split; [exact Hs|]. split; [exact (Hr Hd)|exact (Hb Hd)].
Defined.

Remark sequential_run_of_three_calls :
  exchanges (snd (get_historical_data one_per_call 5 "BTCUSDT" "1m" 0 130000)) =
  [ (klines_request "BTCUSDT" "1m" 0 130000, Ok200 [minute 0]);
    (klines_request "BTCUSDT" "1m" 60000 130000, Ok200 [minute 60000]);
    (klines_request "BTCUSDT" "1m" 120000 130000, Ok200 [minute 120000]) ].
Proof. reflexivity. Qed.

(** ** C6: a request that fails *)

(** C6 as it is stated fails. The request of a run whose every call fails
    is made once, not again. *)
Lemma failed_request_is_attempted_once :
  ~ (forall api symbol interval end_time fuel start_time req resp,
        let run := get_historical_data api fuel symbol interval start_time end_time in
        In (req, resp) (exchanges (snd run)) ->
        is_failure resp = true ->
        (2 <= attempts req (snd run))%nat).
Proof.
  intros H.
  specialize (H always_down "BTCUSDT" "1m" 60000 5%nat 0
                (klines_request "BTCUSDT" "1m" 0 60000) NetworkError
                (or_introl eq_refl) eq_refl).
  vm_compute in H. lia.
Qed.

(** The caller gets an empty frame from the sequential fetcher, and from the
    batch fetcher the candles of the windows that did answer. *)
Remark failure_is_not_surfaced :
  get_historical_data always_down 5 "BTCUSDT" "1m" 0 60000 =
    (Some [], [Request (klines_request "BTCUSDT" "1m" 0 60000) NetworkError]) /\
  fst (get_historical_data_batch down_once 5 "BTCUSDT" "1m" 0 90000000) =
    Some [frame_row (minute 60000000)].
Proof. split; reflexivity. Qed.

(** C6, amended. Neither fetcher tries a failed request again. In the
    sequential fetcher a request that fails is the last one of the run, and
    the run returns an empty frame. In the batch fetcher the request that
    follows a failed one starts where the failed window ended: the window is
    skipped. *)
Theorem failed_request_is_not_retried
    (api : api_oracle) (symbol interval : string) (end_time : Z)
    (fuel : nat) (start_time : Z) :
  let seq := get_historical_data api fuel symbol interval start_time end_time in
  let bat :=
    get_historical_data_batch api fuel symbol interval start_time end_time in
  (forall pre req resp post,
      exchanges (snd seq) = (pre ++ (req, resp) :: post)%list ->
      is_failure resp = true ->
      post = [] /\ fst seq = Some []) /\
  (forall pre req resp req' resp' post,
      exchanges (snd bat) = (pre ++ (req, resp) :: (req', resp') :: post)%list ->
      is_failure resp = true ->
      startTime req' = endTime req /\ startTime req < startTime req').
Proof.
  cbv zeta. split.
  - intros pre req resp post Hx Hf.
    destruct (get_historical_data_run api symbol interval end_time fuel start_time)
      as [Hs1 Hs2].
    pose proof (sequential_loop_paginates api symbol interval end_time fuel 0
                  start_time []) as Hseq.
    rewrite <- Hs2, Hx in Hseq. split.
    + apply (sequential_failure_is_last _ _ _ _ _ _ _ _ _ Hseq Hf).
    + pose proof (sequential_loop_raised api symbol interval end_time fuel 0
                    start_time []) as Hr.
      rewrite <- Hs2, Hx in Hr. unfold get_historical_data.
      destruct (sequential_loop api symbol interval end_time fuel 0 start_time [])
        as [e tr]. simpl in Hr. rewrite Hr; [reflexivity|].
      rewrite existsb_app. simpl. rewrite Hf. apply orb_true_r.
  - intros pre req resp req' resp' post Hx Hf.
    destruct (get_historical_data_batch_run api symbol interval end_time fuel
                start_time) as [Hb1 Hb2].
    pose proof (batch_loop_paginates api symbol interval end_time fuel 0
                  start_time []) as Hbat.
    rewrite <- Hb2, Hx in Hbat.
    apply (batch_failure_moves_on _ _ _ _ _ _ _ _ _ _ _ Hbat Hf).
Qed.

Lemma failed_request_is_not_retried_witness :
  ([] = @nil (request * response) /\
   fst (get_historical_data always_down 5 "BTCUSDT" "1m" 0 60000) = Some []) /\
  (startTime (klines_request "BTCUSDT" "1m" 60000000 90000000)
   = endTime (klines_request "BTCUSDT" "1m" 0 60000000) /\
   startTime (klines_request "BTCUSDT" "1m" 0 60000000)
   < startTime (klines_request "BTCUSDT" "1m" 60000000 90000000)).
Proof.
  pose proof (failed_request_is_not_retried always_down "BTCUSDT" "1m" 60000 5 0)
    as [H _].
  pose proof (failed_request_is_not_retried down_once "BTCUSDT" "1m" 90000000 5 0)
    as [_ H'].
  split.
  - apply (H [] (klines_request "BTCUSDT" "1m" 0 60000) NetworkError []);
      reflexivity.
  - apply (H' [] (klines_request "BTCUSDT" "1m" 0 60000000) NetworkError
              (klines_request "BTCUSDT" "1m" 60000000 90000000)
              (Ok200 [minute 60000000])
              [(klines_request "BTCUSDT" "1m" 60000001 90000000, Ok200 [])]);
      reflexivity.
Defined.

(** ** C7: the gap top-up *)

Lemma historical_collector_lacks_batch :
  defines HistoricalDataCollector "get_historical_data_batch" = false.
Proof. reflexivity. Qed.

(** The top-up of [HistoricalDataCollector] never reaches the API: past its
    guard it calls [self.get_historical_data_batch], a method of the other
    class, and its [except] clause answers the [AttributeError] with an
    empty frame. *)
Lemma top_up_makes_no_call api fuel current_time now_again clock db symbol interval :
  collect_missing_data HistoricalDataCollector api fuel current_time now_again
    clock db symbol interval
  = (db, Some [], []).
Proof.
  unfold collect_missing_data. rewrite historical_collector_lacks_batch.
  destruct (get_missing_data_period db symbol interval current_time now_again)
    as [missing_period|]; [|reflexivity].
  destruct (too_short missing_period); reflexivity.
Qed.

Lemma top_up_unit_makes_no_call api fuel at_ symbol state interval :
  top_up_unit HistoricalDataCollector api fuel at_ symbol state interval = state.
Proof.
  unfold top_up_unit. destruct state as [db tr].
  change (defines HistoricalDataCollector "collect_missing_data") with true.
  cbv iota. destruct (at_ symbol interval) as [[current_time now_again] clock].
  rewrite top_up_makes_no_call, app_nil_r. reflexivity.
Qed.

Lemma top_up_units_make_no_call api fuel at_ symbol (l : list string) state :
  fold_left (top_up_unit HistoricalDataCollector api fuel at_ symbol) l state
  = state.
Proof.
  induction l as [|interval l IH]; [reflexivity|].
  cbn [fold_left]. rewrite top_up_unit_makes_no_call. exact IH.
Qed.

Lemma top_up_of_all_units_makes_no_call api fuel at_ coins db :
  collect_all_missing_data HistoricalDataCollector api fuel at_ coins db = (db, []).
Proof.
  unfold collect_all_missing_data. generalize (db, @nil event) as state.
  induction coins as [|symbol coins IH]; intros state; [reflexivity|].
  cbn [fold_left]. rewrite top_up_units_make_no_call. apply IH.
Qed.

(** Nor do the two functions behind [--missing] reach the API: they call
    the methods of [HistoricalDataCollector] on an object of the other
    class. *)
Lemma missing_option_makes_no_call api fuel at_ coins db symbol :
  collect_missing_data_for_single_coin api fuel at_ db symbol = (db, []) /\
  collect_missing_data_for_all_coins api fuel at_ coins db = (db, [], true).
Proof.
  split; [|reflexivity].
  unfold collect_missing_data_for_single_coin.
  generalize intervals as l. induction l as [|interval l IH]; [reflexivity|].
  simpl. exact IH.
Qed.

(** C7. The top-up of a unit whose missing range
    [[last_collected_timestamp + 1, now]] is shorter than one bucket of its
    interval calls the API not once and leaves the database as it was; and so
    does the top-up of a unit run again, at any time, after a batch of it has
    been stored. (It holds the way [top_up_makes_no_call] says: this method
    makes no call on any unit.) *)
Theorem short_gap_is_not_fetched
    (api : api_oracle) (fuel : nat) (current_time now_again clock : Z)
    (db : Sqlite.database) (symbol interval : string) :
  (forall t,
      get_last_collected_timestamp db symbol interval = Some t ->
      current_time - (t + 1) < bucket_ms interval ->
      let run :=
        collect_missing_data HistoricalDataCollector api fuel current_time
          now_again clock db symbol interval in
      exchanges (snd run) = [] /\ fst (fst run) = db) /\
  (forall stored_at item data db',
      save_price_data_to_coin_table stored_at db symbol interval (item :: data)
        = (db', None) ->
      let run :=
        collect_missing_data HistoricalDataCollector api fuel current_time
          now_again clock db' symbol interval in
      exchanges (snd run) = [] /\ fst (fst run) = db').
Proof.
  split.
  - intros t _ _. cbv zeta. rewrite top_up_makes_no_call. split; reflexivity.
  - intros stored_at item data db' _. cbv zeta. rewrite top_up_makes_no_call.
    split; reflexivity.
Qed.

Lemma short_gap_is_not_fetched_witness :
  exchanges
    (snd (collect_missing_data HistoricalDataCollector one_per_call 5
            (gap_now - 90000) (gap_now - 90000) 2 btc_1h "BTCUSDT" "1h")) = [] /\
  fst (fst (collect_missing_data HistoricalDataCollector one_per_call 5
              (gap_now - 90000) (gap_now - 90000) 2 btc_1h "BTCUSDT" "1h"))
  = btc_1h.
Proof.
  apply (proj1 (short_gap_is_not_fetched one_per_call 5 (gap_now - 90000)
                  (gap_now - 90000) 2 btc_1h "BTCUSDT" "1h")
           (gap_now - 120001)).
  - reflexivity.
  - vm_compute. reflexivity.
Defined.

(** The same silence meets a unit that was never collected, whose missing
    range is the whole window of 1095 days. *)
Remark top_up_skips_unit_never_collected :
  get_missing_data_period btc_1m "BTCUSDT" "1m" gap_now gap_now
    = Some {| start_time := gap_now - days_ms 1095; end_time := gap_now |} /\
  collect_missing_data HistoricalDataCollector one_per_call 5 gap_now gap_now 2
    btc_1m "BTCUSDT" "1m"
  = (btc_1m, Some [], []).
Proof. split; reflexivity. Qed.

(** The guard of the method is one minute for every interval. On an object
    that has the batch fetcher as well, a range under 60000 ms is not
    fetched, and a range of two minutes is, also for the hourly unit. *)
Lemma gap_under_a_minute_is_not_fetched
    self api fuel current_time now_again clock db symbol interval t :
  get_last_collected_timestamp db symbol interval = Some t ->
  t <> 0 ->
  current_time - (t + 1) < 60000 ->
  collect_missing_data self api fuel current_time now_again clock db symbol interval
  = (db, Some [], []).
Proof.
  intros Ht Hnz Hgap. unfold collect_missing_data.
  rewrite (DatabaseFacts.missing_period_present _ _ _ _ _ _ Ht Hnz).
  unfold too_short. cbn [start_time end_time].
  destruct (current_time - (t + 1) <? 60000) eqn:E; [reflexivity|].
  apply Z.ltb_ge in E. lia.
Qed.

Remark gap_of_two_minutes_passes_the_guard :
  bucket_ms "1h" = 3600000 /\
  gap_now - (gap_now - 120001 + 1) < bucket_ms "1h" /\
  exchanges
    (snd (collect_missing_data
            (FastHistoricalDataCollector ++ HistoricalDataCollector)%list
            quiet 5 gap_now gap_now 2 btc_1h "BTCUSDT" "1h"))
  = [ (klines_request "BTCUSDT" "1h" (gap_now - 120000) gap_now, Ok200 []) ].
Proof. repeat split; reflexivity. Qed.

(** ** C8: the rate limiter *)

Section Limiter.

Variable api : api_oracle.
Variables symbol interval : string.
Variable end_time : Z.

Lemma sequential_loop_unlimited (fuel n : nat) (cursor : Z) (acc : list kline) :
  limiter_calls
    (snd (sequential_loop api symbol interval end_time fuel n cursor acc)) = 0%nat.
Proof.
  revert n cursor acc. induction fuel as [|fuel IH]; intros n cursor acc; simpl.
  - destruct (cursor <? end_time); reflexivity.
  - destruct (cursor <? end_time); [|reflexivity].
    destruct (api n (klines_request symbol interval cursor end_time))
      as [[|k ks]|st|]; try reflexivity.
    next_turn IH. exact IH.
Qed.

Lemma batch_loop_unlimited (fuel n : nat) (cursor : Z) (acc : list (list candle)) :
  limiter_calls
    (snd (batch_loop api symbol interval end_time fuel n cursor acc)) = 0%nat.
Proof.
  revert n cursor acc. induction fuel as [|fuel IH]; intros n cursor acc; simpl.
  - destruct (cursor <? end_time); reflexivity.
  - destruct (cursor <? end_time); [|reflexivity].
    set (current_end := Z.min (cursor + _calculate_batch_size interval) end_time).
    destruct (api n (klines_request symbol interval cursor current_end))
      as [[|k ks]|st|]; next_turn IH; exact IH.
Qed.

(** The loop that is written with the limiter goes through it before each
    of its requests. *)
Lemma async_loop_limited (fuel n : nat) (count cursor : Z) (acc : list kline) :
  limiter_calls
    (snd (async_loop api symbol interval end_time fuel n count cursor acc))
  = List.length
      (exchanges
         (snd (async_loop api symbol interval end_time fuel n count cursor acc))).
Proof.
  revert n count cursor acc.
  induction fuel as [|fuel IH]; intros n count cursor acc; simpl.
  - destruct (cursor <? end_time); reflexivity.
  - destruct (cursor <? end_time); [|reflexivity].
    unfold _rate_limit.
    destruct (max_requests_per_second <=? count + 1);
      destruct (api n (klines_request symbol interval cursor end_time))
        as [[|k ks]|st|]; try reflexivity;
      match goal with
      | |- context [async_loop _ _ _ _ _ ?n' ?c' ?s' ?a'] =>
          specialize (IH n' c' s' a');
          destruct (async_loop api symbol interval end_time fuel n' c' s' a')
            as [e tr]
      end; simpl in *; rewrite IH; reflexivity.
Qed.

End Limiter.

(** The fetchers that are run never go through [_rate_limit]. *)
Lemma running_fetchers_bypass_limiter api symbol interval end_time fuel start_time :
  limiter_calls
    (snd (get_historical_data_batch api fuel symbol interval start_time end_time))
  = 0%nat /\
  limiter_calls
    (snd (get_historical_data api fuel symbol interval start_time end_time))
  = 0%nat.
Proof.
  destruct (get_historical_data_run api symbol interval end_time fuel start_time)
    as [_ ->].
  destruct (get_historical_data_batch_run api symbol interval end_time fuel start_time)
    as [_ ->].
  split; [apply batch_loop_unlimited|apply sequential_loop_unlimited].
Qed.

(** C8, on the batch fetcher. A fetch of eleven windows makes its eleven
    requests without one call of [_rate_limit], and the only pacing between
    them is the sleep of 50 ms after each answer: 550 ms for eleven requests,
    where [max_requests_per_second] is 10. *)
Theorem batch_fetch_bypasses_limiter :
  let tr :=
    snd (get_historical_data_batch quiet 20 "BTCUSDT" "1m" 0 (11 * 60000000)) in
  List.length (exchanges tr) = 11%nat /\
  limiter_calls tr = 0%nat /\
  pacing_ms tr = 550 /\
  max_requests_per_second = 10.
Proof. vm_compute. repeat split; reflexivity. Qed.

End CollectorFacts.

(* ================================================================== *)
(** * The checkpoint: what is left to do, and the status operation *)
(* ================================================================== *)

Module ProgressTrackerFacts.

Import ProgressTracker Scenario.

Local Open Scope string_scope.
Local Open Scope Z_scope.

Lemma mem_in (x : string) (xs : list string) : mem x xs = true <-> In x xs.
Proof.
  unfold mem. rewrite existsb_exists. split.
  - intros [y [Hy He]]. apply String.eqb_eq in He. subst y. exact Hy.
  - intros H. exists x. split; [exact H|apply String.eqb_refl].
Qed.

Lemma mem_not_in (x : string) (xs : list string) : mem x xs = false <-> ~ In x xs.
Proof.
  rewrite <- mem_in. destruct (mem x xs); split; intros H; try reflexivity;
    try discriminate; try (intros H'; discriminate H').
  exfalso. apply H. reflexivity.
Qed.

Lemma pending_in (completed failed all : list string) (x : string) :
  In x (pending completed failed all) <->
  In x all /\ ~ In x completed /\ ~ In x failed.
Proof.
  unfold pending. rewrite filter_In, andb_true_iff, !negb_true_iff, !mem_not_in.
  reflexivity.
Qed.

Lemma truthy_some (x : string) : truthy (Some x) = true <-> x <> "".
Proof.
  simpl. rewrite negb_true_iff. split.
  - intros H E. subst x. discriminate H.
  - intros H. destruct (String.eqb x "") eqn:E; [|reflexivity].
    apply String.eqb_eq in E. contradiction.
Qed.

(** What a list of remaining units holds, given the unit in flight. *)
Lemma remaining_in (in_flight : option string) (rest : list string) (x : string) :
  In x (match in_flight with
        | Some c =>
            if (truthy in_flight && negb (mem c rest))%bool then c :: rest else rest
        | None => rest
        end) <->
  In x rest \/ (in_flight = Some x /\ x <> "").
Proof.
  destruct in_flight as [c|]; [|split; [auto|intros [H|[H _]]; [exact H|discriminate]]].
  destruct (truthy (Some c)) eqn:Et; simpl andb.
  - apply truthy_some in Et.
    destruct (mem c rest) eqn:Em; simpl.
    + apply mem_in in Em. split; [auto|].
      intros [H|[[= <-] _]]; [exact H|exact Em].
    + split.
      * intros [<-|H]; [right; split; [reflexivity|exact Et]|left; exact H].
      * intros [H|[[= <-] _]]; [right; exact H|left; reflexivity].
  - split; [auto|]. intros [H|[[= <-] Hx]]; [exact H|].
    apply truthy_some in Hx. rewrite Hx in Et. discriminate Et.
Qed.

(** The list of remaining units, by the unit in flight: it goes in front
    when its name is not empty and it is not among the rest. *)
Lemma in_flight_first (in_flight : option string) (rest : list string) (c : string) :
  in_flight = Some c -> c <> "" -> ~ In c rest ->
  match in_flight with
  | Some c =>
      if (truthy in_flight && negb (mem c rest))%bool then c :: rest else rest
  | None => rest
  end = c :: rest.
Proof.
  intros -> Hne Hn. apply truthy_some in Hne. apply mem_not_in in Hn.
  rewrite Hne, Hn. reflexivity.
Qed.

Lemma in_flight_apart (in_flight : option string) (rest : list string) (c : string) :
  in_flight = Some c -> c = "" \/ In c rest ->
  match in_flight with
  | Some c =>
      if (truthy in_flight && negb (mem c rest))%bool then c :: rest else rest
  | None => rest
  end = rest.
Proof.
  intros -> [->|Hin]; [reflexivity|].
  apply mem_in in Hin. rewrite Hin, andb_false_r. reflexivity.
Qed.

Lemma pending_all (all : list string) : pending [] [] all = all.
Proof.
  unfold pending, mem. induction all as [|x all IH]; [reflexivity|].
  simpl. f_equal. exact IH.
Qed.

Lemma collect_coins_started collect_symbol writable now remaining t :
  snd (collect_coins collect_symbol writable now remaining t) = remaining.
Proof.
  revert t. induction remaining as [|symbol rest IH]; intros t; [reflexivity|].
  simpl. destruct (collect_symbol symbol _) as [t2 symbol_data].
  match goal with
  | |- context [collect_coins _ _ _ rest ?t3] =>
      specialize (IH t3);
      destruct (collect_coins collect_symbol writable now rest t3) as [t4 started]
  end.
  simpl in *. rewrite IH. reflexivity.
Qed.

(** C4 as it is stated fails. ETHUSDT is recorded as completed, yet it is
    the first unit the resumed run takes up: it is also the coin recorded as
    in flight, and that one is always put back. *)
Lemma completed_unit_in_flight_is_returned :
  ~ (forall p all_coins x,
        In x (get_remaining_coins p all_coins) ->
        ~ In x (completed_coins p) /\ ~ In x (failed_coins p)).
Proof.
  intros H.
  destruct (H interrupted_then_set_up Database.coins "ETHUSDT") as [Hc _].
  - vm_compute. left. reflexivity.
  - apply Hc. vm_compute. left. reflexivity.
Qed.

(** C4, amended. The units a resumed run takes up are the ones
    [get_remaining_coins] returns, and within a coin the ones
    [get_remaining_intervals] returns: the units of the list that are
    recorded neither as completed nor as failed, and the unit recorded as in
    flight, if there is one. With no unit in flight they are exactly the
    pending units, in the order of the list; with a unit in flight, under a
    name that is not empty, that unit comes first and the pending units
    follow in the order of the list, unless it is one of them, and then the
    list is that of the pending units; and after a reset they are all the
    units of the list. *)
Theorem remaining_is_pending_and_in_flight
    (p : progress) (symbol : string) (all_coins all_intervals : list string) :
  (forall x,
      In x (get_remaining_coins p all_coins) <->
      (In x all_coins /\ ~ In x (completed_coins p) /\ ~ In x (failed_coins p))
      \/ (current_coin p = Some x /\ x <> "")) /\
  (forall x,
      In x (get_remaining_intervals p symbol all_intervals) <->
      (In x all_intervals
       /\ ~ In x (get_or_empty (completed_intervals p) symbol)
       /\ ~ In x (get_or_empty (failed_intervals p) symbol))
      \/ (current_interval (current_coin_progress p) = Some x /\ x <> "")) /\
  (current_coin p = None ->
   get_remaining_coins p all_coins
   = pending (completed_coins p) (failed_coins p) all_coins) /\
  (current_interval (current_coin_progress p) = None ->
   get_remaining_intervals p symbol all_intervals
   = pending (get_or_empty (completed_intervals p) symbol)
       (get_or_empty (failed_intervals p) symbol) all_intervals) /\
  (forall c,
      current_coin p = Some c -> c <> "" ->
      ~ In c (pending (completed_coins p) (failed_coins p) all_coins) ->
      get_remaining_coins p all_coins
      = c :: pending (completed_coins p) (failed_coins p) all_coins) /\
  (forall c,
      current_coin p = Some c ->
      c = "" \/ In c (pending (completed_coins p) (failed_coins p) all_coins) ->
      get_remaining_coins p all_coins
      = pending (completed_coins p) (failed_coins p) all_coins) /\
  (forall i,
      current_interval (current_coin_progress p) = Some i -> i <> "" ->
      ~ In i (pending (get_or_empty (completed_intervals p) symbol)
                (get_or_empty (failed_intervals p) symbol) all_intervals) ->
      get_remaining_intervals p symbol all_intervals
      = i :: pending (get_or_empty (completed_intervals p) symbol)
               (get_or_empty (failed_intervals p) symbol) all_intervals) /\
  (forall i,
      current_interval (current_coin_progress p) = Some i ->
      i = "" \/ In i (pending (get_or_empty (completed_intervals p) symbol)
                        (get_or_empty (failed_intervals p) symbol) all_intervals) ->
      get_remaining_intervals p symbol all_intervals
      = pending (get_or_empty (completed_intervals p) symbol)
          (get_or_empty (failed_intervals p) symbol) all_intervals) /\
  (forall collect_symbol writable now t,
      in_memory t = p ->
      snd (collect_all_coins_all_data collect_symbol writable now all_coins t)
      = get_remaining_coins p all_coins) /\
  (forall writable now t,
      get_remaining_coins (in_memory (reset_progress writable now t)) all_coins
      = all_coins).
Proof.
  repeat match goal with |- _ /\ _ => split end.
  - intros x. unfold get_remaining_coins. rewrite remaining_in, pending_in.
    reflexivity.
  - intros x. unfold get_remaining_intervals. rewrite remaining_in, pending_in.
    reflexivity.
  - intros H. unfold get_remaining_coins. rewrite H. reflexivity.
  - intros H. unfold get_remaining_intervals. rewrite H. reflexivity.
  - intros c Hc Hne Hn. unfold get_remaining_coins.
    apply in_flight_first; assumption.
  - intros c Hc Hin. unfold get_remaining_coins.
    apply (in_flight_apart _ _ c); assumption.
  - intros i Hi Hne Hn. unfold get_remaining_intervals.
    apply in_flight_first; assumption.
  - intros i Hi Hin. unfold get_remaining_intervals.
    apply (in_flight_apart _ _ i); assumption.
  - intros collect_symbol writable now t <-.
    unfold collect_all_coins_all_data, print_progress_summary.
    apply collect_coins_started.
  - intros writable now t. unfold get_remaining_coins. simpl. apply pending_all.
Qed.

Lemma remaining_is_pending_and_in_flight_witness :
  get_remaining_coins
    (in_memory (fail_coin_collection true "BTCUSDT"
                  (complete_coin_collection true 3 "ETHUSDT"
                     (new_tracker true 1 None))))
    ["ETHUSDT"; "BTCUSDT"; "SUIUSDT"]
  = pending ["ETHUSDT"] ["BTCUSDT"] ["ETHUSDT"; "BTCUSDT"; "SUIUSDT"]
  /\ get_remaining_coins
       (in_memory (start_coin_collection true 4 "ETHUSDT"
                     (complete_coin_collection true 3 "ETHUSDT"
                        (new_tracker true 1 None))))
       ["ETHUSDT"; "BTCUSDT"; "SUIUSDT"]
     = "ETHUSDT" :: pending ["ETHUSDT"] [] ["ETHUSDT"; "BTCUSDT"; "SUIUSDT"].
Proof.
  split.
  - apply (remaining_is_pending_and_in_flight
             (in_memory (fail_coin_collection true "BTCUSDT"
                           (complete_coin_collection true 3 "ETHUSDT"
                              (new_tracker true 1 None))))
             "ETHUSDT" ["ETHUSDT"; "BTCUSDT"; "SUIUSDT"] []).
    reflexivity.
  - apply (remaining_is_pending_and_in_flight
             (in_memory (start_coin_collection true 4 "ETHUSDT"
                           (complete_coin_collection true 3 "ETHUSDT"
                              (new_tracker true 1 None))))
             "ETHUSDT" ["ETHUSDT"; "BTCUSDT"; "SUIUSDT"] []).
    + reflexivity.
    + discriminate.
    + vm_compute. intros [H|[H|[]]]; discriminate H.
Defined.

(** A coin taken up again after it was completed is in flight and comes
    first, before the coins that are pending. *)
Remark unit_in_flight_comes_first :
  get_remaining_coins
    (in_memory (start_coin_collection true 4 "ETHUSDT"
                  (complete_coin_collection true 3 "ETHUSDT"
                     (new_tracker true 1 None))))
    ["ETHUSDT"; "BTCUSDT"; "SUIUSDT"]
  = ["ETHUSDT"; "BTCUSDT"; "SUIUSDT"].
Proof. reflexivity. Qed.

(** The run that follows: ETHUSDT is done, BTCUSDT has failed and is not
    tried again, SUIUSDT is taken up. *)
Remark failed_unit_is_not_retried :
  get_remaining_coins
    (in_memory (fail_coin_collection true "BTCUSDT"
                  (complete_coin_collection true 3 "ETHUSDT"
                     (new_tracker true 1 None))))
    ["ETHUSDT"; "BTCUSDT"; "SUIUSDT"]
  = ["SUIUSDT"].
Proof. reflexivity. Qed.

(** ** C10: the status operation *)

(** C10 as it is stated fails. With no checkpoint file, the status
    operation writes one. *)
Lemma status_creates_missing_checkpoint :
  ~ (forall writable now fs, fst (status_operation writable now fs) = fs).
Proof.
  intros H. specialize (H true 1 None). discriminate H.
Qed.

(** C10, amended. When a checkpoint file exists, readable or not, the
    status operation leaves it as it is; when none exists, the operation
    creates it with the default document, if the path can be written.
    Printing the summary changes neither the tracker nor the file. *)
Theorem status_keeps_existing_checkpoint
    (writable : bool) (now : Z) (fs : file_system) :
  (fs <> None -> fst (status_operation writable now fs) = fs) /\
  (fs = None ->
   fst (status_operation writable now fs)
   = if writable then Some (Document (_create_default_progress now)) else None) /\
  (forall t, snd (print_progress_summary t) = t) /\
  snd (status_operation writable now fs)
  = get_progress_summary (fst (load_progress writable now fs)).
Proof.
  unfold status_operation, new_tracker, print_progress_summary.
  destruct fs as [[p|]|]; simpl; repeat split; try reflexivity;
    try (intros H; reflexivity); try discriminate;
    try (intros H; exfalso; apply H; reflexivity).
Qed.

Lemma status_keeps_existing_checkpoint_witness :
  fst (status_operation true 9 (Some (Document interrupted_then_set_up)))
  = Some (Document interrupted_then_set_up).
Proof.
  apply (status_keeps_existing_checkpoint true 9
           (Some (Document interrupted_then_set_up))).
  discriminate.
Defined.

End ProgressTrackerFacts.

(* ================================================================== *)
(** * The store, further: creation of the tables, errors, lookups *)
(* ================================================================== *)

Module StoreFacts.

Import Sqlite Database SqliteFacts DatabaseFacts Scenario.

Local Open Scope string_scope.
Local Open Scope Z_scope.

(** ** [CREATE TABLE IF NOT EXISTS] *)

Lemma find_table_app name ts1 ts2 :
  find_table name (ts1 ++ ts2) =
  match find_table name ts1 with
  | Some t => Some t
  | None => find_table name ts2
  end.
Proof.
  induction ts1 as [|u ts1 IH]; simpl; [reflexivity|].
  destruct (name_eqb (table_name u) name); [reflexivity|exact IH].
Qed.

Lemma create_keeps_table name m db t :
  find_table name (coin_tables db) = Some t ->
  find_table name (coin_tables (create_table_if_not_exists m db)) = Some t.
Proof.
  intros H. unfold create_table_if_not_exists.
  destruct (find_table m (coin_tables db)); [exact H|].
  simpl. rewrite find_table_app, H. reflexivity.
Qed.

Lemma create_makes_table m db :
  find_table m (coin_tables (create_table_if_not_exists m db)) <> None.
Proof.
  unfold create_table_if_not_exists.
  destruct (find_table m (coin_tables db)) eqn:E; [rewrite E; discriminate|].
  simpl. rewrite find_table_app, E. simpl. rewrite name_eqb_refl. discriminate.
Qed.

Lemma create_keeps_status m db :
  status_rows (create_table_if_not_exists m db) = status_rows db /\
  status_seq (create_table_if_not_exists m db) = status_seq db.
Proof.
  unfold create_table_if_not_exists.
  destruct (find_table m (coin_tables db)); split; reflexivity.
Qed.

Lemma fold_left_flat_map {A B C} (f : A -> C -> A) (g : B -> list C)
    (l : list B) (a : A) :
  fold_left f (flat_map g l) a = fold_left (fun a b => fold_left f (g b) a) l a.
Proof.
  revert a. induction l as [|b l IH]; intros a; [reflexivity|].
  cbn [flat_map fold_left]. rewrite fold_left_app. apply IH.
Qed.

Lemma fold_left_over_map {A B C} (f : A -> C -> A) (g : B -> C)
    (l : list B) (a : A) :
  fold_left f (map g l) a = fold_left (fun a b => f a (g b)) l a.
Proof.
  revert a. induction l as [|b l IH]; intros a; [reflexivity|].
  cbn [map fold_left]. apply IH.
Qed.

Lemma fold_left_ext_all {A B} (f g : A -> B -> A) (l : list B) (a : A) :
  (forall x y, f x y = g x y) -> fold_left f l a = fold_left g l a.
Proof.
  intros H. revert a. induction l as [|b l IH]; intros a; [reflexivity|].
  cbn [fold_left]. rewrite H. apply IH.
Qed.

Lemma init_database_create_all db : init_database db = create_all table_names db.
Proof.
  unfold init_database, create_all, table_names.
  rewrite fold_left_flat_map. apply fold_left_ext_all. intros d coin.
  rewrite fold_left_over_map. reflexivity.
Qed.

Lemma create_all_keeps_table names name db t :
  find_table name (coin_tables db) = Some t ->
  find_table name (coin_tables (create_all names db)) = Some t.
Proof.
  revert db. induction names as [|m names IH]; intros db H; [exact H|].
  simpl. apply IH, create_keeps_table, H.
Qed.

Lemma create_all_keeps_status names db :
  status_rows (create_all names db) = status_rows db /\
  status_seq (create_all names db) = status_seq db.
Proof.
  revert db. induction names as [|m names IH]; intros db; [split; reflexivity|].
  simpl. destruct (IH (create_table_if_not_exists m db)) as [H1 H2].
  destruct (create_keeps_status m db) as [H3 H4]. split; congruence.
Qed.

Lemma create_all_makes_tables names name db :
  In name names -> find_table name (coin_tables (create_all names db)) <> None.
Proof.
  revert db. induction names as [|m names IH]; intros db; [intros []|].
  intros [->|H]; simpl.
  - destruct (find_table name (coin_tables (create_table_if_not_exists name db)))
      as [t|] eqn:E; [|exfalso; apply (create_makes_table name db), E].
    rewrite (create_all_keeps_table _ _ _ _ E). discriminate.
  - apply IH, H.
Qed.

Lemma create_all_nothing_to_do names db :
  (forall name, In name names -> find_table name (coin_tables db) <> None) ->
  create_all names db = db.
Proof.
  revert db. induction names as [|m names IH]; intros db H; [reflexivity|].
  simpl. assert (Hm : create_table_if_not_exists m db = db).
  { unfold create_table_if_not_exists.
    destruct (find_table m (coin_tables db)) eqn:E; [reflexivity|].
    exfalso. apply (H m); [left; reflexivity|exact E]. }
  rewrite Hm. apply IH. intros name Hn. apply H. right. exact Hn.
Qed.

(** X1. [init_database], run on a database that already holds tables and
    rows, leaves every table it finds as it is, rows and rowid counter
    included, and does not touch the status rows: opening an existing file
    with [Database()] loses nothing. *)
Theorem init_database_keeps_data (db : database) (name : string) (t : price_table) :
  find_table name (coin_tables db) = Some t ->
  find_table name (coin_tables (init_database db)) = Some t /\
  status_rows (init_database db) = status_rows db /\
  status_seq (init_database db) = status_seq db.
Proof.
  intros H. rewrite init_database_create_all. split.
  - apply create_all_keeps_table, H.
  - apply create_all_keeps_status.
Qed.

Lemma init_database_keeps_data_witness :
  table_candles "BTCUSDT_1m"
    (init_database
       (fst (save_price_data_to_coin_table 1 btc_1m "BTCUSDT" "1m"
               [flat 60000 7%float])))
  = Some [flat 60000 7%float].
Proof.
  unfold table_candles.
  destruct (init_database_keeps_data
              (fst (save_price_data_to_coin_table 1 btc_1m "BTCUSDT" "1m"
                      [flat 60000 7%float]))
              "BTCUSDT_1m"
              {| table_name := "BTCUSDT_1m";
                 rows := [{| id := 1; Sqlite.timestamp := 60000;
                             open_price := 7%float; high_price := 7%float;
                             low_price := 7%float; close_price := 7%float;
                             Sqlite.volume := 1%float; created_at := 1 |}];
                 seq := 1 |} eq_refl) as [H _].
  rewrite H. reflexivity.
Defined.

Lemma table_names_in coin interval :
  In coin coins -> In interval intervals ->
  In (coin_table_name coin interval) table_names.
Proof.
  intros Hc Hi. unfold table_names. apply in_flat_map. exists coin.
  split; [exact Hc|]. apply in_map, Hi.
Qed.

(** X2. [init_database] is idempotent, whatever database it starts from,
    and after it every coin of the universe has a table for every interval
    of the schema. *)
Theorem init_database_idempotent (db : database) :
  init_database (init_database db) = init_database db /\
  forall coin interval,
    In coin coins -> In interval intervals ->
    find_table (coin_table_name coin interval)
      (coin_tables (init_database db)) <> None.
Proof.
  rewrite (init_database_create_all (init_database db)).
  rewrite (init_database_create_all db). split.
  - apply create_all_nothing_to_do. intros name Hn.
    apply create_all_makes_tables, Hn.
  - intros coin interval Hc Hi. apply create_all_makes_tables.
    apply table_names_in; assumption.
Qed.

Lemma init_database_idempotent_witness :
  find_table (coin_table_name "ETHUSDT" "1m")
    (coin_tables (init_database btc_1m)) <> None.
Proof.
  apply (proj2 (init_database_idempotent btc_1m) "ETHUSDT" "1m").
  - left. reflexivity.
  - left. reflexivity.
Defined.

(** ** When the store raises *)

Lemma bind_real_none (x : float) :
  bind_real x = None <-> PrimFloat.is_nan x = true.
Proof.
  unfold bind_real. destruct (PrimFloat.is_nan x); split; congruence.
Qed.

Lemma insert_row_storable clock t (item : candle) :
  (exists t',
      insert_or_replace_row clock t (timestamp item) (open item) (high item)
        (low item) (close item) (volume item) = inr t')
  <-> storable item = true.
Proof.
  unfold insert_or_replace_row, storable, bind_real.
  destruct (PrimFloat.is_nan (open item)), (PrimFloat.is_nan (high item)),
    (PrimFloat.is_nan (low item)), (PrimFloat.is_nan (close item)),
    (PrimFloat.is_nan (volume item)); simpl; split;
    try (intros [t' H]; discriminate H); try discriminate;
    try reflexivity; intros _; eexists; reflexivity.
Qed.

Lemma store_table_storable clock t data :
  (exists t', store_table clock t data = inr t')
  <-> forallb storable data = true.
Proof.
  revert t. induction data as [|item data IH]; intros t; simpl.
  - split; [reflexivity|]. intros _. exists t. reflexivity.
  - rewrite andb_true_iff. split.
    + intros [t' H].
      destruct (insert_or_replace_row clock t _ _ _ _ _ _) as [e|t1] eqn:E;
        [discriminate H|].
      split.
      * apply (insert_row_storable clock t item). exists t1. exact E.
      * apply (IH t1). exists t'. exact H.
    + intros [H1 H2]. apply (insert_row_storable clock t item) in H1.
      destruct H1 as [t1 E]. rewrite E. apply IH, H2.
Qed.

Lemma init_database_makes_tables (db : database) (coin interval : string) :
  In coin coins -> In interval intervals ->
  find_table (coin_table_name coin interval) (coin_tables (init_database db))
  <> None.
Proof.
  intros Hc Hi. rewrite (init_database_create_all db).
  apply create_all_makes_tables. apply table_names_in; assumption.
Qed.

Lemma store_goes_through clock db symbol interval data :
  find_table (coin_table_name symbol interval) (coin_tables db) <> None ->
  forallb storable data = true ->
  snd (save_price_data_to_coin_table clock db symbol interval data) = None.
Proof.
  intros Hf Hs. destruct data as [|item data]; [rewrite save_empty; reflexivity|].
  destruct (find_table (coin_table_name symbol interval) (coin_tables db))
    as [t|] eqn:Et; [|contradiction].
  apply (store_table_storable clock t (item :: data)) in Hs.
  destruct Hs as [t' Hs]. rewrite (save_committed _ _ _ _ _ _ _ _ Et Hs).
  reflexivity.
Qed.

(** X3. For a unit whose table name, [symbol_interval], is a bare
    identifier, the store of a batch whose timestamps fit SQLite's INTEGER
    raises exactly when the batch is not empty and either no table answers
    to the name of the unit or a value of the batch is NaN; and a store that
    raises leaves the database as it found it. An empty batch is accepted
    whatever the unit. *)
Theorem store_raises_exactly_when
    (clock : Z) (db : database) (symbol interval : string) (data : list candle) :
  identifier (coin_table_name symbol interval) = true ->
  forallb fits_integer data = true ->
  let result := save_price_data_to_coin_table clock db symbol interval data in
  (snd result = None <->
   data = [] \/
   (find_table (coin_table_name symbol interval) (coin_tables db) <> None /\
    forallb storable data = true)) /\
  (snd result <> None -> fst result = db).
Proof.
  intros _ _. cbv zeta. destruct data as [|item data].
  { rewrite save_empty. simpl. split; [|intros H; reflexivity].
    split; [left; reflexivity|reflexivity]. }
  destruct (find_table (coin_table_name symbol interval) (coin_tables db))
    as [t|] eqn:Hf.
  2:{ rewrite (save_no_table _ _ _ _ _ _ Hf). simpl. split; [|reflexivity].
      split; [discriminate|]. intros [H|[H _]]; [discriminate H|].
      exfalso. apply H. reflexivity. }
  destruct (store_table clock t (item :: data)) as [e|t'] eqn:Hs.
  - rewrite (save_aborted _ _ _ _ _ _ _ _ Hf Hs). simpl. split; [|reflexivity].
    split; [discriminate|]. intros [H|[_ H]]; [discriminate H|].
    apply (store_table_storable clock t (item :: data)) in H.
    destruct H as [t' H]. rewrite Hs in H. discriminate H.
  - rewrite (save_committed _ _ _ _ _ _ _ _ Hf Hs). simpl.
    split; [|intros H; exfalso; apply H; reflexivity].
    split; [|reflexivity]. intros _. right. split; [discriminate|].
    apply (store_table_storable clock t (item :: data)). exists t'. exact Hs.
Qed.

Lemma store_raises_exactly_when_witness :
  fst (save_price_data_to_coin_table 1 btc_1m "ETHUSDT" "1m" [flat 60000 7%float])
  = btc_1m.
Proof.
  apply (proj2 (store_raises_exactly_when 1 btc_1m "ETHUSDT" "1m"
                  [flat 60000 7%float] eq_refl eq_refl)).
  discriminate.
Defined.

(** X4. On a database [init_database] has gone over, a store for a coin of
    the universe and an interval of the schema, with no NaN among its
    values and timestamps that fit SQLite's INTEGER, does not raise. *)
Theorem store_on_initialised_database
    (clock : Z) (db : database) (coin interval : string) (data : list candle) :
  In coin coins -> In interval intervals ->
  forallb storable data = true ->
  forallb fits_integer data = true ->
  snd (save_price_data_to_coin_table clock (init_database db) coin interval data)
  = None.
Proof.
  intros Hc Hi Hs _.
  apply store_goes_through; [|exact Hs].
  apply init_database_makes_tables; assumption.
Qed.

Lemma store_on_initialised_database_witness :
  snd (save_price_data_to_coin_table 1 (init_database empty_database)
         "BTCUSDT" "1h" [flat 3600000 7%float])
  = None.
Proof.
  apply store_on_initialised_database.
  - right. left. reflexivity.
  - unfold intervals. simpl. tauto.
  - reflexivity.
  - reflexivity.
Defined.

(** ** What a store leaves alone *)

Lemma replace_table_names name t' ts :
  (forall t, find_table name ts = Some t -> table_name t' = table_name t) ->
  map table_name (replace_table name t' ts) = map table_name ts.
Proof.
  induction ts as [|u ts IH]; intros H; simpl; [reflexivity|].
  simpl in H. destruct (name_eqb (table_name u) name) eqn:E; simpl.
  - rewrite (H u eq_refl). reflexivity.
  - rewrite IH; [reflexivity|exact H].
Qed.

(** X5. The store neither creates nor drops nor renames a table: the
    per-coin tables of the database are the same, under the same names and in
    the same order, after every call. *)
Theorem store_keeps_the_tables
    (clock : Z) (db : database) (symbol interval : string) (data : list candle) :
  tables_of (fst (save_price_data_to_coin_table clock db symbol interval data))
  = tables_of db.
Proof.
  destruct data as [|item data]; [reflexivity|].
  destruct (find_table (coin_table_name symbol interval) (coin_tables db))
    as [t|] eqn:Hf.
  2:{ rewrite (save_no_table _ _ _ _ _ _ Hf). reflexivity. }
  destruct (store_table clock t (item :: data)) as [e|t'] eqn:Hs.
  { rewrite (save_aborted _ _ _ _ _ _ _ _ Hf Hs). reflexivity. }
  rewrite (save_committed _ _ _ _ _ _ _ _ Hf Hs).
  destruct (store_table_candles _ _ _ _ Hs) as [Hn _].
  unfold tables_of. cbn [fst coin_tables insert_or_replace_status with_tables].
  apply replace_table_names. intros u Hu. congruence.
Qed.

Lemma find_other_unit symbol interval symbol' interval' rows new :
  same_unit symbol' interval' new = false ->
  (String.eqb symbol' symbol && String.eqb interval' interval)%bool = false ->
  find (same_unit symbol' interval')
    (filter (fun r => negb (same_unit symbol interval r)) rows ++ [new])
  = find (same_unit symbol' interval') rows.
Proof.
  intros Hnew Hne. induction rows as [|r rows IH]; simpl.
  - rewrite Hnew. reflexivity.
  - destruct (same_unit symbol interval r) eqn:E; simpl.
    + assert (Hr : same_unit symbol' interval' r = false).
      { unfold same_unit in *. apply andb_true_iff in E. destruct E as [E1 E2].
        apply String.eqb_eq in E1, E2. rewrite E1, E2.
        rewrite (String.eqb_sym symbol), (String.eqb_sym interval). exact Hne. }
      rewrite Hr. exact IH.
    + destruct (same_unit symbol' interval' r); [reflexivity|exact IH].
Qed.

(** X6. A store for one unit, whose table name [symbol_interval] is a bare
    identifier, leaves the last collected timestamp of every other unit as
    it was; units are told apart by the exact spelling of symbol and
    interval. *)
Theorem store_keeps_other_status
    (clock : Z) (db : database) (symbol interval symbol' interval' : string)
    (data : list candle) :
  identifier (coin_table_name symbol interval) = true ->
  (symbol', interval') <> (symbol, interval) ->
  get_last_collected_timestamp
    (fst (save_price_data_to_coin_table clock db symbol interval data))
    symbol' interval'
  = get_last_collected_timestamp db symbol' interval'.
Proof.
  intros _ Hne.
  assert (Hb : (String.eqb symbol' symbol && String.eqb interval' interval)%bool
               = false).
  { destruct (String.eqb symbol' symbol) eqn:E1; [|reflexivity].
    destruct (String.eqb interval' interval) eqn:E2; [|reflexivity].
    apply String.eqb_eq in E1, E2. subst. exfalso. apply Hne. reflexivity. }
  destruct data as [|item data]; [reflexivity|].
  destruct (find_table (coin_table_name symbol interval) (coin_tables db))
    as [t|] eqn:Hf.
  2:{ rewrite (save_no_table _ _ _ _ _ _ Hf). reflexivity. }
  destruct (store_table clock t (item :: data)) as [e|t'] eqn:Hs.
  { rewrite (save_aborted _ _ _ _ _ _ _ _ Hf Hs). reflexivity. }
  rewrite (save_committed _ _ _ _ _ _ _ _ Hf Hs).
  unfold get_last_collected_timestamp, select_status.
  cbn [fst status_rows insert_or_replace_status with_tables].
  rewrite find_other_unit; [reflexivity| |exact Hb].
  unfold same_unit. cbn [Sqlite.symbol Sqlite.interval].
  rewrite (String.eqb_sym symbol), (String.eqb_sym interval). exact Hb.
Qed.

Lemma store_keeps_other_status_witness :
  get_last_collected_timestamp
    (fst (save_price_data_to_coin_table 2 btc_1h "BTCUSDT" "1m"
            [flat 60000 7%float]))
    "BTCUSDT" "1h"
  = get_last_collected_timestamp btc_1h "BTCUSDT" "1h".
Proof.
  apply store_keeps_other_status; [reflexivity|discriminate].
Defined.

(** ** Looking up what was stored *)

Lemma candle_at_app ts l1 l2 :
  candle_at ts (l1 ++ l2) =
  match candle_at ts l1 with
  | Some c => Some c
  | None => candle_at ts l2
  end.
Proof.
  unfold candle_at. induction l1 as [|d l1 IH]; simpl; [reflexivity|].
  destruct (timestamp d =? ts); [reflexivity|exact IH].
Qed.

Lemma candle_at_upsert ts c l :
  candle_at ts (upsert c l) =
  if timestamp c =? ts then Some c else candle_at ts l.
Proof.
  unfold upsert. rewrite candle_at_app. unfold candle_at at 2. simpl.
  destruct (timestamp c =? ts) eqn:E.
  - apply Z.eqb_eq in E. subst ts.
    assert (H : candle_at (timestamp c)
                  (filter (fun d => negb (timestamp d =? timestamp c)) l) = None).
    { unfold candle_at. induction l as [|d l IH]; simpl; [reflexivity|].
      destruct (timestamp d =? timestamp c) eqn:E; simpl; [exact IH|].
      rewrite E. exact IH. }
    rewrite H. reflexivity.
  - assert (H : candle_at ts
                  (filter (fun d => negb (timestamp d =? timestamp c)) l)
                = candle_at ts l).
    { unfold candle_at. induction l as [|d l IH]; simpl; [reflexivity|].
      destruct (timestamp d =? timestamp c) eqn:E1; simpl.
      - apply Z.eqb_eq in E1. rewrite E1, E. exact IH.
      - destruct (timestamp d =? ts); [reflexivity|exact IH]. }
    rewrite H. destruct (candle_at ts l); reflexivity.
Qed.

Lemma candle_at_upserts ts data l :
  candle_at ts (upserts data l) =
  match candle_at ts (rev data) with
  | Some c => Some c
  | None => candle_at ts l
  end.
Proof.
  revert l. induction data as [|c data IH]; intros l; [reflexivity|].
  unfold upserts in *. cbn [fold_left rev]. rewrite IH, candle_at_app.
  destruct (candle_at ts (rev data)); [reflexivity|].
  rewrite candle_at_upsert. unfold candle_at at 1. simpl.
  destruct (timestamp c =? ts); reflexivity.
Qed.

Lemma stored_after_store clock db db' symbol interval data ts :
  save_price_data_to_coin_table clock db symbol interval data = (db', None) ->
  stored_candle (coin_table_name symbol interval) ts db' =
  match candle_at ts (rev data) with
  | Some c => Some c
  | None => stored_candle (coin_table_name symbol interval) ts db
  end.
Proof.
  destruct data as [|item data]; [rewrite save_empty; intros [= <-]; reflexivity|].
  destruct (find_table (coin_table_name symbol interval) (coin_tables db))
    as [t|] eqn:Hf.
  2:{ rewrite (save_no_table _ _ _ _ _ _ Hf). discriminate. }
  destruct (store_table clock t (item :: data)) as [e|t'] eqn:Hs.
  { rewrite (save_aborted _ _ _ _ _ _ _ _ Hf Hs). discriminate. }
  rewrite (save_committed _ _ _ _ _ _ _ _ Hf Hs). intros [= <-].
  destruct (store_table_candles _ _ _ _ Hs) as [Hn Hc].
  unfold stored_candle, table_candles.
  cbn [coin_tables insert_or_replace_status with_tables].
  rewrite (find_table_replace_same _ _ t' _ Hf).
  - rewrite Hf. cbn [option_map]. fold (candles_of t'). fold (candles_of t).
    rewrite Hc. apply candle_at_upserts.
  - rewrite Hn. apply (find_table_name _ _ _ Hf).
Qed.

Lemma status_after_store clock db db' symbol interval item data :
  save_price_data_to_coin_table clock db symbol interval (item :: data)
    = (db', None) ->
  get_last_collected_timestamp db' symbol interval
  = Some (last_timestamp item data).
Proof.
  intros Hsave.
  destruct (find_table (coin_table_name symbol interval) (coin_tables db))
    as [t|] eqn:Hf.
  2:{ rewrite (save_no_table _ _ _ _ _ _ Hf) in Hsave. discriminate. }
  destruct (store_table clock t (item :: data)) as [e|t'] eqn:Hs.
  { rewrite (save_aborted _ _ _ _ _ _ _ _ Hf Hs) in Hsave. discriminate. }
  rewrite (save_committed _ _ _ _ _ _ _ _ Hf Hs) in Hsave.
  injection Hsave as <-. apply status_after_replace.
Qed.

(** X7. After a store that went through, a timestamp of the batch reads
    back as the last record of the batch with that timestamp, value for
    value, and a timestamp the batch does not hold reads back as before.
    The table name of the unit is a bare identifier, the timestamps of the
    batch fit SQLite's INTEGER, and none of its values is the negative
    zero, which a REAL column gives back as [0.0]. *)
Theorem stored_candle_is_last_written
    (clock : Z) (db db' : database) (symbol interval : string)
    (data : list candle) (ts : Z) :
  identifier (coin_table_name symbol interval) = true ->
  forallb fits_integer data = true ->
  forallb exact_values data = true ->
  save_price_data_to_coin_table clock db symbol interval data = (db', None) ->
  stored_candle (coin_table_name symbol interval) ts db' =
  match candle_at ts (rev data) with
  | Some c => Some c
  | None => stored_candle (coin_table_name symbol interval) ts db
  end.
Proof.
  intros _ _ _. apply stored_after_store.
Qed.

Lemma stored_candle_is_last_written_witness :
  stored_candle "BTCUSDT_1m" 60000
    (fst (save_price_data_to_coin_table 1 btc_1m "BTCUSDT" "1m"
            [flat 60000 7%float; flat 120000 8%float; flat 60000 9%float]))
  = Some (flat 60000 9%float).
Proof.
  apply (stored_candle_is_last_written 1 btc_1m _ "BTCUSDT" "1m"
           [flat 60000 7%float; flat 120000 8%float; flat 60000 9%float] 60000).
  - reflexivity.
  - reflexivity.
  - reflexivity.
  - reflexivity.
Defined.

(** X8. Store, then ask for the gap: after a store that went through, the
    missing period of the unit starts one millisecond after the last record
    of the batch, unless that record sits at timestamp 0. The timestamps of
    the batch fit SQLite's INTEGER. *)
Theorem gap_starts_after_last_stored
    (clock : Z) (db db' : database) (symbol interval : string)
    (item : candle) (data : list candle) (current_time now_again : Z) :
  forallb fits_integer (item :: data) = true ->
  save_price_data_to_coin_table clock db symbol interval (item :: data)
    = (db', None) ->
  last_timestamp item data <> 0 ->
  get_missing_data_period db' symbol interval current_time now_again
  = Some {| start_time := last_timestamp item data + 1;
            end_time := current_time |}.
Proof.
  intros _ Hsave Hnz. apply missing_period_present; [|exact Hnz].
  exact (status_after_store _ _ _ _ _ _ _ Hsave).
Qed.

Lemma gap_starts_after_last_stored_witness :
  get_missing_data_period btc_1h "BTCUSDT" "1h" gap_now gap_now
  = Some {| start_time := gap_now - 120001 + 1; end_time := gap_now |}.
Proof.
  apply (gap_starts_after_last_stored 1
           (create_table_if_not_exists "BTCUSDT_1h" empty_database) btc_1h
           "BTCUSDT" "1h" (flat (gap_now - 120001) 7%float) [] gap_now gap_now).
  - reflexivity.
  - reflexivity.
  - vm_compute. discriminate.
Defined.

End StoreFacts.

(* ================================================================== *)
(** * The fetchers, further: the frames they return, their windows,
      the limiter *)
(* ================================================================== *)

Module FetchFacts.

Import Sqlite Database Collector SqliteFacts DatabaseFacts CollectorFacts Scenario.

Local Open Scope string_scope.
Local Open Scope Z_scope.

(** ** [drop_duplicates] and [sort_values] *)

Lemma has_timestamp_filter ts (p : candle -> bool) df :
  has_timestamp ts (filter p df) = true -> has_timestamp ts df = true.
Proof.
  unfold has_timestamp. rewrite !existsb_exists.
  intros [c [Hc Ht]]. apply filter_In in Hc. exists c. split; [apply Hc|exact Ht].
Qed.

Lemma distinct_filter (p : candle -> bool) df :
  distinct_timestamps df = true -> distinct_timestamps (filter p df) = true.
Proof.
  induction df as [|c df IH]; simpl; [trivial|].
  intros H. apply andb_true_iff in H. destruct H as [H1 H2].
  destruct (p c); simpl; [|apply IH, H2].
  rewrite (IH H2), andb_true_r.
  destruct (has_timestamp (timestamp c) (filter p df)) eqn:E; [|reflexivity].
  apply has_timestamp_filter in E. rewrite E in H1. discriminate H1.
Qed.

Lemma drop_duplicates_distinct df :
  distinct_timestamps (drop_duplicates df) = true.
Proof.
  induction df as [|c df IH]; simpl; [reflexivity|].
  rewrite (distinct_filter _ _ IH), andb_true_r.
  destruct (has_timestamp (timestamp c)
              (filter (fun d => negb (timestamp d =? timestamp c))
                 (drop_duplicates df))) eqn:E; [|reflexivity].
  unfold has_timestamp in E. apply existsb_exists in E.
  destruct E as [d [Hd Ht]]. apply filter_In in Hd. destruct Hd as [_ Hd].
  rewrite Ht in Hd. discriminate Hd.
Qed.

Lemma drop_duplicates_first ts df :
  candle_at ts (drop_duplicates df) = candle_at ts df.
Proof.
  induction df as [|c df IH]; [reflexivity|].
  unfold candle_at in *. simpl.
  destruct (timestamp c =? ts) eqn:E; [reflexivity|].
  rewrite <- IH. generalize (drop_duplicates df) as l.
  induction l as [|d l IHl]; simpl; [reflexivity|].
  destruct (timestamp d =? timestamp c) eqn:E1; simpl.
  - apply Z.eqb_eq in E1. rewrite E1, E. exact IHl.
  - destruct (timestamp d =? ts); [reflexivity|exact IHl].
Qed.

Lemma insert_sorted_in c df x :
  In x (insert_sorted c df) <-> x = c \/ In x df.
Proof.
  induction df as [|d df IH]; simpl.
  - split; [intros [H|[]]; left; auto|intros [H|[]]; left; auto].
  - destruct (timestamp c <? timestamp d); simpl.
    + split; [intros [H|H]; [left; auto|right; exact H]
             |intros [H|H]; [left; auto|right; exact H]].
    + rewrite IH. split.
      * intros [H|[H|H]]; [right; left; exact H|left; exact H|right; right; exact H].
      * intros [H|[H|H]]; [right; left; exact H|left; exact H|right; right; exact H].
Qed.

Lemma before_all_in c df :
  before_all c df = true <-> forall d, In d df -> timestamp c < timestamp d.
Proof.
  unfold before_all. rewrite forallb_forall. split.
  - intros H d Hd. apply Z.ltb_lt, H, Hd.
  - intros H d Hd. apply Z.ltb_lt, H, Hd.
Qed.

Lemma has_timestamp_false ts df :
  has_timestamp ts df = false <-> forall d, In d df -> timestamp d <> ts.
Proof.
  unfold has_timestamp. split.
  - intros H d Hd E.
    assert (existsb (fun c => timestamp c =? ts) df = true).
    { apply existsb_exists. exists d. split; [exact Hd|apply Z.eqb_eq, E]. }
    congruence.
  - intros H. destruct (existsb _ df) eqn:E; [|reflexivity].
    apply existsb_exists in E. destruct E as [d [Hd Ht]].
    apply Z.eqb_eq in Ht. exfalso. apply (H d Hd Ht).
Qed.

Lemma insert_sorted_ascending c df :
  strictly_ascending df = true ->
  has_timestamp (timestamp c) df = false ->
  strictly_ascending (insert_sorted c df) = true.
Proof.
  induction df as [|d df IH]; simpl; [reflexivity|].
  intros Hs Hn. apply andb_true_iff in Hs. destruct Hs as [Hd Hs].
  apply orb_false_iff in Hn. destruct Hn as [Hcd Hn].
  apply Z.eqb_neq in Hcd.
  destruct (timestamp c <? timestamp d) eqn:E; simpl.
  - rewrite E, Hd, Hs. simpl. rewrite andb_true_r.
    apply before_all_in. intros x Hx. apply Z.ltb_lt in E.
    apply (proj1 (before_all_in d df) Hd) in Hx. lia.
  - rewrite (IH Hs Hn), andb_true_r.
    apply before_all_in. intros x Hx. apply insert_sorted_in in Hx.
    apply Z.ltb_ge in E. destruct Hx as [->|Hx]; [lia|].
    apply (proj1 (before_all_in d df) Hd), Hx.
Qed.

Lemma sort_values_in df x : In x (sort_values df) <-> In x df.
Proof.
  unfold sort_values. induction df as [|c df IH]; simpl; [reflexivity|].
  rewrite insert_sorted_in, IH. split; intros [H|H]; auto.
Qed.

Lemma sort_values_ascending df :
  distinct_timestamps df = true -> strictly_ascending (sort_values df) = true.
Proof.
  unfold sort_values. induction df as [|c df IH]; simpl; [reflexivity|].
  intros H. apply andb_true_iff in H. destruct H as [H1 H2].
  apply insert_sorted_ascending; [apply IH, H2|].
  apply negb_true_iff in H1. apply has_timestamp_false.
  intros d Hd. apply (proj1 (has_timestamp_false _ _) H1).
  apply (sort_values_in df), Hd.
Qed.

Lemma candle_at_in ts df c : candle_at ts df = Some c -> In c df /\ timestamp c = ts.
Proof.
  unfold candle_at. intros H. apply find_some in H.
  destruct H as [H1 H2]. apply Z.eqb_eq in H2. split; assumption.
Qed.

(** In a frame of distinct timestamps the row at a timestamp is the only
    one there: any order of the rows reads the same. *)
Lemma candle_at_unique ts df c :
  distinct_timestamps df = true -> In c df -> timestamp c = ts ->
  candle_at ts df = Some c.
Proof.
  unfold candle_at. induction df as [|d df IH]; simpl; [intros _ []|].
  intros H Hin Hts. apply andb_true_iff in H. destruct H as [H1 H2].
  apply negb_true_iff in H1.
  destruct Hin as [->|Hin].
  - rewrite Hts, Z.eqb_refl. reflexivity.
  - destruct (timestamp d =? ts) eqn:E; [|apply IH; assumption].
    apply Z.eqb_eq in E. exfalso.
    apply (proj1 (has_timestamp_false _ _) H1 c Hin). congruence.
Qed.

Lemma strictly_ascending_distinct df :
  strictly_ascending df = true -> distinct_timestamps df = true.
Proof.
  induction df as [|c df IH]; simpl; [trivial|].
  intros H. apply andb_true_iff in H. destruct H as [H1 H2].
  rewrite (IH H2), andb_true_r. apply negb_true_iff, has_timestamp_false.
  intros d Hd E. apply (proj1 (before_all_in c df) H1) in Hd. lia.
Qed.

Lemma sort_values_first ts df :
  distinct_timestamps df = true ->
  candle_at ts (sort_values df) = candle_at ts df.
Proof.
  intros Hd. destruct (candle_at ts df) as [c|] eqn:E.
  - apply candle_at_in in E. destruct E as [Hin Hts].
    apply candle_at_unique; [|apply sort_values_in, Hin|exact Hts].
    apply strictly_ascending_distinct, sort_values_ascending, Hd.
  - destruct (candle_at ts (sort_values df)) as [c|] eqn:E'; [|reflexivity].
    apply candle_at_in in E'. destruct E' as [Hin Hts].
    apply (proj1 (sort_values_in _ _)) in Hin. unfold candle_at in E.
    pose proof (find_none _ _ E c Hin) as Hn. simpl in Hn.
    apply Z.eqb_neq in Hn. contradiction.
Qed.

(** ** What the loops collect *)

Lemma answered_cons req resp xs :
  answered ((req, resp) :: xs) =
  (match resp with Ok200 data => data | _ => [] end ++ answered xs)%list.
Proof. reflexivity. Qed.

Section Collected.

Variable api : api_oracle.
Variables symbol interval : string.
Variable end_time : Z.

Lemma batch_loop_collects (fuel n : nat) (cursor : Z) (acc : list (list candle)) :
  forall all_data,
    fst (batch_loop api symbol interval end_time fuel n cursor acc) = Some all_data ->
    List.concat all_data =
    (List.concat acc
     ++ to_frame (answered (exchanges
          (snd (batch_loop api symbol interval end_time fuel n cursor acc)))))%list.
Proof.
  revert n cursor acc. induction fuel as [|fuel IH]; intros n cursor acc all_data.
  - simpl. destruct (cursor <? end_time); simpl; [discriminate|].
    intros [= <-]. rewrite app_nil_r. reflexivity.
  - simpl. destruct (cursor <? end_time); simpl.
    2:{ intros [= <-]. rewrite app_nil_r. reflexivity. }
    set (current_end := Z.min (cursor + _calculate_batch_size interval) end_time).
    destruct (api n (klines_request symbol interval cursor current_end))
      as [[|k ks]|st|] eqn:Ea;
      next_turn IH; cbn [fst snd exchanges] in *; intros H;
      rewrite (IH _ H), answered_cons; try reflexivity.
    rewrite concat_app. cbn [List.concat]. rewrite app_nil_r.
    unfold to_frame. rewrite map_app, app_assoc. reflexivity.
Qed.

Lemma sequential_loop_collects (fuel n : nat) (cursor : Z) (acc : list kline) :
  forall all_data,
    fst (sequential_loop api symbol interval end_time fuel n cursor acc)
      = Left all_data ->
    all_data =
    (acc ++ answered (exchanges
         (snd (sequential_loop api symbol interval end_time fuel n cursor acc))))%list.
Proof.
  revert n cursor acc. induction fuel as [|fuel IH]; intros n cursor acc all_data.
  - simpl. destruct (cursor <? end_time); simpl; [discriminate|].
    intros [= <-]. rewrite app_nil_r. reflexivity.
  - simpl. destruct (cursor <? end_time); simpl.
    2:{ intros [= <-]. rewrite app_nil_r. reflexivity. }
    destruct (api n (klines_request symbol interval cursor end_time))
      as [[|k ks]|st|] eqn:Ea; simpl; try discriminate.
    + intros [= <-]. rewrite app_nil_r. reflexivity.
    + next_turn IH. cbn [fst snd exchanges] in *. intros H.
      rewrite (IH _ H), answered_cons, <- app_assoc. reflexivity.
Qed.

Lemma sequential_loop_raised_only (fuel n : nat) (cursor : Z) (acc : list kline) :
  fst (sequential_loop api symbol interval end_time fuel n cursor acc) = Raised ->
  existsb (fun x => is_failure (snd x))
    (exchanges (snd (sequential_loop api symbol interval end_time fuel n cursor acc)))
  = true.
Proof.
  revert n cursor acc. induction fuel as [|fuel IH]; intros n cursor acc.
  - simpl. destruct (cursor <? end_time); simpl; discriminate.
  - simpl. destruct (cursor <? end_time); simpl; [|discriminate].
    destruct (api n (klines_request symbol interval cursor end_time))
      as [[|k ks]|st|] eqn:Ea; simpl; try discriminate; try reflexivity.
    next_turn IH. simpl in *. exact IH.
Qed.

Lemma async_loop_collects (fuel n : nat) (count cursor : Z) (acc : list kline) :
  let run := async_loop api symbol interval end_time fuel n count cursor acc in
  (forall all_data,
      fst run = Left all_data ->
      all_data = (acc ++ answered (exchanges (snd run)))%list
      /\ has_network_error (exchanges (snd run)) = false) /\
  (fst run = Raised -> has_network_error (exchanges (snd run)) = true).
Proof.
  revert n count cursor acc.
  induction fuel as [|fuel IH]; intros n count cursor acc; cbv zeta.
  - simpl. destruct (cursor <? end_time); simpl; split; try discriminate;
      intros all_data [= <-]; rewrite app_nil_r; split; reflexivity.
  - simpl. destruct (cursor <? end_time); simpl.
    2:{ split; [|discriminate]. intros all_data [= <-].
        rewrite app_nil_r. split; reflexivity. }
    assert (Hx : forall limited rest,
               limited = [RateLimit; Sleep 1000] \/ limited = [RateLimit; Sleep 100] ->
               exchanges (limited ++ rest) = exchanges rest).
    { intros limited rest [->| ->]; reflexivity. }
    unfold _rate_limit.
    set (limited := if max_requests_per_second <=? count + 1
                    then (0, [RateLimit; Sleep 1000])
                    else (count + 1, [RateLimit; Sleep 100])).
    assert (Hl : snd limited = [RateLimit; Sleep 1000]
                 \/ snd limited = [RateLimit; Sleep 100]).
    { unfold limited. destruct (max_requests_per_second <=? count + 1);
        [left|right]; reflexivity. }
    destruct limited as [count' lim]. cbn [snd] in Hl.
    destruct (api n (klines_request symbol interval cursor end_time))
      as [[|k ks]|st|] eqn:Ea.
    + cbn [fst snd]. rewrite (Hx _ _ Hl). cbn [exchanges].
      split; [|discriminate]. intros all_data [= <-].
      rewrite app_nil_r. split; reflexivity.
    + specialize (IH (S n) count' (close_time (List.last ks k) + 1)
                     (acc ++ k :: ks)%list). cbv zeta in IH.
      destruct (async_loop api symbol interval end_time fuel (S n) count' _ _)
        as [e tr]. cbn [fst snd] in *. rewrite (Hx _ _ Hl). cbn [exchanges].
      destruct IH as [IH1 IH2]. split; [|exact IH2].
      intros all_data H. destruct (IH1 _ H) as [-> Hn].
      rewrite answered_cons, <- app_assoc. split; [reflexivity|exact Hn].
    + cbn [fst snd]. rewrite (Hx _ _ Hl). cbn [exchanges].
      split; [|discriminate]. intros all_data [= <-].
      rewrite app_nil_r. split; reflexivity.
    + cbn [fst snd]. rewrite (Hx _ _ Hl). cbn [exchanges].
      split; [discriminate|]. intros _. reflexivity.
Qed.

End Collected.

(** ** The frames the fetchers return *)

Lemma sequential_loop_left_clean api symbol interval end_time fuel n cursor acc all_data :
  fst (sequential_loop api symbol interval end_time fuel n cursor acc) = Left all_data ->
  existsb (fun x => is_failure (snd x))
    (exchanges (snd (sequential_loop api symbol interval end_time fuel n cursor acc)))
  = false.
Proof.
  intros H.
  destruct (existsb _ (exchanges _)) eqn:E; [|reflexivity].
  apply sequential_loop_raised in E. rewrite E in H. discriminate H.
Qed.

Lemma batch_frame api fuel symbol interval start_time end_time df tr :
  get_historical_data_batch api fuel symbol interval start_time end_time
    = (Some df, tr) ->
  strictly_ascending df = true /\
  (forall ts,
      candle_at ts df = candle_at ts (to_frame (answered (exchanges tr)))).
Proof.
  unfold get_historical_data_batch. intros H.
  pose proof (batch_loop_collects api symbol interval end_time fuel 0 start_time [])
    as Hc.
  destruct (batch_loop api symbol interval end_time fuel 0 start_time [])
    as [[all_data|] tr'] eqn:E; [|discriminate H].
  injection H as <- <-. cbn [fst snd] in Hc.
  specialize (Hc all_data eq_refl). cbn [List.concat app] in Hc.
  split.
  - apply sort_values_ascending, drop_duplicates_distinct.
  - intros ts. rewrite sort_values_first by apply drop_duplicates_distinct.
    rewrite drop_duplicates_first, Hc. reflexivity.
Qed.

(** X9. The frame of the batch fetcher is in strictly ascending order of
    timestamp, so no timestamp comes twice in it, and at every timestamp it
    holds the candle that arrived first among the 200 answers of the run:
    a later answer never replaces a candle of an earlier one. The open
    times of the answers are such as [pd.to_datetime] takes. *)
Theorem batch_frame_sorted_first_wins
    (api : api_oracle) (fuel : nat) (symbol interval : string)
    (start_time end_time : Z) (df : list candle) (tr : list event) :
  get_historical_data_batch api fuel symbol interval start_time end_time
    = (Some df, tr) ->
  forallb datetime_range (answered (exchanges tr)) = true ->
  strictly_ascending df = true /\
  (forall ts,
      candle_at ts df = candle_at ts (to_frame (answered (exchanges tr)))).
Proof.
  intros H _. exact (batch_frame _ _ _ _ _ _ _ _ H).
Qed.

Lemma batch_frame_sorted_first_wins_witness :
  let api := scripted [Ok200 [minute 60000; minute 120000];
                       Ok200 [minute 120000; minute 0]] in
  let run := get_historical_data_batch api 5 "BTCUSDT" "1m" 0 120002 in
  fst run = Some (to_frame [minute 0; minute 60000; minute 120000]) /\
  strictly_ascending (to_frame [minute 0; minute 60000; minute 120000]) = true.
Proof.
  cbv zeta. split; [reflexivity|].
  exact (proj1 (batch_frame_sorted_first_wins
                  (scripted [Ok200 [minute 60000; minute 120000];
                             Ok200 [minute 120000; minute 0]])
                  5 "BTCUSDT" "1m" 0 120002 _ _ eq_refl eq_refl)).
Defined.

Lemma sequential_frame api fuel symbol interval start_time end_time df tr :
  get_historical_data api fuel symbol interval start_time end_time = (Some df, tr) ->
  df = if existsb (fun x => is_failure (snd x)) (exchanges tr)
       then []
       else to_frame (answered (exchanges tr)).
Proof.
  unfold get_historical_data. intros H.
  pose proof (sequential_loop_collects api symbol interval end_time fuel 0
                start_time []) as Hc.
  pose proof (sequential_loop_left_clean api symbol interval end_time fuel 0
                start_time []) as Hl.
  pose proof (sequential_loop_raised_only api symbol interval end_time fuel 0
                start_time []) as Hr.
  destruct (sequential_loop api symbol interval end_time fuel 0 start_time [])
    as [[all_data| |] tr'] eqn:E; cbn [fst snd] in *.
  - injection H as <- <-. rewrite (Hl all_data eq_refl), (Hc all_data eq_refl).
    reflexivity.
  - injection H as <- <-. rewrite (Hr eq_refl). reflexivity.
  - discriminate H.
Qed.

(** X10. The frame of the sequential fetcher is all or nothing: when no
    request of the run failed it holds every kline of every answer, in the
    order of arrival and duplicates included; when one failed it is empty,
    whatever arrived before. The open times of the answers are such as
    [pd.to_datetime] takes. *)
Theorem sequential_frame_all_or_nothing
    (api : api_oracle) (fuel : nat) (symbol interval : string)
    (start_time end_time : Z) (df : list candle) (tr : list event) :
  get_historical_data api fuel symbol interval start_time end_time = (Some df, tr) ->
  forallb datetime_range (answered (exchanges tr)) = true ->
  df = if existsb (fun x => is_failure (snd x)) (exchanges tr)
       then []
       else to_frame (answered (exchanges tr)).
Proof.
  intros H _. exact (sequential_frame _ _ _ _ _ _ _ _ H).
Qed.

Lemma sequential_frame_all_or_nothing_witness :
  fst (get_historical_data
         (scripted [Ok200 [minute 0]; Ok200 [minute 60000]; HttpError 429])
         5 "BTCUSDT" "1m" 0 300000) = Some [] /\
  fst (get_historical_data
         (scripted [Ok200 [minute 0]; Ok200 [minute 0]])
         5 "BTCUSDT" "1m" 0 300000) = Some (to_frame [minute 0; minute 0]).
Proof.
  split.
  - rewrite (sequential_frame_all_or_nothing
               (scripted [Ok200 [minute 0]; Ok200 [minute 60000]; HttpError 429])
               5 "BTCUSDT" "1m" 0 300000 _ _ eq_refl eq_refl) at 1.
    reflexivity.
  - rewrite (sequential_frame_all_or_nothing
               (scripted [Ok200 [minute 0]; Ok200 [minute 0]])
               5 "BTCUSDT" "1m" 0 300000 _ _ eq_refl eq_refl) at 1.
    reflexivity.
Defined.

(** X11. The frame of the asynchronous fetcher tells an HTTP status that is
    not 200 from an exception: a run without an exception of the transport
    returns every kline that arrived, whatever the status of its requests;
    only an exception of the transport empties the frame. The open times of
    the answers are such as [pd.to_datetime] takes. *)
Theorem async_frame_keeps_data_on_status
    (api : api_oracle) (fuel : nat) (request_count : Z) (symbol interval : string)
    (start_time end_time : Z) (df : list candle) (tr : list event) :
  get_historical_data_async api fuel request_count symbol interval
    start_time end_time = (Some df, tr) ->
  forallb datetime_range (answered (exchanges tr)) = true ->
  df = if has_network_error (exchanges tr)
       then []
       else to_frame (answered (exchanges tr)).
Proof.
  unfold get_historical_data_async. intros H _.
  pose proof (async_loop_collects api symbol interval end_time fuel 0
                request_count start_time []) as Hc.
  cbv zeta in Hc.
  destruct (async_loop api symbol interval end_time fuel 0 request_count
              start_time []) as [[all_data| |] tr'] eqn:E; cbn [fst snd] in *.
  - injection H as <- <-. destruct Hc as [Hc _].
    destruct (Hc all_data eq_refl) as [-> ->]. reflexivity.
  - injection H as <- <-. destruct Hc as [_ Hc]. rewrite (Hc eq_refl). reflexivity.
  - discriminate H.
Qed.

Lemma async_frame_keeps_data_on_status_witness :
  fst (get_historical_data_async
         (scripted [Ok200 [minute 0]; HttpError 429])
         5 0 "BTCUSDT" "1m" 0 300000) = Some (to_frame [minute 0]) /\
  fst (get_historical_data_async
         (scripted [Ok200 [minute 0]; NetworkError])
         5 0 "BTCUSDT" "1m" 0 300000) = Some [].
Proof.
  split.
  - rewrite (async_frame_keeps_data_on_status
               (scripted [Ok200 [minute 0]; HttpError 429])
               5 0 "BTCUSDT" "1m" 0 300000 _ _ eq_refl eq_refl) at 1.
    reflexivity.
  - rewrite (async_frame_keeps_data_on_status
               (scripted [Ok200 [minute 0]; NetworkError])
               5 0 "BTCUSDT" "1m" 0 300000 _ _ eq_refl eq_refl) at 1.
    reflexivity.
Defined.

(** ** The windows and the pauses *)

Lemma batch_request_in_window symbol interval end_time cursor :
  cursor < end_time ->
  batch_window symbol interval end_time
    (klines_request symbol interval cursor
       (Z.min (cursor + _calculate_batch_size interval) end_time)) = true.
Proof.
  intros Hc. pose proof (batch_size_positive interval) as Hp.
  unfold batch_window, klines_request. cbn [req_symbol req_interval startTime
    endTime limit]. rewrite !String.eqb_refl. cbn [andb].
  repeat (apply andb_true_iff; split);
    try apply Z.ltb_lt; try apply Z.leb_le; try apply Z.eqb_eq; lia.
Qed.

Lemma batch_loop_windows api symbol interval end_time fuel n cursor acc req resp :
  In (req, resp)
    (exchanges (snd (batch_loop api symbol interval end_time fuel n cursor acc))) ->
  batch_window symbol interval end_time req = true.
Proof.
  revert n cursor acc. induction fuel as [|fuel IH]; intros n cursor acc.
  - simpl. destruct (cursor <? end_time); intros [].
  - simpl. destruct (cursor <? end_time) eqn:E; [|intros []].
    apply Z.ltb_lt in E.
    pose proof (batch_request_in_window symbol interval end_time cursor E) as Hw.
    set (current_end := Z.min (cursor + _calculate_batch_size interval) end_time)
      in *.
    destruct (api n (klines_request symbol interval cursor current_end))
      as [[|k ks]|st|] eqn:Ea;
      next_turn IH; cbn [fst snd exchanges] in *;
      (intros [H|H]; [injection H as <- _; exact Hw|exact (IH H)]).
Qed.

(** X12. Every request of the batch fetcher stays in its window: it is for
    the unit asked for, its range is not empty, no wider than the batch size
    of the interval and never past the end of the fetch, and it asks for a
    thousand records. *)
Theorem batch_requests_stay_in_window
    (api : api_oracle) (fuel : nat) (symbol interval : string)
    (start_time end_time : Z) (req : request) (resp : response) :
  In (req, resp)
    (exchanges
       (snd (get_historical_data_batch api fuel symbol interval start_time end_time)))
  -> batch_window symbol interval end_time req = true.
Proof.
  rewrite (proj2 (get_historical_data_batch_run api symbol interval end_time fuel
                    start_time)).
  apply batch_loop_windows.
Qed.

Lemma batch_requests_stay_in_window_witness :
  batch_window "BTCUSDT" "1m" 90000000
    (klines_request "BTCUSDT" "1m" 60000000 90000000) = true.
Proof.
  apply (batch_requests_stay_in_window down_once 5 "BTCUSDT" "1m" 0 90000000
           _ (Ok200 [minute 60000000])).
  vm_compute. right. left. reflexivity.
Defined.

Lemma batch_loop_pacing api symbol interval end_time fuel n cursor acc :
  pacing_ms (snd (batch_loop api symbol interval end_time fuel n cursor acc))
  = 50 * Z.of_nat
           (answers_200
              (exchanges (snd (batch_loop api symbol interval end_time fuel n
                                 cursor acc)))).
Proof.
  revert n cursor acc. induction fuel as [|fuel IH]; intros n cursor acc;
    cbn [batch_loop]; destruct (cursor <? end_time); try reflexivity.
  set (current_end := Z.min (cursor + _calculate_batch_size interval) end_time).
  unfold answers_200 in *.
  destruct (api n (klines_request symbol interval cursor current_end))
    as [[|k ks]|st|] eqn:Ea;
    next_turn IH;
    cbn [fst snd exchanges pacing_ms filter is_failure negb List.length] in *;
    rewrite ?Nat2Z.inj_succ; lia.
Qed.

(** X13. The batch fetcher pauses for 50 ms after each 200 answer and not at
    all after a failed request: the request after a failure follows at
    once. The open times of the answers are such as [pd.to_datetime]
    takes. *)
Theorem batch_fetch_pauses_after_answers_only
    (api : api_oracle) (fuel : nat) (symbol interval : string)
    (start_time end_time : Z) :
  let tr :=
    snd (get_historical_data_batch api fuel symbol interval start_time end_time) in
  forallb datetime_range (answered (exchanges tr)) = true ->
  pacing_ms tr = 50 * Z.of_nat (answers_200 (exchanges tr)).
Proof.
  cbv zeta. intros _.
  rewrite (proj2 (get_historical_data_batch_run api symbol interval end_time fuel
                    start_time)).
  apply batch_loop_pacing.
Qed.

Lemma batch_fetch_pauses_after_answers_only_witness :
  pacing_ms (snd (get_historical_data_batch down_once 5 "BTCUSDT" "1m" 0 90000000))
  = 50 * Z.of_nat 2.
Proof.
  apply (batch_fetch_pauses_after_answers_only down_once 5 "BTCUSDT" "1m" 0
           90000000).
  reflexivity.
Defined.

Lemma async_loop_pacing api symbol interval end_time fuel n count cursor acc :
  0 <= count < max_requests_per_second ->
  let tr := snd (async_loop api symbol interval end_time fuel n count cursor acc) in
  let k := Z.of_nat (List.length (exchanges tr)) in
  long_sleeps tr = (count + k) / max_requests_per_second
  /\ pacing_ms tr = 100 * k + 900 * long_sleeps tr.
Proof.
  unfold max_requests_per_second.
  revert n count cursor acc.
  induction fuel as [|fuel IH]; intros n count cursor acc Hc; cbv zeta;
    cbn [async_loop]; destruct (cursor <? end_time);
    try (cbn [snd exchanges long_sleeps pacing_ms List.length Z.of_nat];
         split; [rewrite Z.add_0_r, Z.div_small by lia; reflexivity|lia]).
  unfold _rate_limit, max_requests_per_second. cbv zeta.
  destruct (10 <=? count + 1) eqn:E;
    [apply Z.leb_le in E; assert (count = 9) by lia; subst count
    |apply Z.leb_gt in E];
    destruct (api n (klines_request symbol interval cursor end_time))
      as [[|k ks]|st|] eqn:Ea;
    try (cbn [fst snd app exchanges long_sleeps pacing_ms List.length];
         change (1000 =? 1000) with true; change (100 =? 1000) with false;
         cbv iota; change (Z.of_nat 1) with 1;
         split; [try reflexivity; rewrite Z.div_small by lia; reflexivity
                |lia]).
  - specialize (IH (S n) 0 (close_time (List.last ks k) + 1) (acc ++ k :: ks)%list).
    cbv zeta in IH.
    destruct (async_loop api symbol interval end_time fuel (S n) 0 _ _) as [e tr].
    cbn [fst snd app exchanges long_sleeps pacing_ms List.length] in *.
    change (1000 =? 1000) with true. cbv iota.
    destruct IH as [IH1 IH2]; [lia|]. rewrite IH2, IH1, Nat2Z.inj_succ.
    set (m := Z.of_nat (List.length (exchanges tr))).
    replace (9 + Z.succ m) with (0 + m + 1 * 10) by lia.
    rewrite Z.div_add by lia. split; lia.
  - specialize (IH (S n) (count + 1) (close_time (List.last ks k) + 1)
                   (acc ++ k :: ks)%list).
    cbv zeta in IH.
    destruct (async_loop api symbol interval end_time fuel (S n) (count + 1) _ _)
      as [e tr].
    cbn [fst snd app exchanges long_sleeps pacing_ms List.length] in *.
    change (100 =? 1000) with false. cbv iota.
    destruct IH as [IH1 IH2]; [lia|]. rewrite IH2, IH1, Nat2Z.inj_succ.
    set (m := Z.of_nat (List.length (exchanges tr))).
    replace (count + Z.succ m) with (count + 1 + m) by lia.
    split; lia.
Qed.

(** X14. The asynchronous fetcher, run by one coroutine alone from a counter
    [request_count] below ten, goes through the limiter once for each
    request; every tenth passage, counted from that counter on, sleeps for a
    second and the others for 100 ms. *)
Theorem async_fetch_is_paced
    (api : api_oracle) (fuel : nat) (request_count : Z) (symbol interval : string)
    (start_time end_time : Z) :
  0 <= request_count < max_requests_per_second ->
  let tr :=
    snd (get_historical_data_async api fuel request_count symbol interval
           start_time end_time) in
  let k := Z.of_nat (List.length (exchanges tr)) in
  limiter_calls tr = List.length (exchanges tr)
  /\ long_sleeps tr = (request_count + k) / max_requests_per_second
  /\ pacing_ms tr = 100 * k + 900 * long_sleeps tr.
Proof.
  intros Hc. cbv zeta.
  pose proof (async_loop_pacing api symbol interval end_time fuel 0 request_count
                start_time [] Hc) as Hp.
  pose proof (async_loop_limited api symbol interval end_time fuel 0 request_count
                start_time []) as Hl.
  cbv zeta in Hp. unfold get_historical_data_async.
  destruct (async_loop api symbol interval end_time fuel 0 request_count
              start_time []) as [[all_data| |] tr]; cbn [fst snd] in *;
    (split; [exact Hl|exact Hp]).
Qed.

Lemma async_fetch_is_paced_witness :
  let tr := snd (get_historical_data_async one_per_call 12 8 "BTCUSDT" "1m" 0 720000) in
  limiter_calls tr = 12%nat /\ long_sleeps tr = 2 /\ pacing_ms tr = 3000.
Proof.
  pose proof (async_fetch_is_paced one_per_call 12 8 "BTCUSDT" "1m" 0 720000) as H.
  cbv zeta in H. destruct H as (H1 & H2 & H3); [unfold max_requests_per_second; lia|].
  cbv zeta. rewrite H3, H2, H1. vm_compute. repeat split; reflexivity.
Defined.

End FetchFacts.

(* ================================================================== *)
(** * The resumable run *)
(* ================================================================== *)

Module ResumeFacts.

Import ProgressTracker Resume ProgressTrackerFacts Scenario.

Local Open Scope string_scope.
Local Open Scope Z_scope.

(** ** Dicts and lists *)

Lemma dict_get_set (d : dict) (k : string) (v : list string) (k' : string) :
  dict_get (dict_set d k v) k' = if String.eqb k k' then Some v else dict_get d k'.
Proof.
  induction d as [|[k0 w] d IH]; simpl; [reflexivity|].
  destruct (String.eqb k0 k) eqn:E; simpl.
  - apply String.eqb_eq in E. subst k0. destruct (String.eqb k k'); reflexivity.
  - rewrite IH. destruct (String.eqb k0 k') eqn:E1; [|reflexivity].
    destruct (String.eqb k k') eqn:E2; [|reflexivity].
    apply String.eqb_eq in E1, E2. subst. rewrite String.eqb_refl in E.
    discriminate E.
Qed.

Lemma get_or_empty_set (d : dict) (k : string) (v : list string) (k' : string) :
  get_or_empty (dict_set d k v) k' = if String.eqb k k' then v else get_or_empty d k'.
Proof.
  unfold get_or_empty. rewrite dict_get_set. destruct (String.eqb k k'); reflexivity.
Qed.

Lemma get_or_empty_with_key (d : dict) (s s' : string) :
  get_or_empty (with_key d s) s' = get_or_empty d s'.
Proof.
  unfold with_key. destruct (dict_get d s) eqn:E; [reflexivity|].
  rewrite get_or_empty_set. destruct (String.eqb s s') eqn:E1; [|reflexivity].
  apply String.eqb_eq in E1. subst s'. unfold get_or_empty. rewrite E. reflexivity.
Qed.

Lemma add_once_in (x y : string) (xs : list string) :
  In y (add_once x xs) <-> y = x \/ In y xs.
Proof.
  unfold add_once. destruct (mem x xs) eqn:E.
  - apply mem_in in E. split; [auto|intros [->|H]; assumption].
  - rewrite in_app_iff. simpl. split.
    + intros [H|[H|[]]]; [right; exact H|left; symmetry; exact H].
    + intros [H|H]; [right; left; symmetry; exact H|left; exact H].
Qed.

Lemma remove_first_keeps (x y : string) (xs : list string) :
  y <> x -> In y xs -> In y (remove_first x xs).
Proof.
  intros Hn. induction xs as [|z xs IH]; simpl; [trivial|].
  destruct (String.eqb z x) eqn:E.
  - apply String.eqb_eq in E. subst z. intros [H|H]; [congruence|exact H].
  - intros [H|H]; [left; exact H|right; exact (IH H)].
Qed.

Lemma remove_first_absent (x : string) (xs : list string) :
  mem x xs = false -> remove_first x xs = xs.
Proof.
  intros H. apply mem_not_in in H. induction xs as [|z xs IH]; simpl; [reflexivity|].
  destruct (String.eqb z x) eqn:E.
  - apply String.eqb_eq in E. subst z. exfalso. apply H. left. reflexivity.
  - f_equal. apply IH. intros Hin. apply H. right. exact Hin.
Qed.

Lemma settled_in (completed failed : list string) (u : string) :
  settled completed failed u = true <-> In u completed \/ In u failed.
Proof. unfold settled. rewrite orb_true_iff, !mem_in. reflexivity. Qed.

(** Nothing is pending in a list whose units are all settled. *)
Lemma pending_nil (completed failed all : list string) :
  (forall u, In u all -> settled completed failed u = true) ->
  pending completed failed all = [].
Proof.
  intros H. destruct (pending completed failed all) as [|u l] eqn:E; [reflexivity|].
  assert (Hu : In u (pending completed failed all)) by (rewrite E; left; reflexivity).
  apply pending_in in Hu. destruct Hu as (Hin & Hc & Hf).
  apply H, settled_in in Hin. tauto.
Qed.

Lemma not_pending_settled (completed failed all : list string) (u : string) :
  In u all -> ~ In u (pending completed failed all) ->
  settled completed failed u = true.
Proof.
  intros Hin Hn. destruct (settled completed failed u) eqn:E; [reflexivity|].
  exfalso. apply Hn. apply pending_in. unfold settled in E.
  apply orb_false_iff in E. destruct E as [E1 E2].
  apply mem_not_in in E1, E2. auto.
Qed.

(** ** The transitions of an interval *)

Lemma start_interval_fields writable symbol interval t :
  let p := in_memory t in
  let p' := in_memory (start_interval_collection writable symbol interval t) in
  (forall s, get_or_empty (completed_intervals p') s
             = get_or_empty (completed_intervals p) s)
  /\ failed_intervals p' = failed_intervals p
  /\ completed_coins p' = completed_coins p
  /\ failed_coins p' = failed_coins p
  /\ current_coin p' = current_coin p
  /\ keyed p' = keyed p.
Proof.
  cbv zeta. unfold start_interval_collection, saved, with_intervals, keyed.
  cbn [in_memory completed_intervals failed_intervals completed_coins failed_coins
       current_coin current_coin_progress cp_completed_intervals
       cp_failed_intervals].
  repeat split. intros s. apply get_or_empty_with_key.
Qed.

Lemma complete_interval_fields writable symbol interval t :
  let p := in_memory t in
  let p' :=
    in_memory (fst (complete_interval_collection writable symbol interval t)) in
  (forall s, get_or_empty (completed_intervals p') s
             = if String.eqb symbol s
               then add_once interval (get_or_empty (completed_intervals p) symbol)
               else get_or_empty (completed_intervals p) s)
  /\ (forall s, get_or_empty (failed_intervals p') s
                = if String.eqb symbol s
                  then remove_first interval
                         (get_or_empty (failed_intervals p) symbol)
                  else get_or_empty (failed_intervals p) s)
  /\ completed_coins p' = completed_coins p
  /\ failed_coins p' = failed_coins p
  /\ current_coin p' = current_coin p.
Proof.
  cbv zeta. unfold complete_interval_collection.
  set (p := in_memory t).
  assert (Hc : forall s,
             get_or_empty
               (dict_set (with_key (completed_intervals p) symbol) symbol
                  (add_once interval
                     (get_or_empty (with_key (completed_intervals p) symbol) symbol)))
               s
             = if String.eqb symbol s
               then add_once interval (get_or_empty (completed_intervals p) symbol)
               else get_or_empty (completed_intervals p) s).
  { intros s. rewrite get_or_empty_set, !get_or_empty_with_key. reflexivity. }
  assert (Hf : forall s,
             get_or_empty
               match dict_get (failed_intervals p) symbol with
               | Some l =>
                   if mem interval l
                   then dict_set (failed_intervals p) symbol (remove_first interval l)
                   else failed_intervals p
               | None => failed_intervals p
               end s
             = if String.eqb symbol s
               then remove_first interval (get_or_empty (failed_intervals p) symbol)
               else get_or_empty (failed_intervals p) s).
  { intros s. unfold get_or_empty at 2.
    destruct (dict_get (failed_intervals p) symbol) as [l|] eqn:E.
    - destruct (mem interval l) eqn:Em.
      + apply get_or_empty_set.
      + rewrite (remove_first_absent _ _ Em).
        destruct (String.eqb symbol s) eqn:Es; [|reflexivity].
        apply String.eqb_eq in Es. subst s. unfold get_or_empty. rewrite E.
        reflexivity.
    - destruct (String.eqb symbol s) eqn:Es; [|reflexivity].
      apply String.eqb_eq in Es. subst s. unfold get_or_empty. rewrite E.
      reflexivity. }
  destruct (cp_completed_intervals (current_coin_progress p));
    unfold saved, with_intervals;
    cbn [fst in_memory completed_intervals failed_intervals completed_coins
         failed_coins current_coin];
    repeat split; assumption.
Qed.

Lemma fail_interval_fields writable symbol interval t :
  let p := in_memory t in
  let p' := in_memory (fst (fail_interval_collection writable symbol interval t)) in
  completed_intervals p' = completed_intervals p
  /\ (forall s, get_or_empty (failed_intervals p') s
                = if String.eqb symbol s
                  then add_once interval (get_or_empty (failed_intervals p) symbol)
                  else get_or_empty (failed_intervals p) s)
  /\ completed_coins p' = completed_coins p
  /\ failed_coins p' = failed_coins p
  /\ current_coin p' = current_coin p.
Proof.
  cbv zeta. unfold fail_interval_collection.
  set (p := in_memory t).
  assert (Hf : forall s,
             get_or_empty
               (dict_set (with_key (failed_intervals p) symbol) symbol
                  (add_once interval
                     (get_or_empty (with_key (failed_intervals p) symbol) symbol)))
               s
             = if String.eqb symbol s
               then add_once interval (get_or_empty (failed_intervals p) symbol)
               else get_or_empty (failed_intervals p) s).
  { intros s. rewrite get_or_empty_set, !get_or_empty_with_key. reflexivity. }
  destruct (cp_failed_intervals (current_coin_progress p));
    unfold saved, with_intervals;
    cbn [fst in_memory completed_intervals failed_intervals completed_coins
         failed_coins current_coin];
    repeat split; assumption.
Qed.






(** ** The loop over the intervals *)

Section Loop.

Variable fetch_and_store : string -> string -> unit_outcome.
Variable writable : bool.

(** The loop touches nothing of the document but the intervals. *)
Lemma intervals_loop_coin_fields symbol remaining t all_data :
  let p' :=
    in_memory
      (fst (intervals_loop fetch_and_store writable symbol remaining t all_data)) in
  completed_coins p' = completed_coins (in_memory t)
  /\ failed_coins p' = failed_coins (in_memory t)
  /\ current_coin p' = current_coin (in_memory t).
Proof.
  cbv zeta. revert t all_data.
  induction remaining as [|interval rest IH]; intros t all_data;
    cbn [intervals_loop]; [repeat split|].
  pose proof (start_interval_fields writable symbol interval t) as S.
  cbv zeta in S. destruct S as (_ & _ & S1 & S2 & S3 & _).
  set (t1 := start_interval_collection writable symbol interval t) in *.
  unfold handled.
  destruct (fetch_and_store symbol interval);
    repeat match goal with
      | |- context [complete_interval_collection ?w ?s ?i ?t0] =>
          let C := fresh "C" in
          pose proof (complete_interval_fields w s i t0) as C; cbv zeta in C;
          destruct C as (_ & _ & ? & ? & ?);
          destruct (complete_interval_collection w s i t0) as [? [|]];
          cbn [fst] in *
      | |- context [fail_interval_collection ?w ?s ?i ?t0] =>
          let F := fresh "F" in
          pose proof (fail_interval_fields w s i t0) as F; cbv zeta in F;
          destruct F as (_ & _ & ? & ? & ?);
          destruct (fail_interval_collection w s i t0) as [? [|]];
          cbn [fst] in *
      end;
    try (cbn [fst]; repeat split; congruence);
    match goal with
    | |- context [intervals_loop _ _ _ _ ?t0 ?a] =>
        destruct (IH t0 a) as (? & ? & ?); repeat split; congruence
    end.
Qed.


End Loop.

(** ** The method and the run *)



Lemma driver_coin_fields fetch_and_store writable symbol t :
  let p' :=
    in_memory
      (fst (collect_all_data_for_symbol_with_progress fetch_and_store writable
              symbol t)) in
  completed_coins p' = completed_coins (in_memory t)
  /\ failed_coins p' = failed_coins (in_memory t)
  /\ current_coin p' = current_coin (in_memory t).
Proof.
  cbv zeta. unfold collect_all_data_for_symbol_with_progress.
  pose proof (intervals_loop_coin_fields fetch_and_store writable symbol
                (get_remaining_intervals (in_memory t) symbol Collector.intervals)
                t []) as H.
  cbv zeta in H.
  destruct (intervals_loop fetch_and_store writable symbol _ t [])
    as [t' [all_data|]]; exact H.
Qed.



Lemma started_coin_is_keyed writable now symbol t :
  let p' := in_memory (start_coin_collection writable now symbol t) in
  keyed p' = true
  /\ current_interval (current_coin_progress p') = None
  /\ completed_intervals p' = completed_intervals (in_memory t)
  /\ failed_intervals p' = failed_intervals (in_memory t)
  /\ completed_coins p' = completed_coins (in_memory t)
  /\ failed_coins p' = failed_coins (in_memory t).
Proof. cbv zeta. repeat split. Qed.

(** X16. A coin all of whose intervals are already settled is marked as
    failed when its turn comes: nothing remains to fetch, the method returns
    an empty dict, and the loop over the coins takes that for a failure. A
    coin recorded as completed stays in that list as well. *)
Theorem settled_coin_is_marked_failed
    (fetch_and_store : string -> string -> unit_outcome) (writable : bool)
    (now : Z) (symbol : string) (t : tracker) :
  (forall i, In i Collector.intervals ->
             interval_settled (in_memory t) symbol i = true) ->
  let t' :=
    fst (collect_coins
           (collect_all_data_for_symbol_with_progress fetch_and_store writable)
           writable now [symbol] t) in
  t' = fail_coin_collection writable symbol
         (start_coin_collection writable now symbol t)
  /\ In symbol (failed_coins (in_memory t'))
  /\ completed_coins (in_memory t') = completed_coins (in_memory t)
  /\ total_failed (in_memory t') = total_failed (in_memory t) + 1.
Proof.
  intros Hs. cbv zeta. cbn [collect_coins].
  set (t1 := start_coin_collection writable now symbol t).
  assert (Hr : get_remaining_intervals (in_memory t1) symbol Collector.intervals
               = []).
  { unfold get_remaining_intervals. cbn [t1 start_coin_collection saved in_memory
      current_coin_progress current_interval completed_intervals failed_intervals].
    apply pending_nil. exact Hs. }
  assert (Hd : collect_all_data_for_symbol_with_progress fetch_and_store writable
                 symbol t1 = (t1, Some false)).
  { unfold collect_all_data_for_symbol_with_progress. rewrite Hr. reflexivity. }
  rewrite Hd. cbn [fst snd].
  split; [reflexivity|]. split.
  - cbn [fail_coin_collection saved in_memory failed_coins].
    apply add_once_in. left. reflexivity.
  - split; reflexivity.
Qed.

Lemma settled_coin_is_marked_failed_witness :
  let t := {| in_memory := interrupted_then_set_up; on_disk := None |} in
  let t' :=
    fst (collect_coins
           (collect_all_data_for_symbol_with_progress (fun _ _ => Stored) true)
           true 3 ["ETHUSDT"] t) in
  In "ETHUSDT" (failed_coins (in_memory t'))
  /\ In "ETHUSDT" (completed_coins (in_memory t')).
Proof.
  cbv zeta.
  destruct (settled_coin_is_marked_failed (fun _ _ => Stored) true 3 "ETHUSDT"
              {| in_memory := interrupted_then_set_up; on_disk := None |})
    as (_ & H & Hc & _).
  - intros i Hi. vm_compute in Hi.
    repeat (destruct Hi as [<-|Hi]; [vm_compute; reflexivity|]). destruct Hi.
  - split; [exact H|]. rewrite Hc. vm_compute. left. reflexivity.
Defined.

(** ** The loop over the coins *)

Lemma collect_coins_settles fetch_and_store writable now remaining t :
  let t' :=
    fst (collect_coins
           (collect_all_data_for_symbol_with_progress fetch_and_store writable)
           writable now remaining t) in
  (forall c, coin_settled (in_memory t) c = true ->
             coin_settled (in_memory t') c = true)
  /\ (forall c, In c remaining -> coin_settled (in_memory t') c = true)
  /\ (remaining <> [] -> current_coin (in_memory t') = None).
Proof.
  cbv zeta. revert t.
  induction remaining as [|symbol rest IH]; intros t; cbn [collect_coins].
  { cbn [fst]. repeat split; auto; try contradiction. }
  set (t1 := start_coin_collection writable now symbol t).
  pose proof (driver_coin_fields fetch_and_store writable symbol t1) as D.
  cbv zeta in D. destruct D as (D1 & D2 & _).
  destruct (collect_all_data_for_symbol_with_progress fetch_and_store writable
              symbol t1) as [t2 symbol_data].
  cbn [fst] in D1, D2.
  set (t3 := match symbol_data with
             | Some true => complete_coin_collection writable now symbol t2
             | _ => fail_coin_collection writable symbol t2
             end).
  assert (H3 : coin_settled (in_memory t3) symbol = true
               /\ (forall c, coin_settled (in_memory t) c = true ->
                              coin_settled (in_memory t3) c = true)
               /\ current_coin (in_memory t3) = None).
  { assert (Hc : let t3 := complete_coin_collection writable now symbol t2 in
                 coin_settled (in_memory t3) symbol = true
                 /\ (forall c, coin_settled (in_memory t) c = true ->
                                coin_settled (in_memory t3) c = true)
                 /\ current_coin (in_memory t3) = None).
    { cbv zeta. unfold coin_settled.
      cbn [complete_coin_collection saved in_memory completed_coins failed_coins
           current_coin]. rewrite D1, D2. cbn [t1 start_coin_collection saved
           in_memory completed_coins failed_coins].
      split; [|split; [|reflexivity]].
      - apply settled_in. left. apply add_once_in. left. reflexivity.
      - intros c H. apply settled_in in H. apply settled_in.
        destruct (String.eqb c symbol) eqn:E.
        + apply String.eqb_eq in E. subst c. left. apply add_once_in. left.
          reflexivity.
        + apply String.eqb_neq in E. destruct H as [H|H].
          * left. apply add_once_in. right. exact H.
          * right. apply remove_first_keeps; assumption. }
    assert (Hf : let t3 := fail_coin_collection writable symbol t2 in
                 coin_settled (in_memory t3) symbol = true
                 /\ (forall c, coin_settled (in_memory t) c = true ->
                                coin_settled (in_memory t3) c = true)
                 /\ current_coin (in_memory t3) = None).
    { cbv zeta. unfold coin_settled.
      cbn [fail_coin_collection saved in_memory completed_coins failed_coins
           current_coin]. rewrite D1, D2. cbn [t1 start_coin_collection saved
           in_memory completed_coins failed_coins].
      split; [|split; [|reflexivity]].
      - apply settled_in. right. apply add_once_in. left. reflexivity.
      - intros c H. apply settled_in in H. apply settled_in.
        destruct H as [H|H]; [left; exact H|].
        right. apply add_once_in. right. exact H. }
    unfold t3. destruct symbol_data as [[|]|]; [exact Hc|exact Hf|exact Hf]. }
  destruct H3 as (S1 & S2 & S3).
  specialize (IH t3). destruct IH as (I1 & I2 & I3).
  destruct (collect_coins _ writable now rest t3) as [t4 started] eqn:E4.
  cbn [fst] in *. split; [|split].
  - intros c H. apply I1, S2, H.
  - intros c [<-|H]; [apply I1, S1|apply I2, H].
  - intros _. destruct rest as [|c' rest'].
    + cbn [collect_coins] in E4. injection E4 as <- _. exact S3.
    + apply I3. discriminate.
Qed.

(** X17. When [collect_all_coins_all_data] has gone over its coins, none is
    left for a further run: every coin of the list is recorded as completed
    or as failed, whatever the fetches brought, and none is in flight. A
    failed coin is taken up again only after a reset. *)
Theorem full_run_leaves_nothing_to_resume
    (fetch_and_store : string -> string -> unit_outcome) (writable : bool)
    (now : Z) (coins : list string) (t : tracker) :
  get_remaining_coins
    (in_memory (fst (resumable_run fetch_and_store writable now coins t))) coins
  = [].
Proof.
  unfold resumable_run, collect_all_coins_all_data, print_progress_summary.
  set (remaining := get_remaining_coins (in_memory t) coins).
  pose proof (collect_coins_settles fetch_and_store writable now remaining t) as H.
  cbv zeta in H. destruct H as (H1 & H2 & H3).
  destruct remaining as [|c0 rest] eqn:Er.
  - cbn [collect_coins fst]. exact Er.
  - set (t' := fst (collect_coins _ writable now (c0 :: rest) t)) in *.
    unfold get_remaining_coins. rewrite H3 by discriminate.
    apply pending_nil. intros u Hu.
    destruct (mem u (c0 :: rest)) eqn:Em.
    + apply mem_in in Em. apply (H2 u Em).
    + apply mem_not_in in Em. apply H1.
      apply (not_pending_settled _ _ coins u Hu).
      intros Hin. apply Em. rewrite <- Er. unfold remaining, get_remaining_coins.
      apply remaining_in. left. exact Hin.
Qed.

(** ** The method without a started coin *)

(** X18. [collect_all_data_for_symbol_with_progress] relies on
    [start_coin_collection]: called while the progress of the coin in flight
    is the empty dict, with an interval remaining, it raises at the first
    interval, whatever the fetch brought. The [KeyError] of the missing list
    is raised once more by the [except] clause that handles it, and leaves
    the method. *)
Theorem driver_needs_a_started_coin
    (fetch_and_store : string -> string -> unit_outcome) (writable : bool)
    (symbol : string) (t : tracker) :
  current_coin_progress (in_memory t) = empty_coin_progress ->
  get_remaining_intervals (in_memory t) symbol Collector.intervals <> [] ->
  snd (collect_all_data_for_symbol_with_progress fetch_and_store writable symbol t)
  = None.
Proof.
  intros Hcp Hr. unfold collect_all_data_for_symbol_with_progress.
  destruct (get_remaining_intervals (in_memory t) symbol Collector.intervals)
    as [|interval rest]; [contradiction|].
  cbn [intervals_loop]. unfold handled.
  unfold complete_interval_collection, fail_interval_collection,
    start_interval_collection, saved, with_intervals.
  cbn [in_memory current_coin_progress cp_completed_intervals cp_failed_intervals].
  rewrite Hcp. cbn [empty_coin_progress cp_completed_intervals cp_failed_intervals].
  destruct (fetch_and_store symbol interval); reflexivity.
Qed.

Lemma driver_needs_a_started_coin_witness :
  snd (collect_all_data_for_symbol_with_progress (fun _ _ => Stored) true "BTCUSDT"
         (new_tracker true 1 None)) = None.
Proof.
  apply (driver_needs_a_started_coin (fun _ _ => Stored) true "BTCUSDT"
           (new_tracker true 1 None)).
  - reflexivity.
  - vm_compute. discriminate.
Defined.

End ResumeFacts.

(* ================================================================== *)
(** * The store on a named table, and the counts of the tables *)
(* ================================================================== *)

Module TableFacts.

Import Sqlite Database SqliteFacts DatabaseFacts StoreFacts Scenario.

Local Open Scope string_scope.
Local Open Scope Z_scope.

Lemma insert_items_keeps_status clock name data db db' :
  insert_items clock name data db = inr db' ->
  status_rows db' = status_rows db /\ status_seq db' = status_seq db.
Proof.
  revert db. induction data as [|item data IH]; intros db; cbn [insert_items].
  - intros [= <-]. split; reflexivity.
  - unfold insert_or_replace.
    destruct (find_table name (coin_tables db)) as [t|]; [|discriminate].
    destruct (insert_or_replace_row clock t _ _ _ _ _ _) as [e|t']; [discriminate|].
    intros H. apply IH in H. exact H.
Qed.

(** X19. [save_price_data_to_table], given a table name that is a bare
    identifier, never touches [data_collection_status]: whatever the batch,
    the status rows stay as they are, and with them the missing period of
    every unit. Aimed at the table of a unit it raises when the store of
    that unit raises and leaves the same tables, so the candles are there
    and the top-up does not know of them. *)
Theorem table_store_leaves_status_alone
    (clock : Z) (db : database) (symbol : string) (data : list candle)
    (table_name : string) :
  identifier table_name = true ->
  let direct := save_price_data_to_table clock db symbol data table_name in
  status_rows (fst direct) = status_rows db
  /\ status_seq (fst direct) = status_seq db
  /\ (forall unit_symbol interval current_time now_again,
         get_missing_data_period (fst direct) unit_symbol interval
           current_time now_again
         = get_missing_data_period db unit_symbol interval current_time now_again)
  /\ (forall unit_symbol interval,
         table_name = coin_table_name unit_symbol interval ->
         let unit :=
           save_price_data_to_coin_table clock db unit_symbol interval data in
         snd direct = snd unit /\ coin_tables (fst direct) = coin_tables (fst unit)).
Proof.
  intros _. cbv zeta. unfold save_price_data_to_table, transaction.
  assert (Hs : status_rows
                 (fst match insert_items clock table_name data db with
                      | inl e => (db, Some e)
                      | inr db' => (db', None)
                      end) = status_rows db
               /\ status_seq
                    (fst match insert_items clock table_name data db with
                         | inl e => (db, Some e)
                         | inr db' => (db', None)
                         end) = status_seq db).
  { destruct (insert_items clock table_name data db) as [e|db'] eqn:E;
      [split; reflexivity|].
    exact (insert_items_keeps_status _ _ _ _ _ E). }
  destruct Hs as [Hr Hq]. split; [exact Hr|]. split; [exact Hq|]. split.
  - intros unit_symbol interval current_time now_again.
    unfold get_missing_data_period, get_last_collected_timestamp, select_status.
    rewrite Hr. reflexivity.
  - intros unit_symbol interval ->.
    unfold save_price_data_to_coin_table, transaction, save_body.
    destruct (insert_items clock (coin_table_name unit_symbol interval) data db)
      as [e|db']; [split; reflexivity|].
    destruct data; split; reflexivity.
Qed.

Lemma table_store_leaves_status_alone_witness :
  let direct :=
    save_price_data_to_table 2 btc_1h "BTCUSDT" [flat gap_now 7%float]
      "BTCUSDT_1h" in
  stored_candle "BTCUSDT_1h" gap_now (fst direct) = Some (flat gap_now 7%float)
  /\ get_missing_data_period (fst direct) "BTCUSDT" "1h" gap_now gap_now
     = get_missing_data_period btc_1h "BTCUSDT" "1h" gap_now gap_now.
Proof.
  cbv zeta. split; [reflexivity|].
  apply (table_store_leaves_status_alone 2 btc_1h "BTCUSDT"
           [flat gap_now 7%float] "BTCUSDT_1h" eq_refl).
Defined.

(** ** [get_database_info] *)

Lemma find_table_none name ts :
  (forall t, In t ts -> name_eqb (table_name t) name = false) ->
  find_table name ts = None.
Proof.
  induction ts as [|t ts IH]; intros H; simpl; [reflexivity|].
  rewrite (H t (or_introl eq_refl)). apply IH. intros u Hu. apply H. right. exact Hu.
Qed.

(** No table of the schema answers to the name of an interval table. *)
Lemma interval_tables_are_not_in_the_schema :
  forallb (fun name =>
             forallb (fun interval =>
                        negb (name_eqb name ("price_data_" ++ interval)))
                     intervals)
          table_names = true.
Proof. vm_compute. reflexivity. Qed.

(** X20. On a database that holds no other per-coin tables than those of the
    schema, as [init_database] builds it and the stores leave it,
    [get_database_info] reports 0 for every interval table, whatever has
    been stored: the tables it counts, [price_data_<interval>], are none of
    those the schema creates. *)
Theorem interval_counts_are_zero
    (price_data sentiment_data realtime_data trades : Z) (db : database) :
  (forall name, In name (tables_of db) -> In name table_names) ->
  get_database_info (Some (price_data, sentiment_data, realtime_data, trades)) db
  = (combine basic_tables [price_data; sentiment_data; realtime_data; trades]
     ++ map (fun interval => (("price_data_" ++ interval)%string, 0)) intervals)%list.
Proof.
  intros Hdb. unfold get_database_info. f_equal. apply map_ext_in.
  intros interval Hi. cbv zeta. f_equal.
  unfold count_or_zero, row_count. rewrite find_table_none; [reflexivity|].
  intros t Ht.
  assert (Hn : In (table_name t) table_names).
  { apply Hdb. unfold tables_of. apply in_map, Ht. }
  pose proof interval_tables_are_not_in_the_schema as H.
  rewrite forallb_forall in H. specialize (H _ Hn).
  rewrite forallb_forall in H. specialize (H _ Hi).
  apply negb_true_iff in H. exact H.
Qed.

Lemma interval_counts_are_zero_witness :
  let db :=
    fst (save_price_data_to_coin_table 1 btc_1m "BTCUSDT" "1m"
           [flat 60000 7%float]) in
  row_count "BTCUSDT_1m" db = Some 1%nat
  /\ In ("price_data_1m", 0) (get_database_info (Some (0, 0, 0, 0)) db).
Proof.
  cbv zeta. split; [reflexivity|].
  rewrite interval_counts_are_zero.
  - vm_compute. do 4 right. left. reflexivity.
  - intros name Hn. vm_compute in Hn. destruct Hn as [<-|[]].
    apply (table_names_in "BTCUSDT" "1m").
    + right. left. reflexivity.
    + left. reflexivity.
Defined.

End TableFacts.

(* ================================================================== *)
(** * The table [price_data] *)
(* ================================================================== *)

Module PriceDataFacts.

Import PriceData.

Local Open Scope string_scope.
Local Open Scope Z_scope.

(** ** The order of a frame *)

Lemma insert_row_in r l x : In x (insert_row r l) <-> x = r \/ In x l.
Proof.
  induction l as [|r' l IH]; simpl.
  - split; [intros [H|[]]; left; auto|intros [H|[]]; left; auto].
  - destruct (timestamp r <? timestamp r'); simpl.
    + split; [intros [H|H]; [left; auto|right; exact H]
             |intros [H|H]; [left; auto|right; exact H]].
    + rewrite IH. split.
      * intros [H|[H|H]]; [right; left; exact H|left; exact H|right; right; exact H].
      * intros [H|[H|H]]; [right; left; exact H|left; exact H|right; right; exact H].
Qed.

Lemma order_in l x : In x (order_by_timestamp l) <-> In x l.
Proof.
  unfold order_by_timestamp. induction l as [|r l IH]; simpl; [reflexivity|].
  rewrite insert_row_in, IH. split; intros [H|H]; auto.
Qed.

Lemma insert_row_ascending r l :
  ascending_rows l = true -> ascending_rows (insert_row r l) = true.
Proof.
  induction l as [|r' l IH]; simpl; [reflexivity|].
  intros H. apply andb_true_iff in H. destruct H as [H1 H2].
  destruct (timestamp r <? timestamp r') eqn:E; simpl.
  - apply Z.ltb_lt in E. rewrite H1, H2, !andb_true_r.
    apply andb_true_iff. split; [apply Z.leb_le; lia|].
    apply forallb_forall. intros x Hx.
    rewrite forallb_forall in H1. specialize (H1 x Hx).
    apply Z.leb_le in H1. apply Z.leb_le. lia.
  - apply Z.ltb_ge in E. rewrite (IH H2), andb_true_r.
    apply forallb_forall. intros x Hx. apply insert_row_in in Hx.
    destruct Hx as [->|Hx]; [apply Z.leb_le; exact E|].
    rewrite forallb_forall in H1. exact (H1 x Hx).
Qed.

Lemma order_ascending l : ascending_rows (order_by_timestamp l) = true.
Proof.
  unfold order_by_timestamp. induction l as [|r l IH]; simpl; [reflexivity|].
  apply insert_row_ascending, IH.
Qed.

Lemma descending_app_one l r :
  descending_rows l = true ->
  (forall x, In x l -> timestamp r <= timestamp x) ->
  descending_rows (l ++ [r]) = true.
Proof.
  induction l as [|r' l IH]; simpl; [reflexivity|].
  intros H Hr. apply andb_true_iff in H. destruct H as [H1 H2].
  rewrite IH; [|exact H2|intros x Hx; apply Hr; right; exact Hx].
  rewrite andb_true_r. rewrite forallb_app, H1. simpl.
  rewrite andb_true_r. apply Z.leb_le, Hr. left. reflexivity.
Qed.

Lemma rev_descending l :
  ascending_rows l = true -> descending_rows (rev l) = true.
Proof.
  induction l as [|r l IH]; simpl; [reflexivity|].
  intros H. apply andb_true_iff in H. destruct H as [H1 H2].
  apply descending_app_one; [apply IH, H2|].
  intros x Hx. apply in_rev in Hx. rewrite forallb_forall in H1.
  apply Z.leb_le, H1, Hx.
Qed.

Lemma order_desc_in l x : In x (order_by_timestamp_desc l) <-> In x l.
Proof.
  unfold order_by_timestamp_desc. rewrite <- in_rev. apply order_in.
Qed.

Lemma order_desc_descending l : descending_rows (order_by_timestamp_desc l) = true.
Proof. apply rev_descending, order_ascending. Qed.

Lemma firstn_descending n l :
  descending_rows l = true -> descending_rows (firstn n l) = true.
Proof.
  revert n. induction l as [|r l IH]; intros [|n]; simpl; try reflexivity.
  intros H. apply andb_true_iff in H. destruct H as [H1 H2].
  rewrite (IH n H2), andb_true_r. apply forallb_forall. intros x Hx.
  rewrite forallb_forall in H1. apply H1.
  rewrite <- (firstn_skipn n l). apply in_or_app. left. exact Hx.
Qed.

(** The rows a limit cuts off are not newer than the rows it keeps. *)
Lemma firstn_keeps_the_newest n l r x :
  descending_rows l = true ->
  In r l -> ~ In r (firstn n l) -> In x (firstn n l) ->
  timestamp r <= timestamp x.
Proof.
  revert n. induction l as [|r' l IH]; intros [|n]; simpl; try contradiction.
  intros H Hr Hn Hx. apply andb_true_iff in H. destruct H as [H1 H2].
  destruct Hr as [->|Hr]; [exfalso; apply Hn; left; reflexivity|].
  destruct Hx as [<-|Hx].
  - rewrite forallb_forall in H1. apply Z.leb_le, H1, Hr.
  - apply (IH n H2 Hr); [|exact Hx]. intros Hin. apply Hn. right. exact Hin.
Qed.

(** ** The three queries *)

Lemma of_symbol_in sym t r :
  In r (of_symbol sym t) <-> In r (rows t) /\ symbol r = sym.
Proof.
  unfold of_symbol. rewrite filter_In, String.eqb_eq. reflexivity.
Qed.

(** X21. With both bounds given, neither 0, [get_price_data] returns exactly
    the rows of the symbol whose timestamps lie between the bounds, the
    bounds included, in ascending order of timestamp; the limit plays no
    part. *)
Theorem range_query_is_exact
    (t : table) (sym : string) (s e : Z) (limit : option Z) :
  s <> 0 -> e <> 0 -> binds s = true -> binds e = true ->
  let df := get_price_data t sym (Some s) (Some e) limit in
  ascending_rows df = true
  /\ forall r,
       In r df <-> In r (rows t) /\ symbol r = sym /\ s <= timestamp r <= e.
Proof.
  intros Hs He Bs Be. cbv zeta. unfold get_price_data, Database.truthy.
  apply Z.eqb_neq in Hs, He. rewrite Hs, He, Bs, Be. cbn [negb andb].
  split; [apply order_ascending|].
  intros r. rewrite order_in, filter_In, of_symbol_in. unfold between.
  rewrite andb_true_iff, !Z.leb_le. tauto.
Qed.

Lemma range_query_is_exact_witness :
  let t :=
    save_price_data 3
      (save_price_data 2
         (save_price_data 1 {| rows := []; seq := 0 |} "BTCUSDT"
            (Scenario.flat 180000 7%float))
         "BTCUSDT" (Scenario.flat 60000 7%float))
      "BTCUSDT" (Scenario.flat 120000 7%float) in
  let df := get_price_data t "BTCUSDT" (Some 60000) (Some 120000) (Some 1) in
  map timestamp df = [60000; 120000] /\ ascending_rows df = true.
Proof.
  cbv zeta. split; [reflexivity|].
  pose proof (range_query_is_exact
                (save_price_data 3
                   (save_price_data 2
                      (save_price_data 1 {| rows := []; seq := 0 |} "BTCUSDT"
                         (Scenario.flat 180000 7%float))
                      "BTCUSDT" (Scenario.flat 60000 7%float))
                   "BTCUSDT" (Scenario.flat 120000 7%float))
                "BTCUSDT" 60000 120000 (Some 1)) as H.
  cbv zeta in H. destruct H as [H _]; [discriminate|discriminate|reflexivity
                                      |reflexivity|exact H].
Defined.

(** X22. Without a range in force, that is with a bound missing or 0,
    [get_price_data] returns rows of the symbol in descending order of
    timestamp, the newest ones: no row it leaves out is newer than a row it
    returns. It returns at most [limit] of them, at most 100 where the
    limit is missing or 0, and all of them where the limit is negative. A
    limit that is given is one [sqlite3] can bind as INTEGER. *)
Theorem latest_rows_without_range
    (t : table) (sym : string) (start_time end_time limit : option Z) :
  (Database.truthy start_time && Database.truthy end_time)%bool = false ->
  (forall n, limit = Some n -> binds n = true) ->
  let df := get_price_data t sym start_time end_time limit in
  descending_rows df = true
  /\ (forall r, In r df -> In r (rows t) /\ symbol r = sym)
  /\ (forall n, row_limit limit = Some n -> (List.length df <= n)%nat)
  /\ (row_limit limit = None ->
      forall r, In r (rows t) -> symbol r = sym -> In r df)
  /\ (forall r x,
         In r (rows t) -> symbol r = sym -> ~ In r df -> In x df ->
         timestamp r <= timestamp x).
Proof.
  intros Hr Hb. cbv zeta. unfold get_price_data, row_limit. rewrite Hr.
  set (l := order_by_timestamp_desc (of_symbol sym t)).
  assert (Hl : descending_rows l = true) by apply order_desc_descending.
  assert (Hin : forall r, In r l <-> In r (rows t) /\ symbol r = sym).
  { intros r. unfold l. rewrite order_desc_in. apply of_symbol_in. }
  assert (Hcut : forall k,
             descending_rows (firstn k l) = true
             /\ (forall r, In r (firstn k l) -> In r (rows t) /\ symbol r = sym)
             /\ (List.length (firstn k l) <= k)%nat
             /\ (forall r x,
                    In r (rows t) -> symbol r = sym -> ~ In r (firstn k l) ->
                    In x (firstn k l) -> timestamp r <= timestamp x)).
  { intros k. split; [apply firstn_descending, Hl|]. split.
    - intros r H. apply Hin. rewrite <- (firstn_skipn k l).
      apply in_or_app. left. exact H.
    - split; [apply firstn_le_length|].
      intros r x H1 H2 Hn Hx.
      apply (firstn_keeps_the_newest k l r x Hl); [|exact Hn|exact Hx].
      apply Hin. split; assumption. }
  destruct (Database.truthy limit) eqn:Et.
  - destruct limit as [n|]; [|discriminate Et].
    rewrite (Hb n eq_refl). unfold limit_rows.
    destruct (n <? 0).
    + split; [exact Hl|]. split; [intros r H; apply Hin, H|].
      split; [discriminate|]. split.
      * intros _ r H1 H2. apply Hin. split; assumption.
      * intros r x H1 H2 Hn. exfalso. apply Hn, Hin. split; assumption.
    + destruct (Hcut (Z.to_nat n)) as (C1 & C2 & C3 & C4).
      split; [exact C1|]. split; [exact C2|]. split.
      * intros k [= <-]. exact C3.
      * split; [discriminate|exact C4].
  - unfold limit_rows. change (100 <? 0) with false. cbv iota.
    change (Z.to_nat 100) with 100%nat.
    destruct (Hcut 100%nat) as (C1 & C2 & C3 & C4).
    split; [exact C1|]. split; [exact C2|]. split.
    + intros k [= <-]. exact C3.
    + split; [discriminate|exact C4].
Qed.

Lemma latest_rows_without_range_witness :
  let t :=
    save_price_data 2
      (save_price_data 1 {| rows := []; seq := 0 |} "BTCUSDT"
         (Scenario.flat 60000 7%float))
      "BTCUSDT" (Scenario.flat 120000 7%float) in
  map timestamp (get_price_data t "BTCUSDT" (Some 0) (Some 60000) None)
  = [120000; 60000]
  /\ descending_rows (get_price_data t "BTCUSDT" (Some 0) (Some 60000) None) = true.
Proof.
  cbv zeta. split; [reflexivity|].
  apply (latest_rows_without_range
           (save_price_data 2
              (save_price_data 1 {| rows := []; seq := 0 |} "BTCUSDT"
                 (Scenario.flat 60000 7%float))
              "BTCUSDT" (Scenario.flat 120000 7%float))
           "BTCUSDT" (Some 0) (Some 60000) None).
  - reflexivity.
  - intros n H. discriminate H.
Defined.

(** ** Save, then read *)

Lemma filter_none {A} (p q : A -> bool) (l : list A) :
  (forall x, p x = true -> q x = false) -> filter p (filter q l) = [].
Proof.
  intros H. induction l as [|x l IH]; simpl; [reflexivity|].
  destruct (q x) eqn:Eq; simpl; [|exact IH].
  destruct (p x) eqn:Ep; [|exact IH].
  rewrite (H x Ep) in Eq. discriminate Eq.
Qed.

Lemma replaced_rows_are_gone sym ts l :
  filter (between ts ts)
    (filter (fun r => String.eqb (symbol r) sym)
       (filter (fun r => negb (same_key sym ts r)) l)) = [].
Proof.
  induction l as [|x l IH]; [reflexivity|]. cbn [filter]. unfold same_key at 1.
  destruct (String.eqb (symbol x) sym) eqn:Es;
    destruct (timestamp x =? ts) eqn:Et; cbn [andb negb filter];
    rewrite ?Es; cbn [filter]; try exact IH.
  unfold between at 1. apply Z.eqb_neq in Et.
  destruct (ts <=? timestamp x) eqn:E1; destruct (timestamp x <=? ts) eqn:E2;
    cbn [andb]; try exact IH.
  apply Z.leb_le in E1, E2. lia.
Qed.

(** X23. A candle [save_price_data] has saved is read back by the range query
    at its timestamp, and nothing else is: the row of the same symbol and
    timestamp that was there before is gone. The candle has neither NaN
    nor the negative zero, which a REAL column gives back as [0.0], among
    its values, and its timestamp fits SQLite's INTEGER and is not 0. *)
Theorem saved_candle_is_read_back
    (clock : Z) (t : table) (sym : string) (data : Database.candle)
    (limit : option Z) :
  Database.storable data = true ->
  Database.exact_values data = true ->
  Database.fits_integer data = true ->
  Database.timestamp data <> 0 ->
  map candle_of
    (get_price_data (save_price_data clock t sym data) sym
       (Some (Database.timestamp data)) (Some (Database.timestamp data)) limit)
  = [data].
Proof.
  intros Hs _ Hf Hz. unfold save_price_data, insert_or_replace.
  rewrite Hf, Hs. cbn [andb].
  unfold get_price_data, Database.truthy.
  apply Z.eqb_neq in Hz. rewrite Hz. cbn [negb andb].
  change (binds (Database.timestamp data)) with (Database.fits_integer data).
  rewrite Hf. cbn [andb].
  unfold of_symbol. cbn [rows]. rewrite !filter_app.
  rewrite replaced_rows_are_gone.
  cbn [filter symbol timestamp]. rewrite String.eqb_refl.
  cbn [filter]. unfold between. cbn [timestamp]. rewrite Z.leb_refl.
  cbn [andb app order_by_timestamp fold_right insert_row map candle_of
       timestamp open_price high_price low_price close_price volume].
  destruct data; reflexivity.
Qed.

Lemma saved_candle_is_read_back_witness :
  map candle_of
    (get_price_data
       (save_price_data 2
          (save_price_data 1 {| rows := []; seq := 0 |} "BTCUSDT"
             (Scenario.flat 60000 7%float))
          "BTCUSDT" (Scenario.flat 60000 8%float))
       "BTCUSDT" (Some 60000) (Some 60000) None)
  = [Scenario.flat 60000 8%float].
Proof.
  apply (saved_candle_is_read_back 2
           (save_price_data 1 {| rows := []; seq := 0 |} "BTCUSDT"
              (Scenario.flat 60000 7%float))
           "BTCUSDT" (Scenario.flat 60000 8%float) None).
  - reflexivity.
  - reflexivity.
  - reflexivity.
  - discriminate.
Defined.

End PriceDataFacts.

(* ================================================================== *)
(** * scripts/setup_progress.py *)
(* ================================================================== *)

Module SetupFacts.

Import ProgressTracker ProgressTrackerFacts ResumeFacts Scenario.

Local Open Scope string_scope.
Local Open Scope Z_scope.

Lemma dict_set_same (d : dict) (k : string) (v : list string) :
  dict_get d k = Some v -> dict_set d k v = d.
Proof.
  induction d as [|[k0 w] d IH]; simpl; [discriminate|].
  destruct (String.eqb k0 k); [intros [= ->]; reflexivity|].
  intros H. rewrite (IH H). reflexivity.
Qed.

Lemma mem_add_once (x y : string) (xs : list string) :
  mem y xs = true -> mem y (add_once x xs) = true.
Proof.
  intros H. apply mem_in. apply add_once_in. right. apply mem_in, H.
Qed.

Section Marking.

(** One turn of the loop of the script, and the loop over any list. *)
Let mark (p : progress) (coin : string) : progress :=
  {| start_time := start_time p;
     total_coins := total_coins p;
     total_intervals := total_intervals p;
     completed_coins := add_once coin (completed_coins p);
     current_coin := current_coin p;
     current_coin_progress := current_coin_progress p;
     completed_intervals := dict_set (completed_intervals p) coin setup_intervals;
     failed_coins := failed_coins p;
     failed_intervals := failed_intervals p;
     last_successful_time := last_successful_time p;
     total_completed := total_completed p;
     total_failed := total_failed p |}.

Let marked (p : progress) (c : string) : Prop :=
  mem c (completed_coins p) = true
  /\ dict_get (completed_intervals p) c = Some setup_intervals.

Lemma mark_keeps p coin c : marked p c -> marked (mark p coin) c.
Proof.
  intros [H1 H2]. split; cbn [mark completed_coins completed_intervals].
  - apply mem_add_once, H1.
  - rewrite dict_get_set. destruct (String.eqb coin c); [reflexivity|exact H2].
Qed.

Lemma mark_marks p coin : marked (mark p coin) coin.
Proof.
  split; cbn [mark completed_coins completed_intervals].
  - apply mem_in, add_once_in. left. reflexivity.
  - rewrite dict_get_set, String.eqb_refl. reflexivity.
Qed.

Lemma marks_keep l p c : marked p c -> marked (fold_left mark l p) c.
Proof.
  revert p. induction l as [|coin l IH]; intros p H; [exact H|].
  cbn [fold_left]. apply IH, mark_keeps, H.
Qed.

Lemma marks_mark l p c : In c l -> marked (fold_left mark l p) c.
Proof.
  revert p. induction l as [|coin l IH]; intros p; [intros []|].
  cbn [fold_left]. intros [<-|H]; [apply marks_keep, mark_marks|apply IH, H].
Qed.

Lemma mark_again p coin : marked p coin -> mark p coin = p.
Proof.
  intros [H1 H2]. unfold mark, add_once. rewrite H1, (dict_set_same _ _ _ H2).
  destruct p; reflexivity.
Qed.

Lemma marks_again l p : (forall c, In c l -> marked p c) -> fold_left mark l p = p.
Proof.
  induction l as [|coin l IH]; intros H; [reflexivity|].
  cbn [fold_left]. rewrite (mark_again p coin) by (apply H; left; reflexivity).
  apply IH. intros c Hc. apply H. right. exact Hc.
Qed.

Lemma marks_other_fields l p :
  current_coin (fold_left mark l p) = current_coin p
  /\ failed_coins (fold_left mark l p) = failed_coins p
  /\ failed_intervals (fold_left mark l p) = failed_intervals p
  /\ total_completed (fold_left mark l p) = total_completed p.
Proof.
  revert p. induction l as [|coin l IH]; intros p; [repeat split|].
  cbn [fold_left]. destruct (IH (mark p coin)) as (H1 & H2 & H3 & H4).
  rewrite H1, H2, H3, H4. repeat split.
Qed.

(** X24. [setup_completed_progress], on a checkpoint that is there, records
    each of its twenty coins as completed with all fifteen intervals, and a
    second run of the script changes nothing. It leaves the coin in flight
    and the failed coins as they are: afterwards a run takes up one of the
    twenty only if it was the coin in flight. *)
Theorem setup_is_idempotent (p : progress) :
  let p' := setup_completed_progress p in
  setup_completed_progress p' = p'
  /\ (forall c, In c setup_completed ->
                In c (completed_coins p')
                /\ dict_get (completed_intervals p') c = Some setup_intervals)
  /\ failed_coins p' = failed_coins p
  /\ current_coin p' = current_coin p
  /\ (forall all_coins c,
         In c setup_completed -> In c (get_remaining_coins p' all_coins) ->
         current_coin p = Some c).
Proof.
  cbv zeta. unfold setup_completed_progress.
  generalize setup_completed as l. intros l.
  change (fun (p0 : progress) (coin : string) =>
            {| start_time := start_time p0;
               total_coins := total_coins p0;
               total_intervals := total_intervals p0;
               completed_coins := add_once coin (completed_coins p0);
               current_coin := current_coin p0;
               current_coin_progress := current_coin_progress p0;
               completed_intervals :=
                 dict_set (completed_intervals p0) coin setup_intervals;
               failed_coins := failed_coins p0;
               failed_intervals := failed_intervals p0;
               last_successful_time := last_successful_time p0;
               total_completed := total_completed p0;
               total_failed := total_failed p0 |}) with mark.
  destruct (marks_other_fields l p) as (Hc & Hf & _ & _).
  split; [|split; [|split; [|split]]].
  - apply marks_again. intros c Hin. apply marks_mark, Hin.
  - intros c Hin. destruct (marks_mark l p c Hin) as [H1 H2].
    split; [apply mem_in, H1|exact H2].
  - exact Hf.
  - exact Hc.
  - intros all_coins c Hin Hr. unfold get_remaining_coins in Hr.
    apply remaining_in in Hr. destruct Hr as [Hr|[Hr _]].
    + apply pending_in in Hr. destruct Hr as (_ & Hn & _).
      exfalso. apply Hn. apply mem_in.
      apply (marks_mark l p c Hin).
    + rewrite Hc in Hr. exact Hr.
Qed.

End Marking.

Lemma setup_is_idempotent_witness :
  current_coin
    (in_memory (start_coin_collection true 2 "ETHUSDT" (new_tracker true 1 None)))
  = Some "ETHUSDT".
Proof.
  pose proof (setup_is_idempotent
                (in_memory
                   (start_coin_collection true 2 "ETHUSDT"
                      (new_tracker true 1 None)))) as S.
  cbv zeta in S. destruct S as (_ & _ & _ & _ & S).
  refine (S Database.coins "ETHUSDT" _ _).
  - left. reflexivity.
  - vm_compute. left. reflexivity.
Defined.

End SetupFacts.

(* ================================================================== *)
(** * Fetch, then store: one unit *)
(* ================================================================== *)

Module ScriptFacts.

Import Sqlite Database Collector Script SqliteFacts DatabaseFacts StoreFacts
  FetchFacts Scenario.

Local Open Scope string_scope.
Local Open Scope Z_scope.

(** ** Frames in ascending order *)

Lemma last_in (item : candle) (rest : list candle) :
  In (List.last rest item) (item :: rest).
Proof.
  revert item. induction rest as [|d rest IH]; intros item; [left; reflexivity|].
  rewrite last_cons. right. apply IH.
Qed.

Lemma ascending_last_bounds (item : candle) (rest : list candle) :
  strictly_ascending (item :: rest) = true ->
  forall c, In c (item :: rest) -> timestamp c <= last_timestamp item rest.
Proof.
  unfold last_timestamp. revert item.
  induction rest as [|d rest IH]; intros item H c Hc.
  - destruct Hc as [<-|[]]. apply Z.le_refl.
  - cbn [strictly_ascending] in H. apply andb_true_iff in H. destruct H as [H1 H2].
    rewrite last_cons.
    destruct Hc as [<-|Hc]; [|apply (IH d H2 c Hc)].
    pose proof (proj1 (before_all_in item (d :: rest)) H1 d (or_introl eq_refl)).
    pose proof (IH d H2 d (or_introl eq_refl)). lia.
Qed.

Lemma distinct_unique (l : list candle) (c d : candle) :
  distinct_timestamps l = true -> In c l -> In d l ->
  timestamp c = timestamp d -> c = d.
Proof.
  induction l as [|x l IH]; [intros _ []|].
  cbn [distinct_timestamps]. intros H Hc Hd E.
  apply andb_true_iff in H. destruct H as [H1 H2].
  apply negb_true_iff in H1.
  pose proof (proj1 (has_timestamp_false _ _) H1) as Hx.
  destruct Hc as [<-|Hc], Hd as [<-|Hd].
  - reflexivity.
  - exfalso. apply (Hx d Hd). symmetry. exact E.
  - exfalso. apply (Hx c Hc). exact E.
  - apply IH; assumption.
Qed.

Lemma candle_at_the_one ts (l : list candle) (c : candle) :
  In c l -> timestamp c = ts ->
  (forall d, In d l -> timestamp d = ts -> d = c) ->
  candle_at ts l = Some c.
Proof.
  unfold candle_at. induction l as [|x l IH]; [intros []|].
  intros Hc Ht Hu. cbn [find].
  destruct (timestamp x =? ts) eqn:E.
  - apply Z.eqb_eq in E. rewrite (Hu x (or_introl eq_refl) E). reflexivity.
  - destruct Hc as [->|Hc]; [apply Z.eqb_neq in E; contradiction|].
    apply IH; [exact Hc|exact Ht|].
    intros d Hd. apply Hu. right. exact Hd.
Qed.

(** In a frame without a timestamp twice, the first row at a timestamp is
    also the last. *)
Lemma candle_at_rev ts (l : list candle) :
  distinct_timestamps l = true -> candle_at ts (rev l) = candle_at ts l.
Proof.
  intros Hd. destruct (candle_at ts l) as [c|] eqn:E.
  - apply candle_at_in in E. destruct E as [Hc Ht].
    apply candle_at_the_one; [apply in_rev in Hc; exact Hc|exact Ht|].
    intros d Hin Hts. apply in_rev in Hin.
    apply (distinct_unique l d c Hd Hin Hc). congruence.
  - destruct (candle_at ts (rev l)) as [c|] eqn:E'; [|reflexivity].
    apply candle_at_in in E'. destruct E' as [Hc Ht]. apply in_rev in Hc.
    unfold candle_at in E. pose proof (find_none _ _ E c Hc) as Hn.
    cbn beta in Hn. apply Z.eqb_neq in Hn. contradiction.
Qed.

Lemma candle_at_present ts (l : list candle) :
  has_timestamp ts l = true -> exists c, candle_at ts l = Some c.
Proof.
  unfold has_timestamp, candle_at. intros H.
  destruct (find (fun d => timestamp d =? ts) l) as [c|] eqn:E; [exists c; reflexivity|].
  apply existsb_exists in H. destruct H as [d [Hd Ht]].
  pose proof (find_none _ _ E d Hd) as Hn. cbn beta in Hn. congruence.
Qed.

Lemma frame_row_in (c : candle) (all_data : list kline) :
  In c (to_frame all_data) <-> exists k, In k all_data /\ frame_row k = c.
Proof.
  unfold to_frame. rewrite in_map_iff. split; intros [k [H1 H2]]; exists k; tauto.
Qed.

(** The rows of the batch frame are rows of the answers. *)
Lemma batch_frame_rows (df : list candle) (all_data : list kline) (c : candle) :
  strictly_ascending df = true ->
  (forall ts, candle_at ts df = candle_at ts (to_frame all_data)) ->
  In c df -> exists k, In k all_data /\ frame_row k = c.
Proof.
  intros Hs He Hc. apply frame_row_in.
  assert (H : candle_at (timestamp c) df = Some c).
  { apply candle_at_unique; [apply strictly_ascending_distinct, Hs|exact Hc
                            |reflexivity]. }
  rewrite He in H. apply candle_at_in in H. apply H.
Qed.

(** ** The tables of the schema, for the intervals of the collectors *)





(** ** The run *)

Section Run.

Variable api : api_oracle.
Variable fuel : nat.
Variables now now_again clock : Z.
Variable writable : bool.
Variable tracker_now : Z.
Variable db : database.
Variable fs : ProgressTracker.file_system.
Variables symbol interval : string.
Variable days : Z.

Let run :=
  collect_historical_data_for_single_coin_single_interval api fuel now now_again
    clock writable tracker_now db fs symbol interval days.

(** What a run that got to the store did. *)
Lemma run_stored db' fs' o tr :
  run = (db', fs', o, tr) ->
  match o with
  | Frame [] => db' = init_database db
  | Frame (item :: rest) =>
      get_historical_data_batch api fuel symbol interval
        (now_again - days_ms days) now = (Some (item :: rest), tr)
      /\ save_price_data_to_coin_table clock (init_database db) symbol interval
           (item :: rest) = (db', None)
  | Exception e =>
      exists df,
        get_historical_data_batch api fuel symbol interval
          (now_again - days_ms days) now = (Some df, tr)
        /\ save_price_data_to_coin_table clock (init_database db) symbol interval df
           = (db', Some e)
  | NoReturn => db' = init_database db
  end.
Proof.
  unfold run, collect_historical_data_for_single_coin_single_interval. cbv zeta.
  destruct (get_historical_data_batch api fuel symbol interval
              (now_again - days_ms days) now) as [[[|item rest]|] tr0] eqn:Eb.
  - intros [= <- _ <- _]. reflexivity.
  - destruct (save_price_data_to_coin_table clock (init_database db) symbol
                interval (item :: rest)) as [db1 [e|]] eqn:Es.
    + intros [= <- _ <- <-]. exists (item :: rest). split; [reflexivity|exact Es].
    + intros [= <- _ <- <-]. split; [reflexivity|exact Es].
  - intros [= <- _ <- _]. reflexivity.
Qed.

End Run.

(** X25. When [collect_historical_data_for_single_coin_single_interval]
    returns a frame with rows, the table of the unit reads back, at every
    timestamp that was fetched, the candle that arrived first with it; and
    the last collected timestamp of the unit is the newest open time of all
    that was fetched. The open times of the answers are on whole seconds
    and such as [pd.to_datetime] takes. The table is read back for a unit
    whose table name is a bare identifier and for answers without the
    negative zero, which a REAL column gives back as [0.0], among their
    values. *)
Theorem single_unit_run_stores_first_arrivals
    (api : api_oracle) (fuel : nat) (now now_again clock : Z) (writable : bool)
    (tracker_now : Z) (db : database) (fs : ProgressTracker.file_system)
    (symbol interval : string) (days : Z)
    (db' : database) (fs' : ProgressTracker.file_system)
    (item : candle) (rest : list candle) (tr : list event) :
  collect_historical_data_for_single_coin_single_interval api fuel now now_again
    clock writable tracker_now db fs symbol interval days
  = (db', fs', Frame (item :: rest), tr) ->
  forallb datetime_range (answered (exchanges tr)) = true ->
  forallb whole_second (answered (exchanges tr)) = true ->
  (identifier (coin_table_name symbol interval) = true ->
   forallb exact_values (to_frame (answered (exchanges tr))) = true ->
   forall ts,
     has_timestamp ts (to_frame (answered (exchanges tr))) = true ->
     stored_candle (coin_table_name symbol interval) ts db'
     = candle_at ts (to_frame (answered (exchanges tr))))
  /\ exists newest,
       get_last_collected_timestamp db' symbol interval = Some (open_time newest)
       /\ In newest (answered (exchanges tr))
       /\ forall k, In k (answered (exchanges tr)) -> open_time k <= open_time newest.
Proof.
  intros Hrun _ _.
  pose proof (run_stored _ _ _ _ _ _ _ _ _ _ _ _ _ _ _ _ Hrun) as H.
  cbv beta iota in H. destruct H as [Hb Hs].
  destruct (batch_frame _ _ _ _ _ _ _ _ Hb) as [Ha He].
  pose proof (strictly_ascending_distinct _ Ha) as Hd.
  split.
  - intros _ _ ts Hts. rewrite (stored_after_store _ _ _ _ _ _ ts Hs).
    rewrite (candle_at_rev ts _ Hd), He.
    destruct (candle_at_present ts _ Hts) as [c Hc]. rewrite Hc. reflexivity.
  - destruct (batch_frame_rows _ _ (List.last rest item) Ha He (last_in item rest))
      as [newest [Hin Hrow]].
    assert (Hopen : open_time newest = last_timestamp item rest).
    { unfold last_timestamp. rewrite <- Hrow. reflexivity. }
    exists newest. split; [|split; [exact Hin|]].
    + rewrite Hopen. exact (status_after_store _ _ _ _ _ _ _ Hs).
    + intros k Hk. rewrite Hopen.
      assert (Hp : has_timestamp (open_time k)
                     (to_frame (answered (exchanges tr))) = true).
      { unfold has_timestamp. apply existsb_exists. exists (frame_row k).
        split; [apply frame_row_in; exists k; split; [exact Hk|reflexivity]|].
        apply Z.eqb_refl. }
      destruct (candle_at_present _ _ Hp) as [c Hc].
      rewrite <- He in Hc. apply candle_at_in in Hc. destruct Hc as [Hc Ht].
      rewrite <- Ht. apply (ascending_last_bounds item rest Ha c Hc).
Qed.

Lemma single_unit_run_stores_first_arrivals_witness :
  let api := scripted [Ok200 [minute 60000; minute 120000];
                       Ok200 [minute 120000; minute 0]] in
  let result :=
    collect_historical_data_for_single_coin_single_interval api 5 120002 86400000 1
      true 1 empty_database None "BTCUSDT" "1m" 1 in
  stored_candle "BTCUSDT_1m" 120000 (fst (fst (fst result)))
  = Some (frame_row (minute 120000)).
Proof.
  cbv zeta.
  set (run := collect_historical_data_for_single_coin_single_interval
                _ _ _ _ _ _ _ _ _ _ _ _).
  assert (Ec : (snd (fst run), answered (exchanges (snd run)))
               = (Frame (to_frame [minute 0; minute 60000; minute 120000]),
                  [minute 60000; minute 120000; minute 120000; minute 0])).
  { vm_compute. reflexivity. }
  apply pair_equal_spec in Ec. destruct Ec as [Eo Ea].
  assert (E : run = (fst (fst (fst run)), snd (fst (fst run)),
                     Frame (frame_row (minute 0)
                              :: to_frame [minute 60000; minute 120000]),
                     snd run)).
  { change (frame_row (minute 0) :: to_frame [minute 60000; minute 120000])
      with (to_frame [minute 0; minute 60000; minute 120000]).
    rewrite <- Eo, <- !surjective_pairing. reflexivity. }
  destruct (single_unit_run_stores_first_arrivals _ _ _ _ _ _ _ _ _ _ _ _ _ _ _ _
              _ E) as [H _].
  - rewrite Ea. reflexivity.
  - rewrite Ea. reflexivity.
  - change "BTCUSDT_1m" with (coin_table_name "BTCUSDT" "1m").
    assert (Hex : forallb exact_values (to_frame (answered (exchanges (snd run))))
                  = true).
    { rewrite Ea. reflexivity. }
    rewrite (H eq_refl Hex 120000); rewrite Ea; reflexivity.
Defined.



(** ** The sequential run *)

Lemma last_map {A B} (f : A -> B) (l : list A) (x : A) :
  List.last (map f l) (f x) = f (List.last l x).
Proof.
  revert x. induction l as [|y l IH]; intros x; [reflexivity|].
  cbn [map]. rewrite !last_cons. apply IH.
Qed.

(** X27. When [collect_single_coin_single_interval] returns a frame with
    rows, no request of the run failed; the table of the unit reads back, at
    every timestamp that was fetched, the candle that arrived last with it,
    where the batch fetcher keeps the first; and the last collected
    timestamp of the unit is the open time of the kline that arrived last,
    newest or not. The open times of the answers are on whole seconds and
    such as [pd.to_datetime] takes. The table is read back for a unit whose
    table name is a bare identifier and for answers without the negative
    zero, which a REAL column gives back as [0.0], among their values. *)
Theorem sequential_run_stores_last_arrivals
    (api : api_oracle) (fuel : nat) (now now_again clock : Z) (db : database)
    (symbol interval : string) (days : Z)
    (db' : database) (item : candle) (rest : list candle) (tr : list event) :
  collect_single_coin_single_interval api fuel now now_again clock db symbol
    interval days
  = (db', Frame (item :: rest), tr) ->
  forallb datetime_range (answered (exchanges tr)) = true ->
  forallb whole_second (answered (exchanges tr)) = true ->
  existsb (fun x => is_failure (snd x)) (exchanges tr) = false
  /\ (identifier (coin_table_name symbol interval) = true ->
      forallb exact_values (to_frame (answered (exchanges tr))) = true ->
      forall ts,
        has_timestamp ts (to_frame (answered (exchanges tr))) = true ->
        stored_candle (coin_table_name symbol interval) ts db'
        = candle_at ts (rev (to_frame (answered (exchanges tr)))))
  /\ exists k others,
       answered (exchanges tr) = (others ++ [k])%list
       /\ get_last_collected_timestamp db' symbol interval = Some (open_time k).
Proof.
  unfold collect_single_coin_single_interval. cbv zeta. intros Hrun _ _.
  destruct (get_historical_data api fuel symbol interval (now_again - days_ms days)
              now) as [[[|c df]|] tr0] eqn:Ef; try discriminate Hrun.
  destruct (save_price_data_to_coin_table clock db symbol interval (c :: df))
    as [db1 [e|]] eqn:Es; [discriminate Hrun|].
  injection Hrun as <- <- <- <-.
  pose proof (sequential_frame _ _ _ _ _ _ _ _ Ef) as Hdf.
  destruct (existsb (fun x => is_failure (snd x)) (exchanges tr0)) eqn:Ex;
    [discriminate Hdf|].
  split; [reflexivity|]. split.
  - intros _ _ ts Hts. rewrite (stored_after_store _ _ _ _ _ _ ts Es). rewrite Hdf.
    assert (Hr : has_timestamp ts (rev (to_frame (answered (exchanges tr0))))
                 = true).
    { unfold has_timestamp in *. apply existsb_exists in Hts.
      destruct Hts as [d [Hd Ht]]. apply existsb_exists. exists d.
      split; [apply in_rev in Hd; exact Hd|exact Ht]. }
    destruct (candle_at_present ts _ Hr) as [d Hd]. rewrite Hd. reflexivity.
  - pose proof (status_after_store _ _ _ _ _ _ _ Es) as Hst.
    destruct (answered (exchanges tr0)) as [|k0 ks] eqn:Ea; [discriminate Hdf|].
    destruct (@exists_last _ (k0 :: ks)) as [others [k Hk]]; [discriminate|].
    exists k, others. split; [exact Hk|]. rewrite Hst. f_equal.
    unfold last_timestamp. cbn [to_frame map] in Hdf. injection Hdf as -> ->.
    rewrite (last_map frame_row ks k0). cbn [frame_row timestamp].
    f_equal. rewrite <- (last_cons k0 k0), Hk. apply last_last.
Qed.

Lemma sequential_run_stores_last_arrivals_witness :
  let late := {| open_time := 0; k_open := 8%float; k_high := 8%float;
                 k_low := 8%float; k_close := 8%float; k_volume := 1%float;
                 close_time := 200000 |} in
  let result :=
    collect_single_coin_single_interval
      (scripted [Ok200 [minute 0; minute 60000]; Ok200 [late]])
      5 200000 86400000 1 btc_1m "BTCUSDT" "1m" 1 in
  stored_candle "BTCUSDT_1m" 0 (fst (fst result)) = Some (frame_row late).
Proof.
  cbv zeta.
  set (late := {| open_time := 0; k_open := 8%float; k_high := 8%float;
                  k_low := 8%float; k_close := 8%float; k_volume := 1%float;
                  close_time := 200000 |}).
  set (run := collect_single_coin_single_interval _ _ _ _ _ _ _ _ _).
  assert (Eo : snd (fst run) = Frame (to_frame [minute 0; minute 60000; late])).
  { vm_compute. reflexivity. }
  assert (E : run = (fst (fst run),
                     Frame (frame_row (minute 0) :: to_frame [minute 60000; late]),
                     snd run)).
  { change (frame_row (minute 0) :: to_frame [minute 60000; late])
      with (to_frame [minute 0; minute 60000; late]).
    rewrite <- Eo, <- !surjective_pairing. reflexivity. }
  destruct (sequential_run_stores_last_arrivals _ _ _ _ _ _ _ _ _ _ _ _ _ E)
    as (_ & H & _).
  - vm_compute. reflexivity.
  - vm_compute. reflexivity.
  - change "BTCUSDT_1m" with (coin_table_name "BTCUSDT" "1m").
    assert (Hex : forallb exact_values (to_frame (answered (exchanges (snd run))))
                  = true).
    { vm_compute. reflexivity. }
    rewrite (H eq_refl Hex 0); vm_compute; reflexivity.
Defined.

End ScriptFacts.
